(** * trueseeing: analysis context, package search and config modifier

    A shallow embedding of [trueseeing/context.py],
    [trueseeing/app/cmd/android/search.py] and [trueseeing/app/cmd/config.py].

    Python strings are [string]s of 8-bit characters, byte strings are
    [list byte], dictionaries are [gmap]s, sets are [gset]s.  Methods that
    touch [self], the file system or the terminal are computations in a
    state-and-exception monad: a raised exception keeps the state reached
    so far, as in Python. *)

From Stdlib Require Import ZArith Lia.
From Stdlib.Strings Require Import Ascii String Byte.
From stdpp Require Import gmap strings list sorting.

#[local] Set Warnings "-register-all".

(** ** Python string primitives *)

Module Str.

Definition eqb (a b : string) : bool := String.eqb a b.

(** [s.startswith(p)] *)
Definition startswith (p s : string) : bool := String.prefix p s.

(** [s.endswith(p)] *)
Fixpoint endswith (p s : string) : bool :=
  String.eqb s p ||
  match s with
  | EmptyString => false
  | String _ s' => endswith p s'
  end.

(** [p in s] for strings *)
Fixpoint contains (p s : string) : bool :=
  String.prefix p s ||
  match s with
  | EmptyString => false
  | String _ s' => contains p s'
  end.

(** [c in s] for a single character *)
Fixpoint mem (c : ascii) (s : string) : bool :=
  match s with
  | EmptyString => false
  | String d s' => Ascii.eqb c d || mem c s'
  end.

(** [s[:n]] *)
Fixpoint take (n : nat) (s : string) : string :=
  match n, s with
  | S n', String c s' => String c (take n' s')
  | _, _ => EmptyString
  end.

(** [s[n:]] *)
Fixpoint drop (n : nat) (s : string) : string :=
  match n, s with
  | S n', String _ s' => drop n' s'
  | _, _ => s
  end.

(** [s.split(sep)] for a one-character separator: never the empty list. *)
Fixpoint split (sep : ascii) (s : string) : list string :=
  match s with
  | EmptyString => [EmptyString]
  | String c s' =>
      if Ascii.eqb c sep then EmptyString :: split sep s'
      else match split sep s' with
           | [] => [String c EmptyString]
           | w :: ws => String c w :: ws
           end
  end.

(** [sep.join(l)] *)
Fixpoint join (sep : string) (l : list string) : string :=
  match l with
  | [] => EmptyString
  | [w] => w
  | w :: ws => w +:+ sep +:+ join sep ws
  end.

(** [s.replace(old, '')]: occurrences are found left to right and do not
    overlap; [skip] counts the characters of a found occurrence that are
    still to be dropped.  [old] is not empty. *)
Fixpoint remove_from (old : string) (skip : nat) (s : string) : string :=
  match s with
  | EmptyString => EmptyString
  | String c s' =>
      match skip with
      | S k => remove_from old k s'
      | O =>
          if String.prefix old s
          then remove_from old (Nat.pred (String.length old)) s'
          else String c (remove_from old O s')
      end
  end.

Definition remove (old s : string) : string := remove_from old O s.

End Str.

(** ** hashlib.sha256 (FIPS 180-4), on 32-bit words held in [Z] *)

Module SHA256.

Local Open Scope Z_scope.

Definition wrap (x : Z) : Z := x mod 2 ^ 32.
Definition add (x y : Z) : Z := wrap (x + y).
Definition rotr (n x : Z) : Z :=
  Z.lor (Z.shiftr x n) (wrap (Z.shiftl x (32 - n))).
Definition shr (n x : Z) : Z := Z.shiftr x n.
Definition inv (x : Z) : Z := Z.lxor x 0xffffffff.

Definition Ch (x y z : Z) : Z := Z.lxor (Z.land x y) (Z.land (inv x) z).
Definition Maj (x y z : Z) : Z :=
  Z.lxor (Z.lxor (Z.land x y) (Z.land x z)) (Z.land y z).
Definition Sigma0 (x : Z) : Z := Z.lxor (Z.lxor (rotr 2 x) (rotr 13 x)) (rotr 22 x).
Definition Sigma1 (x : Z) : Z := Z.lxor (Z.lxor (rotr 6 x) (rotr 11 x)) (rotr 25 x).
Definition sigma0 (x : Z) : Z := Z.lxor (Z.lxor (rotr 7 x) (rotr 18 x)) (shr 3 x).
Definition sigma1 (x : Z) : Z := Z.lxor (Z.lxor (rotr 17 x) (rotr 19 x)) (shr 10 x).

(** The round constants and the initial chaining value are the first 32
    bits of the fractional parts of the cube roots, respectively square
    roots, of the first primes. *)
Definition is_prime (p : Z) : bool :=
  forallb (fun d => negb (p mod Z.of_nat d =? 0)) (seq 2 (Z.to_nat p - 2)).

Definition primes (n : nat) : list Z :=
  firstn n (filter (fun p => is_prime p = true) (map Z.of_nat (seq 2 320))).

(** The largest [r] with [r ^ 3 <= x], bit by bit from bit [n - 1] down. *)
Fixpoint cube_root (n : nat) (x r : Z) : Z :=
  match n with
  | O => r
  | S n' =>
      let r' := r + 2 ^ Z.of_nat n' in
      cube_root n' x (if r' * r' * r' <=? x then r' else r)
  end.

Definition K : list Z :=
  Eval vm_compute in map (fun p => wrap (cube_root 40 (p * 2 ^ 96) 0)) (primes 64).

(** The eight working variables, also the chaining value. *)
Record regs := Regs { ra : Z; rb : Z; rc : Z; rd : Z; re : Z; rf : Z; rg : Z; rh : Z }.

Definition fraction_of_sqrt (p : Z) : Z := wrap (Z.sqrt (p * 2 ^ 64)).

Definition H0 : regs :=
  Eval vm_compute in
    match map fraction_of_sqrt (primes 8) with
    | [a; b; c; d; e; f; g; h] => Regs a b c d e f g h
    | _ => Regs 0 0 0 0 0 0 0 0
    end.

(** Padding: a one bit, zeros up to 56 modulo 64, the bit length on 8 bytes. *)
Definition be_bytes (n : nat) (x : Z) : list Z :=
  map (fun i => Z.land (Z.shiftr x (8 * Z.of_nat i)) 255) (rev (seq 0 n)).

Definition pad (msg : list Z) : list Z :=
  let len := Z.of_nat (length msg) in
  let zeros := Z.to_nat ((55 - len) mod 64) in
  msg ++ 128 :: repeat 0 zeros ++ be_bytes 8 (8 * len).

Fixpoint words (bs : list Z) : list Z :=
  match bs with
  | b0 :: b1 :: b2 :: b3 :: rest =>
      (((b0 * 256 + b1) * 256 + b2) * 256 + b3) :: words rest
  | _ => []
  end.

(** Message schedule, newest word first. *)
Fixpoint schedule (n : nat) (w : list Z) : list Z :=
  match n with
  | O => w
  | S n' =>
      let g i := nth i w 0 in
      schedule n' (add (add (sigma1 (g 1%nat)) (g 6%nat))
                       (add (sigma0 (g 14%nat)) (g 15%nat)) :: w)
  end.

Definition round (r : regs) (kw : Z * Z) : regs :=
  let t1 := add (add (add (rh r) (Sigma1 (re r))) (add (Ch (re r) (rf r) (rg r)) kw.1)) kw.2 in
  let t2 := add (Sigma0 (ra r)) (Maj (ra r) (rb r) (rc r)) in
  Regs (add t1 t2) (ra r) (rb r) (rc r) (add (rd r) t1) (re r) (rf r) (rg r).

Definition compress (h : regs) (block : list Z) : regs :=
  let w := rev (schedule 48 (rev block)) in
  let r := fold_left round (zip K w) h in
  Regs (add (ra h) (ra r)) (add (rb h) (rb r)) (add (rc h) (rc r)) (add (rd h) (rd r))
       (add (re h) (re r)) (add (rf h) (rf r)) (add (rg h) (rg r)) (add (rh h) (rh r)).

Fixpoint blocks (n : nat) (h : regs) (ws : list Z) : regs :=
  match n with
  | O => h
  | S n' => blocks n' (compress h (firstn 16 ws)) (skipn 16 ws)
  end.

Definition digest (msg : list byte) : regs :=
  let ws := words (pad (map (fun b => Z.of_N (Byte.to_N b)) msg)) in
  blocks (length ws / 16) H0 ws.

Definition hex_digits : list ascii := list_ascii_of_string "0123456789abcdef".

Definition hexdigit (n : Z) : ascii := nth (Z.to_nat n) hex_digits "0"%char.

Definition nibble (i x : Z) : ascii := hexdigit (Z.land (Z.shiftr x (4 * i)) 15).

Definition hex8 (x : Z) (k : string) : string :=
  String (nibble 7 x) (String (nibble 6 x) (String (nibble 5 x) (String (nibble 4 x)
 (String (nibble 3 x) (String (nibble 2 x) (String (nibble 1 x) (String (nibble 0 x) k))))))).

(** [hashlib.sha256(data).hexdigest()] *)
Definition hexdigest (msg : list byte) : string :=
  let r := digest msg in
  hex8 (ra r) (hex8 (rb r) (hex8 (rc r) (hex8 (rd r)
 (hex8 (re r) (hex8 (rf r) (hex8 (rg r) (hex8 (rh r) EmptyString))))))).

End SHA256.

(** ** Exceptions and the state-and-exception monad *)

Inductive exn :=
| KeyError (key : string)
| ValueError (msg : string)
| TypeError (msg : string)
| AttributeError (msg : string)
| OSError (msg : string)
| IndexError (msg : string)
| AssertionError
| RecursionError
| FatalError
| InvalidConfigKeyError
| ReError (pattern : string)
| ExternalError (msg : string).

Inductive result (A : Type) :=
| Ok (a : A)
| Raise (e : exn).
Arguments Ok {A} a.
Arguments Raise {A} e.

Definition M (S A : Type) : Type := S -> result A * S.

Definition ret {S A} (a : A) : M S A := fun s => (Ok a, s).
Definition raise {S A} (e : exn) : M S A := fun s => (Raise e, s).
Definition bind {S A B} (m : M S A) (k : A -> M S B) : M S B :=
  fun s => match m s with
           | (Ok a, s') => k a s'
           | (Raise e, s') => (Raise e, s')
           end.
Definition gets {S A} (f : S -> A) : M S A := fun s => (Ok (f s), s).
Definition modify {S} (f : S -> S) : M S unit := fun s => (Ok tt, f s).

(** [try: body / except <E>: handler] where [handles] recognises [E]. *)
Definition try_except {S A} (body : M S A) (handles : exn -> bool) (handler : M S A) : M S A :=
  fun s => match body s with
           | (Raise e, s') => if handles e then handler s' else (Raise e, s')
           | r => r
           end.

(** [try: body / finally: cleanup] *)
Definition try_finally {S A} (body : M S A) (cleanup : M S unit) : M S A :=
  fun s => match body s with
           | (r, s') => match cleanup s' with
                        | (Ok _, s'') => (r, s'')
                        | (Raise e, s'') => (Raise e, s'')
                        end
           end.

(** [for x in l: body] *)
Fixpoint for_each {S A} (l : list A) (body : A -> M S unit) : M S unit :=
  match l with
  | [] => ret tt
  | x :: l' => bind (body x) (fun _ => for_each l' body)
  end.

#[global] Instance M_ret {S} : MRet (M S) := fun A a => ret a.
#[global] Instance M_bind {S} : MBind (M S) := fun A B k m => bind m k.

Definition is_KeyError (e : exn) : bool := match e with KeyError _ => true | _ => false end.
Definition is_OSError (e : exn) : bool := match e with OSError _ => true | _ => false end.
Definition is_InvalidConfigKeyError (e : exn) : bool :=
  match e with InvalidConfigKeyError => true | _ => false end.

(** ** posixpath *)

Module Path.

Definition sep : ascii := "/"%char.

(** One step of [os.path.join]: an absolute component restarts the path. *)
Definition join2 (path b : string) : string :=
  if Str.startswith "/" b then b
  else if Str.eqb path "" || Str.endswith "/" path then path +:+ b
  else path +:+ "/" +:+ b.

(** [os.path.join] of [a] and the further components [p] *)
Definition join (a : string) (p : list string) : string := fold_left join2 p a.

(** [os.path.join] applied to an unpacked list: with no argument at all
    the call is a TypeError. *)
Definition join_star (l : list string) : result string :=
  match l with
  | [] => Raise (TypeError "join() missing 1 required positional argument: 'a'")
  | a :: p => Ok (join a p)
  end.

(** [(p[:i], p[i:])] for [i = p.rfind('/') + 1] *)
Fixpoint cut (p : string) : string * string :=
  match p with
  | EmptyString => (EmptyString, EmptyString)
  | String c p' =>
      let '(h, t) := cut p' in
      if negb (Str.eqb h "") then (String c h, t)
      else if Ascii.eqb c sep then (String c EmptyString, t)
      else (EmptyString, String c t)
  end.

(** [s.rstrip('/')] *)
Fixpoint rstrip (s : string) : string :=
  match s with
  | EmptyString => EmptyString
  | String c s' =>
      let r := rstrip s' in
      if Ascii.eqb c sep && Str.eqb r "" then EmptyString else String c r
  end.

(** [os.path.split]: trailing slashes leave the head unless it is all slashes. *)
Definition split (p : string) : string * string :=
  let '(h, t) := cut p in
  (if Str.eqb (rstrip h) "" then h else rstrip h, t).

Definition dirname (p : string) : string := (split p).1.

Definition isabs (p : string) : bool := Str.startswith "/" p.

(** The component loop of [os.path.normpath]; [acc] is [new_comps] reversed. *)
Fixpoint norm_comps (rooted : bool) (acc comps : list string) : list string :=
  match comps with
  | [] => rev acc
  | c :: cs =>
      if Str.eqb c "" || Str.eqb c "." then norm_comps rooted acc cs
      else if negb (Str.eqb c "..") then norm_comps rooted (c :: acc) cs
      else match acc with
           | [] => norm_comps rooted (if rooted then [] else [c]) cs
           | d :: acc' =>
               if Str.eqb d ".." then norm_comps rooted (c :: acc) cs
               else norm_comps rooted acc' cs
           end
  end.

Definition normpath (p : string) : string :=
  if Str.eqb p "" then "."
  else
    let slashes :=
      if negb (Str.startswith "/" p) then ""
      else if Str.startswith "//" p && negb (Str.startswith "///" p) then "//"
      else "/" in
    let q := slashes +:+ Str.join "/" (norm_comps (negb (Str.eqb slashes "")) [] (Str.split sep p)) in
    if Str.eqb q "" then "." else q.

(** [os.path.abspath], with the current directory [cwd] *)
Definition abspath (cwd p : string) : string :=
  normpath (if isabs p then p else join2 cwd p).

(** [[x for x in abspath(p).split('/') if x]] *)
Definition parts (cwd p : string) : list string :=
  filter (fun x => negb (Str.eqb x "") = true) (Str.split sep (abspath cwd p)).

Fixpoint common_len (a b : list string) : nat :=
  match a, b with
  | x :: a', y :: b' => if Str.eqb x y then S (common_len a' b') else O
  | _, _ => O
  end.

(** [os.path.relpath(path, start)] *)
Definition relpath (cwd path start : string) : result string :=
  if Str.eqb path "" then Raise (ValueError "no path specified")
  else
    let start_list := parts cwd start in
    let path_list := parts cwd path in
    let i := common_len start_list path_list in
    let rel_list := repeat ".." (length start_list - i) ++ skipn i path_list in
    match rel_list with
    | [] => Ok "."
    | a :: p => Ok (join a p)
    end.

End Path.

(** ** The file system

    A tree of directories and files; the order of a directory's entries is
    the order in which [os.scandir] reports them.  Symbolic links are not
    modelled, so a path is resolved through its normalised components. *)

Module FS.

Inductive node :=
| File (data : string)
| Dir (entries : list (string * node)).

Definition is_dir (n : node) : bool :=
  match n with Dir _ => true | File _ => false end.

Fixpoint find (name : string) (es : list (string * node)) : option node :=
  match es with
  | [] => None
  | (n, x) :: es' => if Str.eqb n name then Some x else find name es'
  end.

Fixpoint resolve (comps : list string) (n : node) : option node :=
  match comps with
  | [] => Some n
  | c :: cs =>
      match n with
      | File _ => None
      | Dir es => match find c es with
                  | Some x => resolve cs x
                  | None => None
                  end
      end
  end.

Definition subdirs (es : list (string * node)) : list string :=
  map fst (filter (fun e => is_dir e.2 = true) es).
Definition nondirs (es : list (string * node)) : list string :=
  map fst (filter (fun e => is_dir e.2 = false) es).

(** [os.walk(top)], top-down, errors of [scandir] ignored ([onerror=None]):
    one triple [(root, dirs, files)] per directory. *)
Fixpoint walk (top : string) (n : node) : list (string * list string * list string) :=
  match n with
  | File _ => []
  | Dir es =>
      (top, subdirs es, nondirs es) ::
      (fix below (l : list (string * node)) :=
         match l with
         | [] => []
         | (name, x) :: l' =>
             (if is_dir x then walk (Path.join2 top name) x else []) ++ below l'
         end) es
  end.


(** A chain of fresh empty directories. *)
Fixpoint fresh (comps : list string) : node :=
  match comps with
  | [] => Dir []
  | c :: cs => Dir [(c, fresh cs)]
  end.

Fixpoint update (name : string) (x : node) (es : list (string * node)) : list (string * node) :=
  match es with
  | [] => [(name, x)]
  | (n, y) :: es' => if Str.eqb n name then (n, x) :: es' else (n, y) :: update name x es'
  end.

(** [os.makedirs(path)] without [exist_ok]: [None] is the [OSError] raised
    when the leaf exists already or a file is in the way. *)
Fixpoint makedirs (comps : list string) (n : node) : option node :=
  match comps with
  | [] => None
  | c :: cs =>
      match n with
      | File _ => None
      | Dir es =>
          match find c es with
          | None => Some (Dir (update c (fresh cs) es))
          | Some x =>
              match makedirs cs x with
              | Some x' => Some (Dir (update c x' es))
              | None => None
              end
          end
      end
  end.

(** [fnmatch] for patterns made of literal characters and [*]. *)
Fixpoint fnmatch (pat name : string) : bool :=
  match pat with
  | EmptyString => Str.eqb name ""
  | String c pat' =>
      if Ascii.eqb c "*" then
        (fix rest (s : string) : bool :=
           fnmatch pat' s ||
           match s with
           | EmptyString => false
           | String _ s' => rest s'
           end) name
      else
        match name with
        | EmptyString => false
        | String d name' => Ascii.eqb c d && fnmatch pat' name'
        end
  end.

End FS.

(** ** What lies outside the repository *)

(** The parser, the disassembler and the packaged jar are external to
    [context.py]; they are taken as an interface. *)
Class External := {
  (** the content of a Fact Store *)
  facts : Type;
  empty_facts : facts;
  (** [trueseeing.code.parse.SmaliAnalyzer(store).analyze(text)]:
      the new content of the store, and the exception raised, if any *)
  smali_analyze : string -> facts -> facts * option exn;
  (** the effect on the file tree of the shell command given to [os.system] *)
  os_system : string -> FS.node -> FS.node;
  (** [pkg_resources.resource_filename(__name__, os.path.join('libs', 'apktool.jar'))] *)
  apktool_jar : string;
}.

(** A zip archive: the entries of its central directory, in order. *)
Definition zip_archive : Type := list (string * list byte).

(** [ZipFile.NameToInfo]: of two entries with one name the later one wins. *)
Definition name_to_info (z : zip_archive) : gmap string (list byte) :=
  foldl (fun m e => <[e.1 := e.2]> m) ∅ z.

(** What the process does that a caller can observe from outside. *)
Inductive event :=
| Exec (cmd : string)         (* os.system *)
| Parse (text : string)       (* SmaliAnalyzer.analyze *)
| Glob (pattern : string)     (* glob.glob *)
| Walk (top : string)         (* os.walk *)
| Read (path : string).       (* open(path).read() *)

(** The values kept in [Context.state]. *)
Inductive pyval :=
| VList (l : list string)
| VStore (path : string).     (* trueseeing.store.Store(path) *)

Record Context := {
  notes : list string;
  apk : option string;
  wd : option string;
  state : gmap string pyval;
}.

(** [Context.__init__] *)
Definition Context_init : Context :=
  {| notes := []; apk := None; wd := None; state := ∅ |}.

Definition set_apk (v : option string) (c : Context) : Context :=
  {| notes := notes c; apk := v; wd := wd c; state := state c |}.
Definition set_wd (v : option string) (c : Context) : Context :=
  {| notes := notes c; apk := apk c; wd := v; state := state c |}.
Definition set_state (v : gmap string pyval) (c : Context) : Context :=
  {| notes := notes c; apk := apk c; wd := wd c; state := v |}.

(** ** context.py *)

(** The body of [source_name_of_disassembled_class]: the path of [fn]
    relative to [wd], split at the separators, without its first component,
    joined again.  It reads [self.wd] and the current directory only; a
    start of [None] stands for the current directory. *)
Definition source_name_at (wd : option string) (cwd fn : string) : result string :=
  match Path.relpath cwd fn (default "." wd) with
  | Ok rel => Path.join_star (tail (Str.split Path.sep rel))
  | Raise e => Raise e
  end.

Section ContextMethods.

Context {ext : External}.

Record World := {
  environ : gmap string string;          (* os.environ *)
  cwd : string;                          (* os.getcwd() *)
  fs : FS.node;                          (* the root directory *)
  archives : gmap string zip_archive;    (* the zip files, by path *)
  stores : gmap string facts;            (* the persisted Fact Stores, by directory *)
  console : list string;                 (* the lines written by ui.info *)
  trace : list event;
}.

(** A running process: the context object and the world around it. *)
Record Proc := { self : Context; world : World }.

Definition with_self (f : Context -> Context) (p : Proc) : Proc :=
  {| self := f (self p); world := world p |}.
Definition with_world (f : World -> World) (p : Proc) : Proc :=
  {| self := self p; world := f (world p) |}.

Definition set_fs (v : FS.node) (w : World) : World :=
  {| environ := environ w; cwd := cwd w; fs := v; archives := archives w;
     stores := stores w; console := console w; trace := trace w |}.
Definition set_stores (v : gmap string facts) (w : World) : World :=
  {| environ := environ w; cwd := cwd w; fs := fs w; archives := archives w;
     stores := v; console := console w; trace := trace w |}.
Definition set_console (v : list string) (w : World) : World :=
  {| environ := environ w; cwd := cwd w; fs := fs w; archives := archives w;
     stores := stores w; console := v; trace := trace w |}.
Definition set_trace (v : list event) (w : World) : World :=
  {| environ := environ w; cwd := cwd w; fs := fs w; archives := archives w;
     stores := stores w; console := console w; trace := v |}.

Definition emit (e : event) : M Proc unit :=
  modify (with_world (fun w => set_trace (trace w ++ [e]) w)).

(** [ui.info(line)] *)
Definition ui_info (line : string) : M Proc unit :=
  modify (with_world (fun w => set_console (console w ++ [line]) w)).

(** [self.state[key]] *)
Definition state_get (key : string) : M Proc pyval :=
  fun p => match state (self p) !! key with
           | Some v => (Ok v, p)
           | None => (Raise (KeyError key), p)
           end.

(** [self.state[key] = v] *)
Definition state_set (key : string) (v : pyval) : M Proc unit :=
  modify (with_self (fun c => set_state (<[key := v]> (state c)) c)).

(** [self.state[key].extend(items)] *)
Definition state_extend (key : string) (items : list string) : M Proc unit :=
  v ← state_get key;
  match v with
  | VList l => state_set key (VList (l ++ items))
  | VStore _ => raise (AttributeError "'Store' object has no attribute 'extend'")
  end.

(** [os.environ[key]] *)
Definition os_environ (key : string) : M Proc string :=
  fun p => match environ (world p) !! key with
           | Some v => (Ok v, p)
           | None => (Raise (KeyError key), p)
           end.

(** [zipfile.ZipFile(apk, 'r').open(name).read()] *)
Definition zip_read (apk name : string) : M Proc (list byte) :=
  fun p => match archives (world p) !! apk with
           | None => (Raise (OSError ("No such file or directory: '" +:+ apk +:+ "'")), p)
           | Some z =>
               match name_to_info z !! name with
               | Some data => (Ok data, p)
               | None => (Raise (KeyError ("There is no item named '" +:+ name
                                            +:+ "' in the archive")), p)
               end
           end.

Definition resolve_path (w : World) (path : string) : option FS.node :=
  FS.resolve (Path.parts (cwd w) path) (fs w).

(** [os.makedirs(path, mode=0o700)] *)
Definition os_makedirs (path : string) : M Proc unit :=
  fun p => match FS.makedirs (Path.parts (cwd (world p)) path) (fs (world p)) with
           | Some root => (Ok tt, with_world (set_fs root) p)
           | None => (Raise (OSError ("File exists: '" +:+ path +:+ "'")), p)
           end.

(** [os.system(cmd)]: the exit status is not looked at. *)
Definition os_system_call (cmd : string) : M Proc unit :=
  emit (Exec cmd);;
  modify (with_world (fun w => set_fs (os_system cmd (fs w)) w)).

(** [list(os.walk(top))] in the world [w] *)
Definition walk_in (w : World) (top : string) : list (string * list string * list string) :=
  match resolve_path w top with
  | Some n => FS.walk top n
  | None => []
  end.

Definition os_walk (top : string) : M Proc (list (string * list string * list string)) :=
  emit (Walk top);;
  w ← gets world;
  mret (walk_in w top).

(** [glob.glob(pattern)] in the world [w], for a pattern
    [<dir>/<name pattern>/] whose directory part holds no glob
    metacharacter: the directories of [<dir>] whose name matches, each
    with a trailing slash. *)
Definition glob_in (w : World) (pattern : string) : list string :=
  let '(head, base) := Path.split (Path.split pattern).1 in
  let names :=
    match resolve_path w (if Str.eqb head "" then "." else head) with
    | Some (FS.Dir es) => FS.subdirs es
    | _ => []
    end in
  let shown name := negb (Str.startswith "." name) || Str.startswith "." base in
  map (fun name => Path.join2 (Path.join2 head name) "")
      (filter (fun name => shown name && FS.fnmatch base name = true) names).

Definition glob_glob (pattern : string) : M Proc (list string) :=
  emit (Glob pattern);;
  w ← gets world;
  mret (glob_in w pattern).

(** [open(fn, 'r').read()] *)
Definition read_file (fn : string) : M Proc string :=
  emit (Read fn);;
  w ← gets world;
  match resolve_path w fn with
  | Some (FS.File data) => ret data
  | _ => raise (OSError ("No such file or directory: '" +:+ fn +:+ "'"))
  end.

(** Python's bound on the depth of recursive calls. *)
Definition recursion_limit : nat := 1000.

Definition need_wd : M Proc string :=
  c ← gets self;
  match wd c with
  | Some d => ret d
  | None => raise (TypeError "expected str, bytes or os.PathLike object, not NoneType")
  end.

Definition fingerprint_of (apk : string) : M Proc string :=
  data ← zip_read apk "META-INF/MANIFEST.MF";
  ret (SHA256.hexdigest data).

Definition workdir_of (apk : string) : M Proc string :=
  hashed ← fingerprint_of apk;
  home ← os_environ "HOME";
  let dirname :=
    Path.join home [".trueseeing2"; Str.take 2 hashed; Str.take 2 (Str.drop 2 hashed);
                    Str.drop 4 hashed] in
  ret dirname.

Fixpoint store_rec (depth : nat) : M Proc pyval :=
  match depth with
  | O => raise RecursionError
  | S depth' =>
      c ← gets self;
      match wd c with
      | None => raise AssertionError
      | Some d =>
          try_except (state_get "ts2.store") is_KeyError
            (state_set "ts2.store" (VStore d);;
             store_rec depth')
      end
  end.
Definition store : M Proc pyval := store_rec recursion_limit.

Definition smali_files (files : list string) : list string :=
  filter (fun f => Str.endswith ".smali" f = true) files.

Fixpoint disassembled_classes_rec (depth : nat) : M Proc pyval :=
  match depth with
  | O => raise RecursionError
  | S depth' =>
      try_except (state_get "ts2.context.disassembled_classes") is_KeyError
        (state_set "ts2.context.disassembled_classes" (VList []);;
         d ← need_wd;
         roots ← glob_glob (Path.join d ["smali*/"]);
         walks ← mapM os_walk roots;
         for_each (concat walks) (fun '(root, dirs, files) =>
           state_extend "ts2.context.disassembled_classes"
             (map (fun f => Path.join root [f]) (smali_files files)));;
         disassembled_classes_rec depth')
  end.
Definition disassembled_classes : M Proc pyval :=
  disassembled_classes_rec recursion_limit.

Fixpoint disassembled_resources_rec (depth : nat) : M Proc pyval :=
  match depth with
  | O => raise RecursionError
  | S depth' =>
      try_except (state_get "ts2.context.disassembled_resources") is_KeyError
        (state_set "ts2.context.disassembled_resources" (VList []);;
         d ← need_wd;
         walk ← os_walk (Path.join d ["res"]);
         for_each walk (fun '(root, dirs, files) =>
           state_extend "ts2.context.disassembled_resources"
             (map (fun f => Path.join root [f])
                  (filter (fun f => Str.endswith ".xml" f = true) files)));;
         disassembled_resources_rec depth')
  end.
Definition disassembled_resources : M Proc pyval :=
  disassembled_resources_rec recursion_limit.

Fixpoint string_resource_files_rec (depth : nat) : M Proc pyval :=
  match depth with
  | O => raise RecursionError
  | S depth' =>
      try_except (state_get "ts2.context.string_resource_files") is_KeyError
        (state_set "ts2.context.string_resource_files" (VList []);;
         d ← need_wd;
         walk ← os_walk (Path.join d ["res"; "values"]);
         for_each walk (fun '(root, dirs, files) =>
           state_extend "ts2.context.string_resource_files"
             (map (fun f => Path.join root [f])
                  (filter (fun f => Str.contains "strings" f = true) files)));;
         string_resource_files_rec depth')
  end.
Definition string_resource_files : M Proc pyval :=
  string_resource_files_rec recursion_limit.

Definition lift {A} (r : result A) : M Proc A := fun p => (r, p).

Definition source_name_of_disassembled_class (fn : string) : M Proc string :=
  c ← gets self;
  w ← gets world;
  lift (source_name_at (wd c) (cwd w) fn).

Definition dalvik_type_of_disassembled_class (fn : string) : M Proc string :=
  name ← source_name_of_disassembled_class fn;
  mret ("L" +:+ Str.remove ".smali" name +:+ ";").

Definition newline : string := String "010"%char EmptyString.

(** [SmaliAnalyzer(store).analyze(text)] on the store persisted at [path] *)
Definition smali_analyze_call (path text : string) : M Proc unit :=
  emit (Parse text);;
  w ← gets world;
  let '(content, err) := smali_analyze text (default empty_facts (stores w !! path)) in
  modify (with_world (set_stores (<[path := content]> (stores w))));;
  match err with
  | Some e => raise e
  | None => ret tt
  end.

(** [try: body / except <E>: handler / else: orelse] *)
Definition try_except_else {A B} (body : M Proc A) (handles : exn -> bool)
    (handler : M Proc B) (orelse : A -> M Proc B) : M Proc B :=
  fun p => match body p with
           | (Ok a, p') => orelse a p'
           | (Raise e, p') => if handles e then handler p' else (Raise e, p')
           end.

Definition analyze (apk : string) (skip_resources : bool) : M Proc unit :=
  c ← gets self;
  match wd c with
  | None =>
      modify (with_self (set_apk (Some apk)));;
      d ← workdir_of apk;
      modify (with_self (set_wd (Some d)));;
      try_except_else (os_makedirs d) is_OSError
        (ret tt)
        (fun _ =>
           os_system_call ("java -jar " +:+ apktool_jar +:+ " d -f"
                           +:+ (if skip_resources then "r" else "")
                           +:+ "o " +:+ d +:+ " " +:+ apk);;
           handle ← store;
           match handle with
           | VList _ => raise (AttributeError "__enter__")
           | VStore path =>
               classes ← disassembled_classes;
               match classes with
               | VStore _ => raise (TypeError "'Store' object is not iterable")
               | VList fns =>
                   texts ← mapM read_file fns;
                   smali_analyze_call path (Str.join newline texts)
               end
           end)
  | Some _ => raise (ValueError "analyzed once")
  end.

(** Modelled from the spec: [trueseeing.store] is not among the sources.  A
    query operation is a function of the content persisted for the store's
    directory, and querying a store that was never ingested is the spec's
    not-ready error. *)
Definition store_query {R} (q : facts -> R) (handle : pyval) : M Proc R :=
  match handle with
  | VList _ => raise (AttributeError "query")
  | VStore path =>
      w ← gets world;
      match stores w !! path with
      | Some content => ret (q content)
      | None => raise (ExternalError "not ready")
      end
  end.

End ContextMethods.

(** ** A fragment of Python's [re]

    Patterns made of literal characters and [.], each optionally followed
    by one of the quantifiers [*], [+] and [?].  [re.match] anchors the
    match at the start of the string only. *)

Module Re.

Inductive re :=
| Void
| Eps
| Chr (c : ascii)
| Dot
| Cat (a b : re)
| Alt (a b : re)
| Star (a : re).

Fixpoint nullable (r : re) : bool :=
  match r with
  | Void | Chr _ | Dot => false
  | Eps | Star _ => true
  | Cat a b => nullable a && nullable b
  | Alt a b => nullable a || nullable b
  end.

(** What is left of [r] after reading [c]; [.] reads anything but a newline. *)
Fixpoint deriv (c : ascii) (r : re) : re :=
  match r with
  | Void | Eps => Void
  | Chr d => if Ascii.eqb c d then Eps else Void
  | Dot => if Ascii.eqb c "010" then Void else Eps
  | Cat a b =>
      if nullable a then Alt (Cat (deriv c a) b) (deriv c b)
      else Cat (deriv c a) b
  | Alt a b => Alt (deriv c a) (deriv c b)
  | Star a => Cat (deriv c a) (Star a)
  end.

(** Some prefix of [s] is matched by [r]. *)
Fixpoint matches_prefix (r : re) (s : string) : bool :=
  nullable r ||
  match s with
  | EmptyString => false
  | String c s' => matches_prefix (deriv c r) s'
  end.

Definition is_meta (c : ascii) : bool := Str.mem c "\^$.|?*+()[]{}".

Definition close (done : re) (cur : option (re * bool)) : re :=
  match cur with
  | Some (a, _) => Cat done a
  | None => done
  end.

(** [done] is the pattern read so far without its last atom [cur]; the
    flag tells whether that atom already carries a quantifier. *)
Fixpoint parse_from (done : re) (cur : option (re * bool)) (p : string) : option re :=
  match p with
  | EmptyString => Some (close done cur)
  | String c p' =>
      let quantify f :=
        match cur with
        | Some (a, false) => parse_from done (Some (f a, true)) p'
        | _ => None
        end in
      if Ascii.eqb c "*" then quantify Star
      else if Ascii.eqb c "+" then quantify (fun a => Cat a (Star a))
      else if Ascii.eqb c "?" then quantify (Alt Eps)
      else if Ascii.eqb c "." then parse_from (close done cur) (Some (Dot, false)) p'
      else if is_meta c then None
      else parse_from (close done cur) (Some (Chr c, false)) p'
  end.

Definition parse (p : string) : option re := parse_from Eps None p.

(** [bool(re.match(pat, s))] on the fragment *)
Definition py_match (pat s : string) : result bool :=
  match parse pat with
  | Some r => Ok (matches_prefix r s)
  | None => Raise (ExternalError "pattern outside the modelled fragment")
  end.

End Re.

(** ** search.py *)

(** The order of [sorted] on strings: character by character, by code. *)
Definition str_le (a b : string) : Prop := String.leb a b = true.
Definition str_lt (a b : string) : Prop := String.ltb a b = true.

#[global] Instance str_le_dec : RelDecision str_le.
Proof. intros a b. unfold str_le. apply _. Defined.

(** [sorted(l)] *)
Definition sorted (l : list string) : list string := merge_sort str_le l.

Section SearchCommand.

Context {ext : External}.

(** [self._helper.require_target()] *)
Variable require_target : M Proc unit.
(** [await self._helper.get_context().require_type('apk').analyze()];
    afterwards [self] of the process is the analysed context. *)
Variable get_analyzed_context : M Proc unit.
(** [bool(re.match(pat, s))], or the [re.error] of a pattern that does not compile *)
Variable re_match : string -> string -> result bool.

(** [args.popleft()] *)
Definition popleft (args : list string) : M Proc (string * list string) :=
  match args with
  | [] => raise (IndexError "pop from an empty deque")
  | a :: rest => ret (a, rest)
  end.

(** The first loop: one source name per class file, its directory kept. *)
Fixpoint collect_packages (rs : list string) (packages : gset string) : M Proc (gset string) :=
  match rs with
  | [] => ret packages
  | r :: rs' =>
      fn ← source_name_of_disassembled_class r;
      collect_packages rs'
        (if Str.endswith ".smali" fn then packages ∪ {[Path.dirname fn]} else packages)
  end.

(** The body of the second loop. *)
Definition list_body (pat pkg : string) : M Proc unit :=
  m ← lift (re_match pat pkg);
  if (m : bool) then ui_info pkg else ret tt.

(** The second loop. *)
Definition list_packages (pat : string) (packages : gset string) : M Proc unit :=
  for_each (sorted (elements packages)) (list_body pat).

(** [pkg] passes the test of the second loop. *)
Definition matches (pat pkg : string) : bool :=
  match re_match pat pkg with
  | Ok true => true
  | _ => false
  end.

(** Up to the heading: the pattern to search for. *)
Definition search_prelude (args : list string) : M Proc string :=
  require_target;;
  '(_, args) ← popleft args;
  let pat := match args with
             | p :: _ => p
             | [] => "."
             end in
  get_analyzed_context;;
  ui_info ("searching packages defining class: " +:+ pat);;
  mret pat.

(** After the heading: the two loops. *)
Definition search_listing (pat : string) : M Proc unit :=
  classes ← disassembled_classes;
  match classes with
  | VStore _ => raise (TypeError "'Store' object is not iterable")
  | VList rs =>
      packages ← collect_packages rs ∅;
      list_packages pat packages
  end.

Definition _search_defined_package (args : list string) : M Proc unit :=
  pat ← search_prelude args;
  search_listing pat.

(** The lines a listing writes. *)
Definition listed (pat : string) (p : Proc) : list string :=
  drop (length (console (world p))) (console (world (search_listing pat p).2)).

(** [pkg] is the directory of the source name of a class file of [p]. *)
Definition is_package (p : Proc) (pkg : string) : Prop :=
  exists rs r fn,
    (disassembled_classes p).1 = Ok (VList rs) /\ r ∈ rs /\
    source_name_at (wd (self p)) (cwd (world p)) r = Ok fn /\
    Str.endswith ".smali" fn = true /\ pkg = Path.dirname fn.

End SearchCommand.

(** ** config.py *)

Section ConfigCommand.

(** The values of configuration entries; [of_str] is a Python string as
    such a value. *)
Variable value : Type.
Variable of_str : string -> value.
(** The command helper with its bag of configuration entries, and its two
    accessors; both raise [InvalidConfigKeyError] on a key they do not know. *)
Variable helper : Type.
Variable get_config : string -> helper -> result value.
Variable set_config : string -> value -> helper -> result unit * helper.

Record ConfigCommand := {
  _helper : helper;
  _stash : gmap string value;
  ui_lines : list string;
}.

Definition set_helper (h : helper) (c : ConfigCommand) : ConfigCommand :=
  {| _helper := h; _stash := _stash c; ui_lines := ui_lines c |}.
Definition set_stash (s : gmap string value) (c : ConfigCommand) : ConfigCommand :=
  {| _helper := _helper c; _stash := s; ui_lines := ui_lines c |}.

(** [ConfigCommand.__init__] *)
Definition ConfigCommand_init (h : helper) : ConfigCommand :=
  {| _helper := h; _stash := ∅; ui_lines := [] |}.

(** [ui.fatal(msg)] reports and does not return. *)
Definition ui_fatal {A} (msg : string) : M ConfigCommand A :=
  fun c => (Raise FatalError,
            {| _helper := _helper c; _stash := _stash c; ui_lines := ui_lines c ++ [msg] |}).

(** [self._helper.get_config(k)] *)
Definition helper_get (k : string) : M ConfigCommand value :=
  fun c => (get_config k (_helper c), c).

(** [self._helper.set_config(k, v)] *)
Definition helper_set (k : string) (v : value) : M ConfigCommand unit :=
  fun c => let '(r, h) := set_config k v (_helper c) in (r, set_helper h c).

(** [del self._stash[k]] *)
Definition stash_del (k : string) : M ConfigCommand unit :=
  fun c => match _stash c !! k with
           | Some _ => (Ok tt, set_stash (delete k (_stash c)) c)
           | None => (Raise (KeyError k), c)
           end.

Definition _mod (ev val : string) : M ConfigCommand unit :=
  (if negb (Str.mem "=" val) then ui_fatal "need a value" else ret tt);;
  match Str.split "=" val with
  | [k; v] =>
      try_except
        (if Str.eqb ev "begin" then
           s ← gets _stash;
           (if decide (is_Some (s !! k))
            then ui_fatal ("config key is already bound: " +:+ k)
            else ret tt);;
           ov ← helper_get k;
           helper_set k (of_str v);;
           modify (fun c => set_stash (<[k := ov]> (_stash c)) c)
         else if Str.eqb ev "end" then
           s ← gets _stash;
           match s !! k with
           | None => raise AssertionError
           | Some saved => try_finally (helper_set k saved) (stash_del k)
           end
         else ret tt)
        is_InvalidConfigKeyError
        (ui_fatal ("unknown key: " +:+ k))
  | [] | [_] => raise (ValueError "not enough values to unpack (expected 2, got 1)")
  | _ => raise (ValueError "too many values to unpack (expected 2)")
  end.

End ConfigCommand.

Arguments _helper {value helper} c.
Arguments _stash {value helper} c.
Arguments ui_lines {value helper} c.
Arguments set_helper {value helper} h c.
Arguments set_stash {value helper} s c.
Arguments ConfigCommand_init {value helper} h.
Arguments ui_fatal {value helper A} msg.
Arguments _mod {value} of_str {helper} get_config set_config ev val.

(** ** Names used in the statements *)

(** The cache root [os.path.join(HOME, '.trueseeing2')]. *)
Definition cache_root (home : string) : string := Path.join home [".trueseeing2"].

(** The name of the manifest-integrity entry of a package. *)
Definition manifest_name : string := "META-INF/MANIFEST.MF".

(** ** A concrete setting: one small package, a parser that records the
    text it is given and a disassembler that writes one class *)

Module Demo.

(** Put [x] at the place [comps] of the tree. *)
Fixpoint put (comps : list string) (x : FS.node) (n : FS.node) : FS.node :=
  match comps with
  | [] => x
  | c :: cs =>
      match n with
      | FS.File _ => n
      | FS.Dir es => FS.Dir (FS.update c (put cs x (default (FS.Dir []) (FS.find c es))) es)
      end
  end.

Definition disassembled : FS.node :=
  FS.Dir [("AndroidManifest.xml", FS.File "<manifest/>");
          ("smali", FS.Dir [("Main.smali", FS.File ".class public LMain;");
                            ("com", FS.Dir [("app", FS.Dir [("Home.smali", FS.File ".class public Lcom/app/Home;")])])]);
          ("res", FS.Dir [("values", FS.Dir [("strings.xml", FS.File "<resources/>")])])].

(** The output directory is the sixth word of the command line. *)
Definition run (cmd : string) (root : FS.node) : FS.node :=
  match Str.split " " cmd with
  | [_; _; _; _; _; out; _] => put (Path.parts "/" out) disassembled root
  | _ => root
  end.

#[global] Instance ext : External := {|
  facts := list string;
  empty_facts := [];
  smali_analyze := fun text content => (content ++ [text], None);
  os_system := run;
  apktool_jar := "/opt/trueseeing/libs/apktool.jar";
|}.

Definition manifest : list byte :=
  String.list_byte_of_string "Manifest-Version: 1.0".

Definition app_apk : zip_archive :=
  [("AndroidManifest.xml", String.list_byte_of_string "axml");
   (manifest_name, manifest);
   ("classes.dex", String.list_byte_of_string "dex 035")].

(** The same manifest around other content. *)
Definition repacked_apk : zip_archive :=
  [(manifest_name, manifest);
   ("classes.dex", String.list_byte_of_string "dex 037");
   ("lib/arm64-v8a/libnative.so", String.list_byte_of_string "elf")].

(** No entry of that exact name. *)
Definition unsigned_apk : zip_archive :=
  [("classes.dex", String.list_byte_of_string "dex 035");
   ("meta-inf/manifest.mf", manifest)].

Definition world0 : World := {|
  environ := {["HOME" := "/home/user"]};
  cwd := "/home/user";
  fs := FS.Dir [("home", FS.Dir [("user", FS.Dir [])])];
  archives := {["/tmp/app.apk" := app_apk; "/tmp/repacked.apk" := repacked_apk;
                "/tmp/unsigned.apk" := unsigned_apk]};
  stores := ∅;
  console := [];
  trace := [];
|}.

(** A fresh context in that world. *)
Definition fresh : Proc := {| self := Context_init; world := world0 |}.

(** The world a first run leaves behind. *)
Definition after_first_run : World := world (analyze "/tmp/app.apk" false fresh).2.

(** The cache directory of the package. *)
Definition cache_dir : string :=
  let h := SHA256.hexdigest manifest in
  cache_root "/home/user" +:+ "/" +:+ Str.take 2 h +:+ "/" +:+ Str.take 2 (Str.drop 2 h)
  +:+ "/" +:+ Str.drop 4 h.

(** The process after the first run. *)
Definition analysed : Proc := (analyze "/tmp/app.apk" false fresh).2.

(** A package disassembled into two roots that both hold [a/B.smali]. *)
Definition multidex_world : World := {|
  environ := {["HOME" := "/home/user"]};
  cwd := "/home/user";
  fs := FS.Dir [("w", FS.Dir [("smali", FS.Dir [("a", FS.Dir [("B.smali", FS.File ".class public La/B;")])]);
                              ("smali_classes2", FS.Dir [("a", FS.Dir [("B.smali", FS.File ".class public La/B;")])])])];
  archives := ∅;
  stores := ∅;
  console := [];
  trace := [];
|}.

Definition multidex : Proc :=
  {| self := set_wd (Some "/w") Context_init; world := multidex_world |}.


End Demo.

(** ** A concrete config helper: a bag of string-valued entries *)

Module DemoConfig.

Definition get (k : string) (bag : gmap string string) : result string :=
  match bag !! k with
  | Some v => Ok v
  | None => Raise InvalidConfigKeyError
  end.

Definition set (k v : string) (bag : gmap string string) : result unit * gmap string string :=
  match bag !! k with
  | Some _ => (Ok tt, <[k := v]> bag)
  | None => (Raise InvalidConfigKeyError, bag)
  end.

Definition command : ConfigCommand string (gmap string string) :=
  ConfigCommand_init {["debug" := "0"]}.

Definition modifier : string -> string -> M (ConfigCommand string (gmap string string)) unit :=
  _mod id get set.

End DemoConfig.

(** ** Names of files and directories *)

(** A name as a directory entry has it: not empty, not [.] or [..], and
    without a separator. *)
Definition plain_name (x : string) : Prop :=
  x <> "" /\ x <> "." /\ x <> ".." /\ Str.mem Path.sep x = false.

(** [fn] names a class file below the disassembly root [root] of the
    working directory [d]: its normalised components are those of [d], then
    [root], then the names [segs], which joined read [stem.smali] with no
    other occurrence of [.smali]. *)
Definition class_file_at (cwd d fn root : string) (segs : list string) (stem : string) : Prop :=
  fn <> "" /\
  Path.parts cwd fn = Path.parts cwd d ++ root :: segs /\
  Forall plain_name (root :: segs) /\
  Str.join "/" segs = stem +:+ ".smali" /\
  Str.contains ".smali" stem = false.

(** ** The keys of [Context.state] and the pattern of the memoised methods *)

Section Patterns.

Context {ext : External}.

Definition store_key : string := "ts2.store".
Definition classes_key : string := "ts2.context.disassembled_classes".
Definition resources_key : string := "ts2.context.disassembled_resources".
Definition strings_key : string := "ts2.context.string_resource_files".

(** The three enumerations are instances of one scheme: look the entry up
    and, on a miss, create it empty, fill it and start again. *)

Fixpoint memo_rec (key : string) (fill : M Proc unit) (depth : nat) : M Proc pyval :=
  match depth with
  | O => raise RecursionError
  | S depth' =>
      try_except (state_get key) is_KeyError
        (state_set key (VList []);; fill;; memo_rec key fill depth')
  end.

Definition classes_fill : M Proc unit :=
  d ← need_wd;
  roots ← glob_glob (Path.join d ["smali*/"]);
  walks ← mapM os_walk roots;
  for_each (concat walks) (fun '(root, dirs, files) =>
    state_extend classes_key (map (fun f => Path.join root [f]) (smali_files files))).

Definition resources_fill : M Proc unit :=
  d ← need_wd;
  walk ← os_walk (Path.join d ["res"]);
  for_each walk (fun '(root, dirs, files) =>
    state_extend resources_key
      (map (fun f => Path.join root [f]) (filter (fun f => Str.endswith ".xml" f = true) files))).

Definition strings_fill : M Proc unit :=
  d ← need_wd;
  walk ← os_walk (Path.join d ["res"; "values"]);
  for_each walk (fun '(root, dirs, files) =>
    state_extend strings_key
      (map (fun f => Path.join root [f])
           (filter (fun f => Str.contains "strings" f = true) files))).

(** What [analyze] does once the working directory [d] is chosen. *)
Definition ingest (apk : string) (skip_resources : bool) (d : string) : M Proc unit :=
  try_except_else (os_makedirs d) is_OSError
    (mret tt)
    (fun _ =>
       os_system_call ("java -jar " +:+ apktool_jar +:+ " d -f"
                       +:+ (if skip_resources then "r" else "")
                       +:+ "o " +:+ d +:+ " " +:+ apk);;
       handle ← store;
       match handle with
       | VList _ => raise (AttributeError "__enter__")
       | VStore path =>
           classes ← disassembled_classes;
           match classes with
           | VStore _ => raise (TypeError "'Store' object is not iterable")
           | VList fns =>
               texts ← mapM read_file fns;
               smali_analyze_call path (Str.join newline texts)
           end
       end).

(** The directory [workdir_of] chooses, as a function of the world. *)
Definition workdir_in (w : World) (apk : string) : result string :=
  match archives w !! apk with
  | None => Raise (OSError ("No such file or directory: '" +:+ apk +:+ "'"))
  | Some z =>
      match name_to_info z !! "META-INF/MANIFEST.MF" with
      | None => Raise (KeyError "There is no item named 'META-INF/MANIFEST.MF' in the archive")
      | Some data =>
          match environ w !! "HOME" with
          | None => Raise (KeyError "HOME")
          | Some home =>
              let hashed := SHA256.hexdigest data in
              Ok (Path.join home [".trueseeing2"; Str.take 2 hashed;
                                  Str.take 2 (Str.drop 2 hashed); Str.drop 4 hashed])
          end
      end
  end.


Definition resource_files (w : World) (d : string) : list string :=
  concat (map (fun '(root, dirs, files) =>
                 map (fun f => Path.join root [f])
                     (filter (fun f => Str.endswith ".xml" f = true) files))
              (walk_in w (Path.join d ["res"]))).

End Patterns.

(** ** The rest of context.py *)

Section ContextNames.

Context {ext : External}.

(** [source_name_of_disassembled_resource]: the arguments of
    [os.path.relpath] are evaluated first, so a context without a working
    directory fails in [os.path.join]. *)
Definition source_name_of_disassembled_resource (fn : string) : M Proc string :=
  d ← need_wd;
  w ← gets world;
  lift (Path.relpath (cwd w) fn (Path.join d ["res"])).

(** What [string_resource_files] computes, as a function of the world. *)
Definition string_files (w : World) (d : string) : list string :=
  concat (map (fun '(root, dirs, files) =>
                 map (fun f => Path.join root [f])
                     (filter (fun f => Str.contains "strings" f = true) files))
              (walk_in w (Path.join d ["res"; "values"]))).

(** The command line that [analyze] hands to [os.system]. *)
Definition apktool_command (apk : string) (skip_resources : bool) (d : string) : string :=
  "java -jar " +:+ apktool_jar +:+ " d -f" +:+ (if skip_resources then "r" else "")
  +:+ "o " +:+ d +:+ " " +:+ apk.

End ContextNames.

(** ** Well-formed file trees

    In a directory of a real file system every entry has a plain name and
    no two entries share one. *)

Definition plain_nameb (x : string) : bool :=
  negb (Str.eqb x "") && negb (Str.eqb x ".") && negb (Str.eqb x "..")
  && negb (Str.mem Path.sep x).

Fixpoint distinct (l : list string) : bool :=
  match l with
  | [] => true
  | x :: l' => negb (existsb (Str.eqb x) l') && distinct l'
  end.

Fixpoint tree_ok (n : FS.node) : bool :=
  match n with
  | FS.File _ => true
  | FS.Dir es =>
      forallb plain_nameb (map fst es) && distinct (map fst es) &&
      (fix all (l : list (string * FS.node)) : bool :=
         match l with
         | [] => true
         | (_, x) :: l' => tree_ok x && all l'
         end) es
  end.

(** ** Further concrete cases *)

Module Cases.


(** A new context on the cache directory that the first run of the demo
    has filled. *)
Definition unpacked : Proc :=
  {| self := set_wd (Some Demo.cache_dir) Context_init; world := Demo.after_first_run |}.

End Cases.

(** ** The rest of config.py: the command [e] *)

Section ConfigManip.

Variable value : Type.
Variable of_str : string -> value.
(** [str(v)], as [str.format] renders a value *)
Variable str_of : value -> string.
Variable helper : Type.
Variable get_config : string -> helper -> result value.
Variable set_config : string -> value -> helper -> result unit * helper.

(** [ui.info(line)] *)
Definition ui_say (line : string) : M (ConfigCommand value helper) unit :=
  fun c => (Ok tt,
            {| _helper := _helper c; _stash := _stash c; ui_lines := ui_lines c ++ [line] |}).

Definition _manip (args : list string) : M (ConfigCommand value helper) unit :=
  match args with
  | [] => raise (IndexError "pop from an empty deque")
  | _ :: args =>
      match args with
      | [] => ui_fatal "need a config key"
      | kv :: args =>
          (match args with
           | [] => ret tt
           | _ :: _ => ui_fatal "got an unexpected token (try e key=value to set)"
           end);;
          if negb (Str.mem "=" kv) then
            try_except
              (v ← helper_get value helper get_config kv;
               ui_say (kv +:+ ": " +:+ str_of v))
              is_InvalidConfigKeyError
              (ui_fatal ("unknown key: " +:+ kv))
          else
            match Str.split "=" kv with
            | [key; val] =>
                try_except
                  ((if Str.eqb val "" then ui_fatal "need a value" else ret tt);;
                   helper_set value helper set_config key (of_str val))
                  is_InvalidConfigKeyError
                  (ui_fatal ("unknown key: " +:+ key))
            | [] | [_] => raise (ValueError "not enough values to unpack (expected 2, got 1)")
            | _ => raise (ValueError "too many values to unpack (expected 2)")
            end
      end
  end.

End ConfigManip.

Arguments ui_say {value helper} line.
Arguments _manip {value} of_str str_of {helper} get_config set_config args.

Module DemoManip.

(** The command [e] on the bag of [DemoConfig]. *)
Definition manip : list string -> M (ConfigCommand string (gmap string string)) unit :=
  _manip id id DemoConfig.get DemoConfig.set.

End DemoManip.

(** * Checks of the model on concrete inputs *)

Example sha256_empty :
  SHA256.hexdigest [] = "e3b0c44298fc1c149afbf4c8996fb92427ae41e4649b934ca495991b7852b855".
Proof. vm_compute. reflexivity. Qed.

Example sha256_abc :
  SHA256.hexdigest (String.list_byte_of_string "abc")
  = "ba7816bf8f01cfea414140de5dae2223b00361a396177a9cb410ff61f20015ad".
Proof. vm_compute. reflexivity. Qed.

Example sha256_two_blocks :
  SHA256.hexdigest
    (String.list_byte_of_string "abcdbcdecdefdefgefghfghighijhijkijkljklmklmnlmnomnopnopq")
  = "248d6a61d20638b8e5c026930c3e6039a33ce45964ff2167f6ecedd419db06c1".
Proof. vm_compute. reflexivity. Qed.

Example join_abs : Path.join "/home/u" [".trueseeing2"; "ab"; "/cd"; "ef"] = "/cd/ef".
Proof. reflexivity. Qed.

Example split_trailing : Path.split "/w/smali*/" = ("/w/smali*", "").
Proof. reflexivity. Qed.

Example split_root : Path.split "/smali" = ("/", "smali").
Proof. reflexivity. Qed.

Example dirname_top : Path.dirname "Main.smali" = "".
Proof. reflexivity. Qed.

Example dirname_nested : Path.dirname "com/example/Main.smali" = "com/example".
Proof. reflexivity. Qed.

Example normpath_dots : Path.normpath "/a/./b//../c/" = "/a/c".
Proof. reflexivity. Qed.

Example relpath_down : Path.relpath "/" "/w/smali/a/B.smali" "/w" = Ok "smali/a/B.smali".
Proof. reflexivity. Qed.

Example relpath_up : Path.relpath "/" "/w/x" "/w/y/z" = Ok "../../x".
Proof. reflexivity. Qed.

(** * Properties *)

(** ** Strings *)

#[local] Arguments String.append !_ _ : simpl nomatch.


Lemma append_assoc (a b c : string) : (a +:+ b) +:+ c = a +:+ b +:+ c.
Proof. induction a; simpl; congruence. Qed.

Lemma length_append (a b : string) :
  String.length (a +:+ b) = (String.length a + String.length b)%nat.
Proof. induction a; simpl; congruence. Qed.

Lemma append_eq_nil (a b : string) : a +:+ b = "" -> a = "" /\ b = "".
Proof. destruct a; simpl; [auto | discriminate]. Qed.

Lemma append_inj_l (a b c : string) : a +:+ b = a +:+ c -> b = c.
Proof. induction a; simpl; intros H; [assumption | injection H; auto]. Qed.

Lemma str_eqb_eq (a b : string) : Str.eqb a b = true <-> a = b.
Proof. apply String.eqb_eq. Qed.

Lemma str_eqb_neq (a b : string) : Str.eqb a b = false <-> a <> b.
Proof. apply String.eqb_neq. Qed.

Lemma endswith_cons (p : string) (c : ascii) (s : string) :
  Str.endswith p (String c s) = String.eqb (String c s) p || Str.endswith p s.
Proof. reflexivity. Qed.

Lemma endswith_app (p a b : string) :
  b <> "" -> (String.length p <= String.length b)%nat ->
  Str.endswith p (a +:+ b) = Str.endswith p b.
Proof.
  intros Hb Hlen. induction a as [|c a IH]; [reflexivity|].
  change (String c a +:+ b) with (String c (a +:+ b)).
  rewrite endswith_cons, IH.
  destruct (String.eqb_spec (String c (a +:+ b)) p) as [E|E]; [|reflexivity].
  exfalso.
  assert (L : String.length (String c (a +:+ b)) = String.length p) by (rewrite E; reflexivity).
  simpl in L. rewrite length_append in L. lia.
Qed.

Lemma startswith_cons (a b : ascii) (p s : string) :
  Str.startswith (String a p) (String b s)
  = if ascii_dec a b then Str.startswith p s else false.
Proof. reflexivity. Qed.

Lemma startswith_app (p a b : string) :
  Str.startswith p a = true -> Str.startswith p (a +:+ b) = true.
Proof.
  unfold Str.startswith. revert a. induction p as [|c p IH]; intros a H.
  - destruct (a +:+ b); reflexivity.
  - destruct a as [|d a]; [discriminate|].
    change (String d a +:+ b) with (String d (a +:+ b)).
    change (String.prefix (String c p) (String d a))
      with (if ascii_dec c d then String.prefix p a else false) in H.
    change (String.prefix (String c p) (String d (a +:+ b)))
      with (if ascii_dec c d then String.prefix p (a +:+ b) else false).
    destruct (ascii_dec c d); [auto | discriminate].
Qed.

(** *** Splitting at a separator *)

Lemma split_cons_sep (sep : ascii) (s : string) :
  Str.split sep (String sep s) = "" :: Str.split sep s.
Proof. simpl. rewrite Ascii.eqb_refl. reflexivity. Qed.

Lemma split_not_nil (sep : ascii) (s : string) : Str.split sep s <> [].
Proof.
  destruct s as [|c s]; simpl; [discriminate|].
  destruct (Ascii.eqb c sep); [discriminate|].
  destruct (Str.split sep s); discriminate.
Qed.

Lemma split_cons_other (sep c : ascii) (s : string) :
  c <> sep ->
  exists w ws, Str.split sep s = w :: ws /\ Str.split sep (String c s) = String c w :: ws.
Proof.
  intros H. simpl. apply Ascii.eqb_neq in H. rewrite H.
  destruct (Str.split sep s) as [|w ws] eqn:E; [exfalso; exact (split_not_nil _ _ E)|].
  eauto.
Qed.

Lemma split_app (sep : ascii) (a b : string) :
  Str.split sep (a +:+ String sep b) = Str.split sep a ++ Str.split sep b.
Proof.
  induction a as [|c a IH].
  - simpl String.append. rewrite split_cons_sep. reflexivity.
  - change (String c a +:+ String sep b) with (String c (a +:+ String sep b)).
    destruct (Ascii.eqb_spec c sep) as [->|Hc].
    + rewrite !split_cons_sep, IH. reflexivity.
    + destruct (split_cons_other sep c (a +:+ String sep b) Hc) as (w & ws & E1 & ->).
      destruct (split_cons_other sep c a Hc) as (w' & ws' & E2 & ->).
      rewrite IH, E2 in E1. simpl in E1. injection E1 as <- <-. reflexivity.
Qed.

Lemma mem_cons (c d : ascii) (s : string) : Str.mem c (String d s) = Ascii.eqb c d || Str.mem c s.
Proof. reflexivity. Qed.

Lemma mem_app (c : ascii) (a b : string) : Str.mem c (a +:+ b) = Str.mem c a || Str.mem c b.
Proof.
  induction a as [|d a IH]; [reflexivity|].
  change (String d a +:+ b) with (String d (a +:+ b)).
  rewrite !mem_cons, IH, orb_assoc. reflexivity.
Qed.

Lemma split_without (sep : ascii) (s : string) :
  Str.mem sep s = false -> Str.split sep s = [s].
Proof.
  induction s as [|c s IH]; [reflexivity|].
  rewrite mem_cons. intros H. apply orb_false_elim in H as [Hc Hs].
  assert (c <> sep) by (intros ->; rewrite Ascii.eqb_refl in Hc; discriminate).
  destruct (split_cons_other sep c s) as (w & ws & E & ->); [assumption|].
  rewrite IH in E by assumption. injection E as <- <-. reflexivity.
Qed.

(** ** The fingerprint and the cache directory *)

Lemma name_to_info_foldl (z : zip_archive) (m : gmap string (list byte)) (name : string) :
  (forall e, e ∈ z -> e.1 <> name) ->
  foldl (fun m e => <[e.1 := e.2]> m) m z !! name = m !! name.
Proof.
  revert m. induction z as [|e z IH]; intros m H; [reflexivity|].
  simpl. rewrite IH.
  - apply lookup_insert_ne. apply H. left.
  - intros e' He'. apply H. right. assumption.
Qed.

Lemma name_to_info_absent (z : zip_archive) (name : string) :
  (forall e, e ∈ z -> e.1 <> name) -> name_to_info z !! name = None.
Proof. intros H. unfold name_to_info. rewrite name_to_info_foldl by assumption. apply lookup_empty. Qed.

Lemma hexdigit_not_sep (n : Z) : SHA256.hexdigit n <> "/"%char.
Proof.
  unfold SHA256.hexdigit.
  assert (H : Forall (fun c => c <> "/"%char) SHA256.hex_digits)
    by (repeat constructor; discriminate).
  generalize (Z.to_nat n). induction H as [|c l Hc Hl IH]; intros [|k]; simpl;
    try discriminate; auto.
Qed.

Lemma nibble_not_sep (i x : Z) : SHA256.nibble i x <> "/"%char.
Proof. apply hexdigit_not_sep. Qed.

(** A digest starts with five characters none of which is a slash. *)
Lemma hexdigest_shape (data : list byte) :
  exists c1 c2 c3 c4 c5 rest,
    SHA256.hexdigest data = String c1 (String c2 (String c3 (String c4 (String c5 rest))))
    /\ c1 <> "/"%char /\ c2 <> "/"%char /\ c3 <> "/"%char /\ c4 <> "/"%char /\ c5 <> "/"%char.
Proof.
  unfold SHA256.hexdigest, SHA256.hex8.
  do 6 eexists. split; [reflexivity|].
  repeat split; apply nibble_not_sep.
Qed.

Lemma hexdigest_length (data : list byte) : String.length (SHA256.hexdigest data) = 64.
Proof. reflexivity. Qed.

Lemma join2_plain (path b : string) :
  path <> "" -> Str.endswith "/" path = false -> Str.startswith "/" b = false ->
  Path.join2 path b = path +:+ "/" +:+ b.
Proof.
  intros Hp He Hb. unfold Path.join2. rewrite Hb, He.
  apply str_eqb_neq in Hp. rewrite Hp. reflexivity.
Qed.

Lemma startswith_sep_cons (c : ascii) (s : string) :
  c <> "/"%char -> Str.startswith "/" (String c s) = false.
Proof.
  intros H. rewrite startswith_cons.
  destruct (ascii_dec "/" c); [congruence | reflexivity].
Qed.

Lemma endswith_sep_two (c d : ascii) :
  d <> "/"%char -> Str.endswith "/" (String c (String d "")) = false.
Proof.
  intros H. simpl. destruct (Ascii.eqb_spec d "/"); [contradiction|].
  destruct (Ascii.eqb c "/"); reflexivity.
Qed.

Lemma cache_root_plain (home : string) :
  cache_root home <> "" /\ Str.endswith "/" (cache_root home) = false.
Proof.
  unfold cache_root, Path.join, Path.join2. simpl fold_left.
  change (Str.startswith "/" ".trueseeing2") with false. cbv iota.
  destruct (_ || _).
  - split.
    + intros E. apply append_eq_nil in E. destruct E; discriminate.
    + rewrite endswith_app; [reflexivity | discriminate | simpl; lia].
  - split.
    + intros E. apply append_eq_nil in E. destruct E; discriminate.
    + rewrite endswith_app; [reflexivity | discriminate | simpl; lia].
Qed.

Lemma workdir_layout (home : string) (data : list byte) :
  let h := SHA256.hexdigest data in
  Path.join home [".trueseeing2"; Str.take 2 h; Str.take 2 (Str.drop 2 h); Str.drop 4 h]
  = cache_root home +:+ "/" +:+ Str.take 2 h +:+ "/" +:+ Str.take 2 (Str.drop 2 h)
    +:+ "/" +:+ Str.drop 4 h.
Proof.
  intros h. subst h.
  destruct (hexdigest_shape data) as (c1 & c2 & c3 & c4 & c5 & rest & -> & H1 & H2 & H3 & H4 & H5).
  destruct (cache_root_plain home) as [Hne Hend].
  unfold Path.join. simpl fold_left. fold (cache_root home). simpl Str.take. simpl Str.drop.
  change (Path.join2 home ".trueseeing2") with (cache_root home).
  rewrite (join2_plain (cache_root home)); auto using startswith_sep_cons.
  rewrite (join2_plain (cache_root home +:+ _)).
  - rewrite join2_plain.
    + rewrite !append_assoc. reflexivity.
    + intros E. apply append_eq_nil in E. destruct E as [E _]. apply append_eq_nil in E.
      destruct E; contradiction.
    + rewrite endswith_app; [ apply endswith_sep_two; assumption | discriminate | simpl; lia].
    + apply startswith_sep_cons. assumption.
  - intros E. apply append_eq_nil in E. destruct E; contradiction.
  - rewrite endswith_app; [|discriminate | simpl; lia].
    simpl. destruct (Ascii.eqb_spec c2 "/"); [contradiction|].
    destruct (Ascii.eqb c1 "/"); reflexivity.
  - apply startswith_sep_cons. assumption.
Qed.

Section FingerprintProperties.

Context {ext : External}.

Lemma fingerprint_of_read (p : Proc) (apk : string) (z : zip_archive) (data : list byte) :
  archives (world p) !! apk = Some z ->
  name_to_info z !! manifest_name = Some data ->
  fingerprint_of apk p = (Ok (SHA256.hexdigest data), p).
Proof.
  intros Ha Hm. unfold fingerprint_of, mbind, M_bind, bind, zip_read.
  rewrite Ha. fold manifest_name. rewrite Hm. reflexivity.
Qed.

Lemma workdir_of_read (p : Proc) (apk : string) (z : zip_archive) (data : list byte)
    (home : string) :
  archives (world p) !! apk = Some z ->
  name_to_info z !! manifest_name = Some data ->
  environ (world p) !! "HOME" = Some home ->
  let h := SHA256.hexdigest data in
  workdir_of apk p
  = (Ok (cache_root home +:+ "/" +:+ Str.take 2 h +:+ "/" +:+ Str.take 2 (Str.drop 2 h)
         +:+ "/" +:+ Str.drop 4 h), p).
Proof.
  intros Ha Hm Hh h. unfold workdir_of, mbind, M_bind, bind.
  rewrite (fingerprint_of_read p apk z data Ha Hm).
  unfold os_environ. rewrite Hh. unfold mret, M_ret, ret.
  rewrite workdir_layout. reflexivity.
Qed.

(** C5: two archives whose manifest-integrity entries hold the same bytes
    have the same fingerprint, the SHA-256 of those bytes whatever else
    the archives hold, and the same cache directory
    [root/<hash[0:2]>/<hash[2:4]>/<hash[4:]>] under the cache root of
    [HOME]. *)
Theorem fingerprint_of_same_manifest (p1 p2 : Proc) (apk1 apk2 : string)
    (z1 z2 : zip_archive) (data : list byte) (home : string) :
  archives (world p1) !! apk1 = Some z1 ->
  archives (world p2) !! apk2 = Some z2 ->
  name_to_info z1 !! manifest_name = Some data ->
  name_to_info z2 !! manifest_name = Some data ->
  environ (world p1) !! "HOME" = Some home ->
  environ (world p2) !! "HOME" = Some home ->
  let h := SHA256.hexdigest data in
  let dir := cache_root home +:+ "/" +:+ Str.take 2 h +:+ "/" +:+ Str.take 2 (Str.drop 2 h)
             +:+ "/" +:+ Str.drop 4 h in
  fingerprint_of apk1 p1 = (Ok h, p1) /\ fingerprint_of apk2 p2 = (Ok h, p2) /\
  workdir_of apk1 p1 = (Ok dir, p1) /\ workdir_of apk2 p2 = (Ok dir, p2).
Proof.
  intros A1 A2 M1 M2 E1 E2 h dir. repeat split.
  - exact (fingerprint_of_read p1 apk1 z1 data A1 M1).
  - exact (fingerprint_of_read p2 apk2 z2 data A2 M2).
  - exact (workdir_of_read p1 apk1 z1 data home A1 M1 E1).
  - exact (workdir_of_read p2 apk2 z2 data home A2 M2 E2).
Qed.

(** C8: on a zip archive without an entry named exactly
    [META-INF/MANIFEST.MF], [fingerprint_of] raises a [KeyError]; so does
    [workdir_of], and [analyze] on a context not yet analysed raises it
    too, leaving the working directory unset and the world untouched. *)
Theorem fingerprint_of_without_manifest (p : Proc) (apk : string) (z : zip_archive)
    (skip_resources : bool) :
  archives (world p) !! apk = Some z ->
  Forall (fun e => e.1 <> manifest_name) z ->
  let err := KeyError "There is no item named 'META-INF/MANIFEST.MF' in the archive" in
  fingerprint_of apk p = (Raise err, p) /\
  workdir_of apk p = (Raise err, p) /\
  (wd (self p) = None ->
   analyze apk skip_resources p = (Raise err, with_self (set_apk (Some apk)) p)).
Proof.
  intros Ha Hz err.
  assert (Hn : name_to_info z !! manifest_name = None).
  { apply name_to_info_absent. intros e He. rewrite Forall_forall in Hz. auto. }
  assert (Hf : forall q, archives (world q) = archives (world p) ->
                         fingerprint_of apk q = (Raise err, q)).
  { intros q Hq. unfold fingerprint_of, mbind, M_bind, bind, zip_read.
    rewrite Hq, Ha. fold manifest_name. rewrite Hn. reflexivity. }
  repeat split.
  - apply Hf. reflexivity.
  - unfold workdir_of, mbind, M_bind, bind. rewrite Hf; reflexivity.
  - intros Hwd. unfold analyze, mbind, M_bind, bind, gets. rewrite Hwd.
    unfold modify, workdir_of, mbind, M_bind, bind. rewrite Hf; reflexivity.
Qed.

End FingerprintProperties.

Lemma fingerprint_of_same_manifest_witness :
  let h := SHA256.hexdigest Demo.manifest in
  let dir := cache_root "/home/user" +:+ "/" +:+ Str.take 2 h +:+ "/"
             +:+ Str.take 2 (Str.drop 2 h) +:+ "/" +:+ Str.drop 4 h in
  fingerprint_of "/tmp/app.apk" Demo.fresh = (Ok h, Demo.fresh) /\
  fingerprint_of "/tmp/repacked.apk" Demo.fresh = (Ok h, Demo.fresh) /\
  workdir_of "/tmp/app.apk" Demo.fresh = (Ok dir, Demo.fresh) /\
  workdir_of "/tmp/repacked.apk" Demo.fresh = (Ok dir, Demo.fresh).
Proof.
  apply (fingerprint_of_same_manifest Demo.fresh Demo.fresh "/tmp/app.apk" "/tmp/repacked.apk"
           Demo.app_apk Demo.repacked_apk Demo.manifest "/home/user");
    vm_compute; reflexivity.
Defined.

Lemma fingerprint_of_without_manifest_witness :
  let err := KeyError "There is no item named 'META-INF/MANIFEST.MF' in the archive" in
  fingerprint_of "/tmp/unsigned.apk" Demo.fresh = (Raise err, Demo.fresh) /\
  workdir_of "/tmp/unsigned.apk" Demo.fresh = (Raise err, Demo.fresh) /\
  (wd (self Demo.fresh) = None ->
   analyze "/tmp/unsigned.apk" false Demo.fresh
   = (Raise err, with_self (set_apk (Some "/tmp/unsigned.apk")) Demo.fresh)).
Proof.
  apply (fingerprint_of_without_manifest Demo.fresh "/tmp/unsigned.apk" Demo.unsigned_apk false).
  - vm_compute. reflexivity.
  - repeat constructor; vm_compute; discriminate.
Defined.

(** ** Relations that every step of a computation preserves *)

Section Preserving.

Context {ext : External}.
Context (R : relation Proc) `{!PreOrder R}.

Definition preserving {A} (m : M Proc A) : Prop := forall p, R p (m p).2.

Lemma preserving_ret {A} (a : A) : preserving (mret a).
Proof. intros p. reflexivity. Qed.

Lemma preserving_raise {A} e : preserving (raise (A := A) e).
Proof. intros p. reflexivity. Qed.

Lemma preserving_lift {A} (r : result A) : preserving (lift r).
Proof. intros p. reflexivity. Qed.

Lemma preserving_gets {A} (f : Proc -> A) : preserving (gets f).
Proof. intros p. reflexivity. Qed.

Lemma preserving_bind {A B} (m : M Proc A) (k : A -> M Proc B) :
  preserving m -> (forall a, preserving (k a)) -> preserving (m ≫= k).
Proof.
  intros Hm Hk p. unfold mbind, M_bind, bind. specialize (Hm p).
  destruct (m p) as [[a|e] p']; simpl in *; [|assumption].
  etransitivity; [eassumption | apply Hk].
Qed.

Lemma preserving_try_except {A} (body handler : M Proc A) handles :
  preserving body -> preserving handler -> preserving (try_except body handles handler).
Proof.
  intros Hb Hh p. unfold try_except. specialize (Hb p).
  destruct (body p) as [[a|e] p']; simpl in *; [assumption|].
  destruct (handles e); simpl; [|assumption].
  etransitivity; [eassumption | apply Hh].
Qed.

Lemma preserving_try_except_else {A B} (body : M Proc A) handles (handler : M Proc B) orelse :
  preserving body -> preserving handler -> (forall a, preserving (orelse a)) ->
  preserving (try_except_else body handles handler orelse).
Proof.
  intros Hb Hh Ho p. unfold try_except_else. specialize (Hb p).
  destruct (body p) as [[a|e] p']; simpl in *.
  - etransitivity; [eassumption | apply Ho].
  - destruct (handles e); simpl; [|assumption].
    etransitivity; [eassumption | apply Hh].
Qed.

Lemma preserving_for_each {A} (l : list A) (body : A -> M Proc unit) :
  (forall x, preserving (body x)) -> preserving (for_each l body).
Proof.
  intros Hb. induction l as [|x l IH]; simpl.
  - apply (preserving_ret tt).
  - apply (preserving_bind (body x) (fun _ => for_each l body)); auto.
Qed.

Lemma preserving_mapM {A B} (f : A -> M Proc B) (l : list A) :
  (forall x, preserving (f x)) -> preserving (mapM f l).
Proof.
  intros Hf. induction l as [|x l IH]; simpl.
  - apply preserving_ret.
  - apply preserving_bind; [apply Hf|]. intros y.
    apply preserving_bind; [apply IH|]. intros ys. apply preserving_ret.
Qed.

End Preserving.

(** ** What the methods leave alone

    [frame K p p']: from [p] to [p'] the context changed at most in the
    entries of [state] whose key is in [K], no entry was removed, and the
    environment, the current directory and the archives are the same. *)

Section Frame.

Context {ext : External}.

Record frame (K : string -> Prop) (p p' : Proc) : Prop := {
  frame_notes : notes (self p') = notes (self p);
  frame_apk : apk (self p') = apk (self p);
  frame_wd : wd (self p') = wd (self p);
  frame_state : forall k, ~ K k -> state (self p') !! k = state (self p) !! k;
  frame_bound : forall k, is_Some (state (self p) !! k) -> is_Some (state (self p') !! k);
  frame_environ : environ (world p') = environ (world p);
  frame_cwd : cwd (world p') = cwd (world p);
  frame_archives : archives (world p') = archives (world p);
}.

Lemma frame_refl K p : frame K p p.
Proof. split; auto. Qed.

Lemma frame_trans K p1 p2 p3 : frame K p1 p2 -> frame K p2 p3 -> frame K p1 p3.
Proof.
  intros [] []. split; try congruence; intros k Hk.
  - rewrite frame_state1, frame_state0; auto.
  - auto.
Qed.

#[global] Instance frame_preorder K : PreOrder (frame K).
Proof. split; [intros p; apply frame_refl | intros p1 p2 p3; apply frame_trans]. Qed.

Definition framed {A} (K : string -> Prop) (m : M Proc A) : Prop := preserving (frame K) m.

Lemma framed_ret {A} K (a : A) : framed K (mret a).
Proof. apply preserving_ret, _. Qed.

Lemma framed_raise {A} K e : framed K (raise (A := A) e).
Proof. apply preserving_raise, _. Qed.

Lemma framed_lift {A} K (r : result A) : framed K (lift r).
Proof. apply preserving_lift, _. Qed.

Lemma framed_gets {A} K (f : Proc -> A) : framed K (gets f).
Proof. apply preserving_gets, _. Qed.

Lemma framed_bind {A B} K (m : M Proc A) (k : A -> M Proc B) :
  framed K m -> (forall a, framed K (k a)) -> framed K (m ≫= k).
Proof. apply preserving_bind, _. Qed.

Lemma framed_try_except {A} K (body handler : M Proc A) handles :
  framed K body -> framed K handler -> framed K (try_except body handles handler).
Proof. apply preserving_try_except, _. Qed.

Lemma framed_try_except_else {A B} K (body : M Proc A) handles (handler : M Proc B) orelse :
  framed K body -> framed K handler -> (forall a, framed K (orelse a)) ->
  framed K (try_except_else body handles handler orelse).
Proof. apply preserving_try_except_else, _. Qed.

Lemma framed_for_each {A} K (l : list A) (body : A -> M Proc unit) :
  (forall x, framed K (body x)) -> framed K (for_each l body).
Proof. apply preserving_for_each, _. Qed.

Lemma framed_mapM {A B} K (f : A -> M Proc B) (l : list A) :
  (forall x, framed K (f x)) -> framed K (mapM f l).
Proof. apply preserving_mapM, _. Qed.

(** A change of the file tree, the stores, the console or the trace. *)
Lemma framed_modify_world K (f : World -> World) :
  (forall w, environ (f w) = environ w /\ cwd (f w) = cwd w /\ archives (f w) = archives w) ->
  framed K (modify (with_world f)).
Proof.
  intros Hf p. destruct (Hf (world p)) as (? & ? & ?). split; simpl; auto.
Qed.

Lemma framed_emit K e : framed K (emit e).
Proof. apply framed_modify_world. intros w. auto. Qed.

Lemma framed_ui_info K line : framed K (ui_info line).
Proof. apply framed_modify_world. intros w. auto. Qed.

Lemma framed_state_get K key : framed K (state_get key).
Proof. intros p. unfold state_get. destruct (_ !! _); apply frame_refl. Qed.

Lemma framed_state_set (K : string -> Prop) key v : K key -> framed K (state_set key v).
Proof.
  intros HK p. split; simpl; auto.
  - intros k Hk. apply lookup_insert_ne. congruence.
  - intros k Hk. destruct (decide (key = k)) as [->|Hne].
    + rewrite lookup_insert_eq. eauto.
    + rewrite lookup_insert_ne; assumption.
Qed.

Lemma framed_state_extend (K : string -> Prop) key items :
  K key -> framed K (state_extend key items).
Proof.
  intros HK. unfold state_extend. apply framed_bind; [apply framed_state_get|].
  intros [l|s]; [apply framed_state_set; assumption | apply framed_raise].
Qed.

Lemma framed_os_environ K key : framed K (os_environ key).
Proof. intros p. unfold os_environ. destruct (_ !! _); apply frame_refl. Qed.

Lemma framed_zip_read K apk name : framed K (zip_read apk name).
Proof.
  intros p. unfold zip_read. destruct (_ !! _); [|apply frame_refl].
  destruct (_ !! _); apply frame_refl.
Qed.

Lemma framed_os_makedirs K path : framed K (os_makedirs path).
Proof.
  intros p. unfold os_makedirs. destruct (FS.makedirs _ _); [|apply frame_refl].
  split; simpl; auto.
Qed.

Lemma framed_os_system_call K cmd : framed K (os_system_call cmd).
Proof.
  unfold os_system_call. apply framed_bind; [apply framed_emit|]. intros _.
  apply framed_modify_world. intros w. auto.
Qed.

Lemma framed_os_walk K top : framed K (os_walk top).
Proof.
  unfold os_walk. apply framed_bind; [apply framed_emit|]. intros _.
  apply framed_bind; [apply framed_gets|]. intros w. apply framed_ret.
Qed.

Lemma framed_glob_glob K pattern : framed K (glob_glob pattern).
Proof.
  unfold glob_glob. apply framed_bind; [apply framed_emit|]. intros _.
  apply framed_bind; [apply framed_gets|]. intros w. apply framed_ret.
Qed.

Lemma framed_read_file K fn : framed K (read_file fn).
Proof.
  unfold read_file. apply framed_bind; [apply framed_emit|]. intros _.
  apply framed_bind; [apply framed_gets|]. intros w.
  destruct (resolve_path w fn) as [[data|es]|]; [apply framed_ret | apply framed_raise ..].
Qed.

Lemma framed_need_wd K : framed K need_wd.
Proof.
  unfold need_wd. apply framed_bind; [apply framed_gets|]. intros c.
  destruct (wd c); [apply framed_ret | apply framed_raise].
Qed.

Lemma framed_smali_analyze_call K path text : framed K (smali_analyze_call path text).
Proof.
  unfold smali_analyze_call. apply framed_bind; [apply framed_emit|]. intros _.
  apply framed_bind; [apply framed_gets|]. intros w.
  destruct (smali_analyze _ _) as [content err].
  apply framed_bind; [apply framed_modify_world; intros ?; auto|]. intros _.
  destruct err; [apply framed_raise | apply framed_ret].
Qed.

Lemma framed_fingerprint_of K apk : framed K (fingerprint_of apk).
Proof.
  unfold fingerprint_of. apply framed_bind; [apply framed_zip_read|]. intros data.
  apply framed_ret.
Qed.

Lemma framed_workdir_of K apk : framed K (workdir_of apk).
Proof.
  unfold workdir_of. apply framed_bind; [apply framed_fingerprint_of|]. intros h.
  apply framed_bind; [apply framed_os_environ|]. intros home. apply framed_ret.
Qed.

Lemma framed_store_rec (K : string -> Prop) depth : K "ts2.store" -> framed K (store_rec depth).
Proof.
  intros HK. induction depth as [|depth IH]; simpl; [apply framed_raise|].
  apply framed_bind; [apply framed_gets|]. intros c.
  destruct (wd c); [|apply framed_raise].
  apply framed_try_except; [apply framed_state_get|].
  apply framed_bind; [apply framed_state_set; assumption|]. intros _. apply IH.
Qed.

Lemma framed_disassembled_classes_rec (K : string -> Prop) depth :
  K "ts2.context.disassembled_classes" -> framed K (disassembled_classes_rec depth).
Proof.
  intros HK. induction depth as [|depth IH]; simpl; [apply framed_raise|].
  apply framed_try_except; [apply framed_state_get|].
  apply framed_bind; [apply framed_state_set; assumption|]. intros _.
  apply framed_bind; [apply framed_need_wd|]. intros d.
  apply framed_bind; [apply framed_glob_glob|]. intros roots.
  apply framed_bind; [apply framed_mapM; intros; apply framed_os_walk|]. intros walks.
  apply framed_bind; [|intros _; apply IH].
  apply framed_for_each. intros [[root dirs] files].
  apply framed_state_extend. assumption.
Qed.

Lemma framed_disassembled_resources_rec (K : string -> Prop) depth :
  K "ts2.context.disassembled_resources" -> framed K (disassembled_resources_rec depth).
Proof.
  intros HK. induction depth as [|depth IH]; simpl; [apply framed_raise|].
  apply framed_try_except; [apply framed_state_get|].
  apply framed_bind; [apply framed_state_set; assumption|]. intros _.
  apply framed_bind; [apply framed_need_wd|]. intros d.
  apply framed_bind; [apply framed_os_walk|]. intros walk.
  apply framed_bind; [|intros _; apply IH].
  apply framed_for_each. intros [[root dirs] files].
  apply framed_state_extend. assumption.
Qed.

Lemma framed_string_resource_files_rec (K : string -> Prop) depth :
  K "ts2.context.string_resource_files" -> framed K (string_resource_files_rec depth).
Proof.
  intros HK. induction depth as [|depth IH]; simpl; [apply framed_raise|].
  apply framed_try_except; [apply framed_state_get|].
  apply framed_bind; [apply framed_state_set; assumption|]. intros _.
  apply framed_bind; [apply framed_need_wd|]. intros d.
  apply framed_bind; [apply framed_os_walk|]. intros walk.
  apply framed_bind; [|intros _; apply IH].
  apply framed_for_each. intros [[root dirs] files].
  apply framed_state_extend. assumption.
Qed.

End Frame.

(** ** What the enumerations leave on the console: nothing *)

Section Quiet.

Context {ext : External}.

Definition same_console (p p' : Proc) : Prop :=
  console (world p') = console (world p) /\ wd (self p') = wd (self p) /\
  cwd (world p') = cwd (world p).

#[global] Instance same_console_preorder : PreOrder same_console.
Proof.
  split.
  - intros p. repeat split.
  - intros p1 p2 p3 (? & ? & ?) (? & ? & ?). repeat split; congruence.
Qed.

Definition quiet {A} (m : M Proc A) : Prop := preserving same_console m.

Lemma quiet_emit e : quiet (emit e).
Proof. intros p. repeat split. Qed.

Lemma quiet_state_get key : quiet (state_get key).
Proof. intros p. unfold state_get. destruct (_ !! _); repeat split. Qed.

Lemma quiet_state_set key v : quiet (state_set key v).
Proof. intros p. repeat split. Qed.

Lemma quiet_state_extend key items : quiet (state_extend key items).
Proof.
  apply preserving_bind; [apply _ | apply quiet_state_get |].
  intros [l|s]; [apply quiet_state_set | apply preserving_raise, _].
Qed.

Lemma quiet_need_wd : quiet need_wd.
Proof.
  apply preserving_bind; [apply _ | apply preserving_gets, _ |]. intros c.
  destruct (wd c); [apply preserving_ret, _ | apply preserving_raise, _].
Qed.

Lemma quiet_os_walk top : quiet (os_walk top).
Proof. intros p. repeat split. Qed.

Lemma quiet_glob_glob pattern : quiet (glob_glob pattern).
Proof. intros p. repeat split. Qed.

Lemma quiet_disassembled_classes_rec depth : quiet (disassembled_classes_rec depth).
Proof.
  induction depth as [|depth IH]; simpl; [apply preserving_raise, _|].
  apply preserving_try_except; [apply _ | apply quiet_state_get |].
  apply preserving_bind; [apply _ | apply quiet_state_set |]. intros _.
  apply preserving_bind; [apply _ | apply quiet_need_wd |]. intros d.
  apply preserving_bind; [apply _ | apply quiet_glob_glob |]. intros roots.
  apply preserving_bind;
    [apply _ | apply preserving_mapM; [apply _ | intros; apply quiet_os_walk] |].
  intros walks.
  apply preserving_bind; [apply _ | | intros _; apply IH].
  apply preserving_for_each; [apply _|]. intros [[root dirs] files].
  apply quiet_state_extend.
Qed.

End Quiet.

(** ** Ingestion and the memoised enumerations *)

Section AnalyzeProperties.

Context {ext : External}.

Lemma bind_ok_inv {A B} (m : M Proc A) (k : A -> M Proc B) p b p1 :
  (m ≫= k) p = (Ok b, p1) -> exists a p', m p = (Ok a, p') /\ k a p' = (Ok b, p1).
Proof.
  unfold mbind, M_bind, bind. destruct (m p) as [[a|e] p']; [eauto | discriminate].
Qed.

Lemma bind_ok {A B} (m : M Proc A) (k : A -> M Proc B) p a p' :
  m p = (Ok a, p') -> (m ≫= k) p = k a p'.
Proof. intros H. unfold mbind, M_bind, bind. rewrite H. reflexivity. Qed.

Lemma bind_raise {A B} (m : M Proc A) (k : A -> M Proc B) p e p' :
  m p = (Raise e, p') -> (m ≫= k) p = (Raise e, p').
Proof. intros H. unfold mbind, M_bind, bind. rewrite H. reflexivity. Qed.

Lemma store_rec_hit depth p d v :
  wd (self p) = Some d -> state (self p) !! store_key = Some v ->
  store_rec (S depth) p = (Ok v, p).
Proof.
  intros Hwd Hv. simpl. unfold mbind, M_bind, bind, gets. rewrite Hwd.
  unfold try_except, state_get. fold store_key. rewrite Hv. reflexivity.
Qed.

Lemma store_rec_miss depth p d :
  wd (self p) = Some d -> state (self p) !! store_key = None ->
  store_rec (S (S depth)) p
  = (Ok (VStore d), with_self (fun c => set_state (<[store_key := VStore d]> (state c)) c) p).
Proof.
  intros Hwd Hv.
  change (store_rec (S (S depth)) p) with
    ((c ← gets self;
      match wd c with
      | None => raise AssertionError
      | Some d => try_except (state_get store_key) is_KeyError
                    (state_set store_key (VStore d);; store_rec (S depth))
      end) p).
  unfold mbind at 1. unfold M_bind, bind, gets. rewrite Hwd.
  unfold try_except, state_get. rewrite Hv. simpl is_KeyError. cbv iota.
  unfold mbind, M_bind, bind, state_set, modify.
  erewrite store_rec_hit; [reflexivity | exact Hwd |].
  simpl. apply lookup_insert_eq.
Qed.

Lemma bind_assoc {A B C} (m : M Proc A) (f : A -> M Proc B) (g : B -> M Proc C) p :
  ((m ≫= f) ≫= g) p = (m ≫= (fun a => f a ≫= g)) p.
Proof. unfold mbind, M_bind, bind. destruct (m p) as [[a|e] q]; reflexivity. Qed.

Lemma bind_ext {A B} (m : M Proc A) (f g : A -> M Proc B) p :
  (forall a q, f a q = g a q) -> (m ≫= f) p = (m ≫= g) p.
Proof. intros H. unfold mbind, M_bind, bind. destruct (m p) as [[a|e] q]; auto. Qed.

Lemma try_except_ext {A} (body h1 h2 : M Proc A) handles p :
  (forall q, h1 q = h2 q) ->
  try_except body handles h1 p = try_except body handles h2 p.
Proof.
  intros H. unfold try_except. destruct (body p) as [[a|e] q]; [reflexivity|].
  destruct (handles e); auto.
Qed.

Lemma disassembled_classes_rec_memo depth p :
  disassembled_classes_rec depth p = memo_rec classes_key classes_fill depth p.
Proof.
  revert p. induction depth as [|depth IH]; intros p; [reflexivity|].
  simpl. apply try_except_ext. intros q. apply bind_ext. intros _ q1.
  unfold classes_fill. rewrite !bind_assoc. apply bind_ext. intros d q2.
  rewrite !bind_assoc. apply bind_ext. intros roots q3.
  rewrite !bind_assoc. apply bind_ext. intros walks q4.
  apply bind_ext. intros _ q5. apply IH.
Qed.

Lemma disassembled_resources_rec_memo depth p :
  disassembled_resources_rec depth p = memo_rec resources_key resources_fill depth p.
Proof.
  revert p. induction depth as [|depth IH]; intros p; [reflexivity|].
  simpl. apply try_except_ext. intros q. apply bind_ext. intros _ q1.
  unfold resources_fill. rewrite !bind_assoc. apply bind_ext. intros d q2.
  rewrite !bind_assoc. apply bind_ext. intros walk q3.
  apply bind_ext. intros _ q5. apply IH.
Qed.

Lemma string_resource_files_rec_memo depth p :
  string_resource_files_rec depth p = memo_rec strings_key strings_fill depth p.
Proof.
  revert p. induction depth as [|depth IH]; intros p; [reflexivity|].
  simpl. apply try_except_ext. intros q. apply bind_ext. intros _ q1.
  unfold strings_fill. rewrite !bind_assoc. apply bind_ext. intros d q2.
  rewrite !bind_assoc. apply bind_ext. intros walk q3.
  apply bind_ext. intros _ q5. apply IH.
Qed.

Lemma framed_classes_fill : framed (fun k => k = classes_key) classes_fill.
Proof.
  apply framed_bind; [apply framed_need_wd|]. intros d.
  apply framed_bind; [apply framed_glob_glob|]. intros roots.
  apply framed_bind; [apply framed_mapM; intros; apply framed_os_walk|]. intros walks.
  apply framed_for_each. intros [[root dirs] files].
  apply framed_state_extend. reflexivity.
Qed.

Lemma framed_resources_fill : framed (fun k => k = resources_key) resources_fill.
Proof.
  apply framed_bind; [apply framed_need_wd|]. intros d.
  apply framed_bind; [apply framed_os_walk|]. intros walk.
  apply framed_for_each. intros [[root dirs] files].
  apply framed_state_extend. reflexivity.
Qed.

Lemma framed_strings_fill : framed (fun k => k = strings_key) strings_fill.
Proof.
  apply framed_bind; [apply framed_need_wd|]. intros d.
  apply framed_bind; [apply framed_os_walk|]. intros walk.
  apply framed_for_each. intros [[root dirs] files].
  apply framed_state_extend. reflexivity.
Qed.

(** A cached entry is returned as it is, whatever the world. *)
Lemma memo_rec_hit key fill depth p v :
  state (self p) !! key = Some v -> memo_rec key fill (S depth) p = (Ok v, p).
Proof. intros Hv. simpl. unfold try_except, state_get. rewrite Hv. reflexivity. Qed.

(** On a miss the entry is created, filled and then returned. *)
Lemma memo_rec_miss key fill depth p :
  framed (fun k => k = key) fill ->
  state (self p) !! key = None ->
  let q := with_self (fun c => set_state (<[key := VList []]> (state c)) c) p in
  match fill q with
  | (Ok _, q') =>
      exists v, state (self q') !! key = Some v /\
                memo_rec key fill (S (S depth)) p = (Ok v, q')
  | (Raise e, q') =>
      is_Some (state (self q') !! key) /\
      memo_rec key fill (S (S depth)) p = (Raise e, q')
  end.
Proof.
  intros Hfill Hmiss q.
  assert (E : memo_rec key fill (S (S depth)) p
              = (fill ≫= (fun _ => memo_rec key fill (S depth))) q).
  { change (memo_rec key fill (S (S depth)) p) with
      (try_except (state_get key) is_KeyError
         (state_set key (VList []);; fill;; memo_rec key fill (S depth)) p).
    unfold try_except, state_get. rewrite Hmiss. reflexivity. }
  assert (Hq : is_Some (state (self q) !! key)).
  { subst q. simpl. rewrite lookup_insert_eq. eauto. }
  pose proof (Hfill q) as F. apply (frame_bound _ _ _ F) in Hq.
  rewrite E. unfold mbind, M_bind, bind.
  destruct (fill q) as [[u|e] q']; simpl in Hq.
  - destruct Hq as [v Hv]. exists v. split; [assumption|].
    apply memo_rec_hit. assumption.
  - split; [assumption | reflexivity].
Qed.

(** After a call the entry is there, and a returned value is the entry. *)
Lemma memo_rec_cached key fill depth p r p1 :
  framed (fun k => k = key) fill ->
  memo_rec key fill (S (S depth)) p = (r, p1) ->
  exists v, state (self p1) !! key = Some v /\ forall r0, r = Ok r0 -> r0 = v.
Proof.
  intros Hfill H.
  destruct (state (self p) !! key) as [v|] eqn:Hv.
  - rewrite (memo_rec_hit _ _ _ _ _ Hv) in H. injection H as <- <-.
    exists v. split; [assumption | congruence].
  - pose proof (memo_rec_miss key fill depth p Hfill Hv) as M. cbv zeta in M.
    destruct (fill _) as [[u|e] q'].
    + destruct M as (v & Hv' & E). rewrite E in H. injection H as <- <-.
      exists v. split; [assumption | congruence].
    + destruct M as ([v Hv'] & E). rewrite E in H. injection H as <- <-.
      exists v. split; [assumption | discriminate].
Qed.

Lemma disassembled_classes_memo p :
  disassembled_classes p = memo_rec classes_key classes_fill recursion_limit p.
Proof. apply disassembled_classes_rec_memo. Qed.

Lemma disassembled_resources_memo p :
  disassembled_resources p = memo_rec resources_key resources_fill recursion_limit p.
Proof. apply disassembled_resources_rec_memo. Qed.

Lemma string_resource_files_memo p :
  string_resource_files p = memo_rec strings_key strings_fill recursion_limit p.
Proof. apply string_resource_files_rec_memo. Qed.

(** What a second call does after a first one, in a world [w] that may
    differ from the one the first call saw. *)
Lemma memo_rec_again key fill (p : Proc) (w : World) :
  framed (fun k => k = key) fill ->
  let first := memo_rec key fill recursion_limit p in
  let again := {| self := self first.2; world := w |} in
  exists v, memo_rec key fill recursion_limit again = (Ok v, again) /\
            forall r0, first.1 = Ok r0 -> r0 = v.
Proof.
  intros Hfill first again.
  destruct first as [r p1] eqn:E. subst first.
  change recursion_limit with (S (S 998)) in E.
  destruct (memo_rec_cached key fill _ p r p1 Hfill E) as (v & Hv & Hr).
  exists v. split; [|exact Hr].
  apply memo_rec_hit. exact Hv.
Qed.

(** C6: each of the three lists is computed from the file system at most
    once per context.  Whatever the first call did, a later call on the
    same context returns the cached entry and leaves the world as it is
    (no directory is scanned: the trace does not grow), in any world [w],
    hence also after the tree has changed; and when the first call
    returned a value, that value is the entry. *)
Theorem enumerations_computed_once (p : Proc) (w : World) :
  let again (first : result pyval * Proc) := {| self := self first.2; world := w |} in
  (exists v, disassembled_classes (again (disassembled_classes p))
             = (Ok v, again (disassembled_classes p)) /\
             forall r0, (disassembled_classes p).1 = Ok r0 -> r0 = v) /\
  (exists v, disassembled_resources (again (disassembled_resources p))
             = (Ok v, again (disassembled_resources p)) /\
             forall r0, (disassembled_resources p).1 = Ok r0 -> r0 = v) /\
  (exists v, string_resource_files (again (string_resource_files p))
             = (Ok v, again (string_resource_files p)) /\
             forall r0, (string_resource_files p).1 = Ok r0 -> r0 = v).
Proof.
  intros again. subst again. cbv beta. repeat split.
  - rewrite (disassembled_classes_memo p), disassembled_classes_memo.
    apply memo_rec_again, framed_classes_fill.
  - rewrite (disassembled_resources_memo p), disassembled_resources_memo.
    apply memo_rec_again, framed_resources_fill.
  - rewrite (string_resource_files_memo p), string_resource_files_memo.
    apply memo_rec_again, framed_strings_fill.
Qed.

(** *** Ingestion *)

Lemma analyze_analyzed p d apk skip_resources :
  wd (self p) = Some d ->
  analyze apk skip_resources p = (Raise (ValueError "analyzed once"), p).
Proof.
  intros Hwd. unfold analyze, mbind, M_bind, bind, gets. rewrite Hwd. reflexivity.
Qed.

Lemma workdir_of_state apk p : (workdir_of apk p).2 = p.
Proof.
  unfold workdir_of, fingerprint_of, mbind, M_bind, bind, zip_read, os_environ.
  destruct (archives _ !! _); [|reflexivity].
  destruct (name_to_info _ !! _); [|reflexivity]. simpl.
  destruct (environ _ !! _); reflexivity.
Qed.

Lemma analyze_unanalyzed p apk skip_resources :
  wd (self p) = None ->
  analyze apk skip_resources p
  = match workdir_of apk (with_self (set_apk (Some apk)) p) with
    | (Ok d, q) => ingest apk skip_resources d (with_self (set_wd (Some d)) q)
    | (Raise e, q) => (Raise e, q)
    end.
Proof.
  intros Hwd. unfold analyze, mbind at 1. unfold M_bind, bind, gets. rewrite Hwd.
  unfold mbind at 1. unfold M_bind, bind, modify.
  unfold mbind at 1. unfold M_bind, bind.
  destruct (workdir_of apk _) as [[d|e] q]; reflexivity.
Qed.

Lemma framed_after_store (K : string -> Prop) path :
  K classes_key ->
  framed K (classes ← disassembled_classes;
            match classes with
            | VStore _ => raise (TypeError "'Store' object is not iterable")
            | VList fns =>
                texts ← mapM read_file fns;
                smali_analyze_call path (Str.join newline texts)
            end).
Proof.
  intros HK. apply framed_bind; [apply framed_disassembled_classes_rec; exact HK|].
  intros [fns|s]; [|apply framed_raise].
  apply framed_bind; [apply framed_mapM; intros; apply framed_read_file|].
  intros texts. apply framed_smali_analyze_call.
Qed.

Lemma framed_ingest apk skip_resources d : framed (fun _ => True) (ingest apk skip_resources d).
Proof.
  apply framed_try_except_else; [apply framed_os_makedirs | apply framed_ret |].
  intros _. apply framed_bind; [apply framed_os_system_call|]. intros _.
  apply framed_bind; [apply framed_store_rec; exact I|].
  intros [l|path]; [apply framed_raise|].
  apply framed_after_store. exact I.
Qed.

(** Whenever the working directory could be chosen it stays set. *)
Lemma analyze_sets_wd p apk skip_resources :
  let first := analyze apk skip_resources p in
  first.1 = Ok tt -> is_Some (wd (self first.2)).
Proof.
  intros first. subst first.
  destruct (wd (self p)) as [d|] eqn:Hwd.
  - rewrite (analyze_analyzed p d) by assumption. discriminate.
  - rewrite analyze_unanalyzed by assumption.
    pose proof (workdir_of_state apk (with_self (set_apk (Some apk)) p)) as Hs.
    destruct (workdir_of apk _) as [[d|e] q]; [|discriminate].
    simpl in Hs. subst q. intros _.
    rewrite (frame_wd _ _ _ (framed_ingest apk skip_resources d _)). simpl. eauto.
Qed.

(** C1: once [analyze] has been called on a context and has set its working
    directory (as it has whenever that call returned), any further call,
    whatever its arguments, raises [ValueError('analyzed once')] and leaves
    the context and the world, the Fact Stores included, exactly as the
    first call left them. *)
Theorem analyze_second_call_fails (p : Proc) (apk apk' : string) (skip skip' : bool) :
  let first := analyze apk skip p in
  first.1 = Ok tt \/ is_Some (wd (self first.2)) ->
  analyze apk' skip' first.2 = (Raise (ValueError "analyzed once"), first.2).
Proof.
  intros first H.
  assert (Hwd : is_Some (wd (self first.2))).
  { destruct H as [H|H]; [apply analyze_sets_wd; exact H | exact H]. }
  destruct Hwd as [d Hd]. eapply analyze_analyzed. exact Hd.
Qed.

End AnalyzeProperties.

Lemma analyze_second_call_fails_witness :
  analyze "/tmp/repacked.apk" true (analyze "/tmp/app.apk" false Demo.fresh).2
  = (Raise (ValueError "analyzed once"), (analyze "/tmp/app.apk" false Demo.fresh).2).
Proof.
  apply (analyze_second_call_fails Demo.fresh "/tmp/app.apk" "/tmp/repacked.apk" false true).
  left. vm_compute. reflexivity.
Defined.

(** ** Reuse of the cache directory across runs *)

Section CacheProperties.

Context {ext : External}.

Lemma makedirs_existing (comps : list string) (n : FS.node) :
  is_Some (FS.resolve comps n) -> FS.makedirs comps n = None.
Proof.
  revert n. induction comps as [|c cs IH]; intros n [x Hx]; [reflexivity|].
  simpl in *. destruct n as [data|es]; [reflexivity|].
  destruct (FS.find c es) as [y|]; [|discriminate].
  rewrite IH; eauto.
Qed.

(** On an existing directory [ingest] does nothing at all. *)
Lemma ingest_existing apk skip_resources d p :
  is_Some (resolve_path (world p) d) ->
  ingest apk skip_resources d p = (Ok tt, p).
Proof.
  intros H. unfold ingest, try_except_else, os_makedirs.
  unfold resolve_path in H. rewrite makedirs_existing by assumption. reflexivity.
Qed.

(** The store handle of a context that holds no other handle yet. *)
Lemma store_opens p d :
  wd (self p) = Some d ->
  state (self p) !! store_key = None \/ state (self p) !! store_key = Some (VStore d) ->
  exists p', store p = (Ok (VStore d), p') /\ world p' = world p /\ wd (self p') = Some d.
Proof.
  intros Hwd [H|H]; unfold store; change recursion_limit with (S (S 998)).
  - rewrite (store_rec_miss _ _ _ Hwd H). eexists. repeat split. exact Hwd.
  - rewrite (store_rec_hit _ _ _ _ Hwd H). eexists. repeat split. exact Hwd.
Qed.

Lemma store_query_reads {R} (q : facts -> R) d p :
  store_query q (VStore d) p
  = (match stores (world p) !! d with
     | Some content => Ok (q content)
     | None => Raise (ExternalError "not ready")
     end, p).
Proof.
  unfold store_query, mbind, M_bind, bind, gets.
  destruct (stores (world p) !! d); reflexivity.
Qed.

Lemma query_after_analysis {R} (q : facts -> R) p d :
  wd (self p) = Some d ->
  state (self p) !! store_key = None \/ state (self p) !! store_key = Some (VStore d) ->
  ((store ≫= store_query q) p).1
  = match stores (world p) !! d with
    | Some content => Ok (q content)
    | None => Raise (ExternalError "not ready")
    end.
Proof.
  intros Hwd Hs. destruct (store_opens p d Hwd Hs) as (p' & E & Hw & _).
  rewrite (bind_ok _ _ _ _ _ E), store_query_reads, Hw. reflexivity.
Qed.

Lemma workdir_of_in apk (p : Proc) : workdir_of apk p = (workdir_in (world p) apk, p).
Proof.
  unfold workdir_of, workdir_in, fingerprint_of, mbind, M_bind, bind, zip_read, os_environ.
  destruct (archives (world p) !! apk); [|reflexivity].
  destruct (name_to_info _ !! _); [|reflexivity]. simpl.
  destruct (environ (world p) !! "HOME"); reflexivity.
Qed.

Lemma workdir_of_world apk (q q' : Proc) :
  world q = world q' -> (workdir_of apk q).1 = (workdir_of apk q').1.
Proof. intros Hq. rewrite !workdir_of_in, Hq. reflexivity. Qed.

(** The context that a successful [analyze] leaves behind when it started
    from a fresh one. *)
Lemma analyze_fresh_ok (w0 : World) apk skip_resources p1 :
  analyze apk skip_resources {| self := Context_init; world := w0 |} = (Ok tt, p1) ->
  exists d,
    workdir_of apk {| self := Context_init; world := w0 |}
    = (Ok d, {| self := Context_init; world := w0 |}) /\
    wd (self p1) = Some d /\
    (state (self p1) !! store_key = None \/ state (self p1) !! store_key = Some (VStore d)) /\
    environ (world p1) = environ w0 /\ archives (world p1) = archives w0.
Proof.
  intros H. rewrite analyze_unanalyzed in H by reflexivity.
  set (p0 := with_self (set_apk (Some apk)) {| self := Context_init; world := w0 |}) in *.
  pose proof (workdir_of_state apk p0) as Hs.
  assert (Hsame : forall q, world q = w0 -> (workdir_of apk q).1 = (workdir_of apk p0).1).
  { intros q Hq. apply workdir_of_world. exact Hq. }
  destruct (workdir_of apk p0) as [[d|e] q] eqn:E; [|discriminate].
  simpl in Hs. subst q. exists d.
  set (p := with_self (set_wd (Some d)) p0) in *.
  pose proof (framed_ingest apk skip_resources d p) as F. rewrite H in F. simpl in F.
  split.
  { pose proof (workdir_of_state apk {| self := Context_init; world := w0 |}) as Hs'.
    pose proof (Hsame {| self := Context_init; world := w0 |} eq_refl) as Hr.
    destruct (workdir_of apk {| self := Context_init; world := w0 |}) as [r q'].
    simpl in *. congruence. }
  split; [rewrite (frame_wd _ _ _ F); reflexivity|].
  split; [|split; [apply (frame_environ _ _ _ F) | apply (frame_archives _ _ _ F)]].
  clear F. unfold ingest, try_except_else in H.
  destruct (os_makedirs d p) as [[u|e] q] eqn:Em.
  - right.
    assert (Fm : frame (fun _ => False) p q).
    { pose proof (framed_os_makedirs (fun _ => False) d p) as Fm. rewrite Em in Fm. exact Fm. }
    apply bind_ok_inv in H as (u1 & q1 & E1 & H).
    assert (F1 : frame (fun _ => False) q q1).
    { match type of E1 with os_system_call ?cmd _ = _ =>
        pose proof (framed_os_system_call (fun _ => False) cmd q) as F1 end.
      rewrite E1 in F1. exact F1. }
    pose proof (frame_trans _ _ _ _ Fm F1) as F01.
    assert (Hwd1 : wd (self q1) = Some d) by (rewrite (frame_wd _ _ _ F01); reflexivity).
    assert (Hst1 : state (self q1) !! store_key = None).
    { rewrite (frame_state _ _ _ F01) by tauto. reflexivity. }
    apply bind_ok_inv in H as (handle & q2 & E2 & H).
    unfold store in E2. change recursion_limit with (S (S 998)) in E2.
    rewrite (store_rec_miss _ _ _ Hwd1 Hst1) in E2. injection E2 as <- <-.
    match type of H with ?m ?q2 = _ =>
      assert (F2 : frame (fun k => k = classes_key) q2 (m q2).2)
        by (apply framed_after_store; reflexivity) end.
    rewrite H in F2. simpl in F2.
    rewrite (frame_state _ _ _ F2) by discriminate.
    simpl. apply lookup_insert_eq.
  - left. destruct (is_OSError e); [|discriminate].
    injection H as <-.
    pose proof (framed_os_makedirs (fun _ => False) d p) as Fm. rewrite Em in Fm.
    rewrite (frame_state _ _ _ Fm) by tauto. reflexivity.
Qed.

(** C2: when the cache directory of a package exists already, [analyze] on a
    fresh context returns at once with the world untouched: no command is
    run, no text is parsed and nothing is scanned (the trace is the one of
    [w]).  The store then opened on that directory answers every query from
    the content persisted there, and so with the very results a context of
    an earlier run gives in this world. *)
Theorem analyze_reuses_cache (w : World) (apk : string) (skip_resources : bool)
    (z : zip_archive) (data : list byte) (home : string) :
  archives w !! apk = Some z ->
  name_to_info z !! manifest_name = Some data ->
  environ w !! "HOME" = Some home ->
  let h := SHA256.hexdigest data in
  let d := cache_root home +:+ "/" +:+ Str.take 2 h +:+ "/" +:+ Str.take 2 (Str.drop 2 h)
           +:+ "/" +:+ Str.drop 4 h in
  is_Some (resolve_path w d) ->
  exists p2,
    analyze apk skip_resources {| self := Context_init; world := w |} = (Ok tt, p2) /\
    world p2 = w /\ wd (self p2) = Some d /\
    forall (R : Type) (q : facts -> R),
      ((store ≫= store_query q) p2).1
      = match stores w !! d with
        | Some content => Ok (q content)
        | None => Raise (ExternalError "not ready")
        end /\
      forall (w0 : World) (skip0 : bool) (p1 : Proc),
        analyze apk skip0 {| self := Context_init; world := w0 |} = (Ok tt, p1) ->
        world p1 = w ->
        ((store ≫= store_query q) p2).1 = ((store ≫= store_query q) p1).1.
Proof.
  intros Ha Hm Hh h d Hd.
  set (p2 := {| self := set_wd (Some d) (set_apk (Some apk) Context_init); world := w |}).
  exists p2.
  assert (Hw : forall c, workdir_of apk {| self := c; world := w |}
                         = (Ok d, {| self := c; world := w |})).
  { intros c. apply (workdir_of_read _ apk z data home); assumption. }
  assert (Hq : forall (R : Type) (q : facts -> R),
             ((store ≫= store_query q) p2).1
             = match stores w !! d with
               | Some content => Ok (q content)
               | None => Raise (ExternalError "not ready")
               end).
  { intros R q. apply (query_after_analysis q p2 d); [reflexivity | left; reflexivity]. }
  split; [|split; [reflexivity | split; [reflexivity|]]].
  - rewrite analyze_unanalyzed by reflexivity.
    change (with_self (set_apk (Some apk)) {| self := Context_init; world := w |})
      with {| self := set_apk (Some apk) Context_init; world := w |}.
    rewrite Hw.
    apply ingest_existing. exact Hd.
  - intros R q. split; [apply Hq|].
    intros w0 skip0 p1 H1 Hw1. rewrite Hq.
    destruct (analyze_fresh_ok w0 apk skip0 p1 H1) as (d0 & Hd0 & Hwd1 & Hst1 & He & Har).
    assert (d0 = d).
    { rewrite Hw1 in He, Har.
      assert (E : workdir_of apk {| self := Context_init; world := w0 |}
                  = (Ok d, {| self := Context_init; world := w0 |})).
      { apply (workdir_of_read _ apk z data home); simpl;
          [rewrite <- Har | | rewrite <- He]; assumption. }
      rewrite E in Hd0. congruence. }
    subst d0. rewrite (query_after_analysis q p1 d Hwd1 Hst1), Hw1. reflexivity.
Qed.

End CacheProperties.

Lemma analyze_reuses_cache_witness :
  exists p2,
    analyze "/tmp/app.apk" true {| self := Context_init; world := Demo.after_first_run |}
    = (Ok tt, p2) /\
    world p2 = Demo.after_first_run /\ wd (self p2) = Some Demo.cache_dir /\
    forall (R : Type) (q : facts -> R),
      ((store ≫= store_query q) p2).1
      = match stores Demo.after_first_run !! Demo.cache_dir with
        | Some content => Ok (q content)
        | None => Raise (ExternalError "not ready")
        end /\
      forall (w0 : World) (skip0 : bool) (p1 : Proc),
        analyze "/tmp/app.apk" skip0 {| self := Context_init; world := w0 |} = (Ok tt, p1) ->
        world p1 = Demo.after_first_run ->
        ((store ≫= store_query q) p2).1 = ((store ≫= store_query q) p1).1.
Proof.
  apply (analyze_reuses_cache Demo.after_first_run "/tmp/app.apk" true
           Demo.app_apk Demo.manifest "/home/user").
  - vm_compute. reflexivity.
  - vm_compute. reflexivity.
  - vm_compute. reflexivity.
  - vm_compute. eexists. reflexivity.
Defined.

(** ** The enumerations as functions of the file tree *)

Section EnumerationProperties.

Context {ext : External}.

Lemma os_walk_run top p :
  os_walk top p
  = (Ok (walk_in (world p) top), with_world (fun w => set_trace (trace w ++ [Walk top]) w) p).
Proof. reflexivity. Qed.


(** Two worlds with one file tree and one current directory. *)
Definition same_tree (w w' : World) : Prop := cwd w' = cwd w /\ fs w' = fs w.

Lemma walk_in_same_tree w w' top : same_tree w w' -> walk_in w' top = walk_in w top.
Proof. intros [Hc Hf]. unfold walk_in, resolve_path. rewrite Hc, Hf. reflexivity. Qed.


Lemma state_extend_run key items l p :
  state (self p) !! key = Some (VList l) ->
  state_extend key items p
  = (Ok tt, with_self (fun c => set_state (<[key := VList (l ++ items)]> (state c)) c) p).
Proof.
  intros H. unfold state_extend, mbind, M_bind, bind, state_get. rewrite H. reflexivity.
Qed.

Lemma for_each_extend {A} key (f : A -> list string) (body : A -> M Proc unit) ts p l :
  (forall t, body t = state_extend key (f t)) ->
  state (self p) !! key = Some (VList l) ->
  exists p', for_each ts body p = (Ok tt, p') /\
             state (self p') !! key = Some (VList (l ++ concat (map f ts))) /\
             world p' = world p /\ wd (self p') = wd (self p).
Proof.
  intros Hb. revert p l. induction ts as [|t ts IH]; intros p l Hl.
  - exists p. simpl. rewrite app_nil_r. repeat split. exact Hl.
  - change (for_each (t :: ts) body p) with ((body t ≫= fun _ => for_each ts body) p).
    rewrite Hb.
    rewrite (bind_ok _ _ _ _ _ (state_extend_run key (f t) l p Hl)).
    edestruct (IH (with_self (fun c => set_state (<[key := VList (l ++ f t)]> (state c)) c) p))
      as (p' & E & Hs & Hw & Hd).
    { simpl. apply lookup_insert_eq. }
    exists p'. split; [exact E|]. simpl. rewrite app_assoc. repeat split; assumption.
Qed.


Lemma resources_fill_run p d l :
  wd (self p) = Some d ->
  state (self p) !! resources_key = Some (VList l) ->
  exists p', resources_fill p = (Ok tt, p') /\
             state (self p') !! resources_key
             = Some (VList (l ++ resource_files (world p) d)).
Proof.
  intros Hwd Hl. unfold resources_fill.
  assert (E0 : need_wd p = (Ok d, p)).
  { unfold need_wd, mbind, M_bind, bind, gets. rewrite Hwd. reflexivity. }
  rewrite (bind_ok _ _ _ _ _ E0), (bind_ok _ _ _ _ _ (os_walk_run _ p)).
  match goal with |- exists p', for_each ?ts ?body ?q = _ /\ _ =>
    destruct (for_each_extend resources_key
                (fun t : string * list string * list string =>
                   map (fun f => Path.join t.1.1 [f])
                       (filter (fun f => Str.endswith ".xml" f = true) t.2)) body ts q l)
      as (p3 & E3 & Hs3 & _) end.
  { intros [[root dirs] files]. reflexivity. }
  { exact Hl. }
  exists p3. split; [exact E3|]. rewrite Hs3. unfold resource_files. do 4 f_equal.
  apply map_ext. intros [[root dirs] files]. reflexivity.
Qed.


Lemma disassembled_resources_fresh p d :
  wd (self p) = Some d ->
  state (self p) !! resources_key = None ->
  (disassembled_resources p).1 = Ok (VList (resource_files (world p) d)).
Proof.
  intros Hwd Hmiss. rewrite disassembled_resources_memo.
  change recursion_limit with (S (S 998)).
  pose proof (memo_rec_miss resources_key resources_fill 998 p framed_resources_fill Hmiss) as M.
  cbv zeta in M.
  edestruct (resources_fill_run
               (with_self (fun c => set_state (<[resources_key := VList []]> (state c)) c) p) d [])
    as (p' & E & Hs).
  { exact Hwd. }
  { simpl. apply lookup_insert_eq. }
  rewrite E in M. destruct M as (v & Hv & ->). simpl.
  rewrite Hv in Hs. injection Hs as ->. reflexivity.
Qed.

End EnumerationProperties.

(** The class list of a context survives the removal of its tree: the
    second call, in a world whose file system no longer holds [/w], returns
    the two files the first call found and scans nothing. *)
Example disassembled_classes_after_removal :
  let first := disassembled_classes Demo.multidex in
  let later := {| self := self first.2; world := Demo.world0 |} in
  resolve_path Demo.world0 "/w" = None /\
  first.1 = Ok (VList ["/w/smali/a/B.smali"; "/w/smali_classes2/a/B.smali"]) /\
  disassembled_classes later = (first.1, later).
Proof. vm_compute. repeat split; reflexivity. Qed.

(** ** The order of [sorted] *)

Lemma ascii_compare_refl (a : ascii) : Ascii.compare a a = Eq.
Proof. unfold Ascii.compare. apply N.compare_refl. Qed.

Lemma ascii_compare_lt_trans (a b c : ascii) :
  Ascii.compare a b = Lt -> Ascii.compare b c = Lt -> Ascii.compare a c = Lt.
Proof.
  unfold Ascii.compare. rewrite !N.compare_lt_iff. apply N.lt_trans.
Qed.

Lemma string_compare_refl (s : string) : String.compare s s = Eq.
Proof. induction s as [|c s IH]; simpl; [reflexivity|]. rewrite ascii_compare_refl. exact IH. Qed.

Lemma string_compare_lt_trans (a b c : string) :
  String.compare a b = Lt -> String.compare b c = Lt -> String.compare a c = Lt.
Proof.
  revert b c. induction a as [|x a IH]; intros [|y b] [|z c]; simpl; try discriminate; auto.
  destruct (Ascii.compare x y) eqn:Exy; try discriminate;
    destruct (Ascii.compare y z) eqn:Eyz; try discriminate; intros H1 H2.
  - apply Ascii.compare_eq_iff in Exy, Eyz. subst. rewrite ascii_compare_refl. eauto.
  - apply Ascii.compare_eq_iff in Exy. subst. rewrite Eyz. reflexivity.
  - apply Ascii.compare_eq_iff in Eyz. subst. rewrite Exy. reflexivity.
  - rewrite (ascii_compare_lt_trans _ _ _ Exy Eyz). reflexivity.
Qed.

Lemma str_lt_le (a b : string) : str_lt a b <-> str_le a b /\ a <> b.
Proof.
  unfold str_lt, str_le, String.ltb, String.leb. split.
  - intros H. destruct (String.compare a b) eqn:E; try discriminate.
    split; [reflexivity|]. intros ->. rewrite string_compare_refl in E. discriminate.
  - intros [H Hne]. destruct (String.compare a b) eqn:E; try discriminate; [|reflexivity].
    apply String.compare_eq_iff in E. contradiction.
Qed.

#[global] Instance str_le_total : Total str_le.
Proof. intros a b. apply String.leb_total. Qed.

#[global] Instance str_le_antisymm : AntiSymm (=) str_le.
Proof. intros a b. apply String.leb_antisym. Qed.

#[global] Instance str_le_trans : Transitive str_le.
Proof.
  intros a b c Hab Hbc.
  destruct (decide (a = b)) as [->|Nab]; [assumption|].
  destruct (decide (b = c)) as [->|Nbc]; [assumption|].
  assert (Lab : str_lt a b) by (apply str_lt_le; auto).
  assert (Lbc : str_lt b c) by (apply str_lt_le; auto).
  unfold str_lt, str_le, String.ltb, String.leb in *.
  destruct (String.compare a b) eqn:E1; try discriminate.
  destruct (String.compare b c) eqn:E2; try discriminate.
  rewrite (string_compare_lt_trans _ _ _ E1 E2). reflexivity.
Qed.

#[global] Instance str_lt_trans : Transitive str_lt.
Proof.
  intros a b c. unfold str_lt, String.ltb.
  destruct (String.compare a b) eqn:E1; try discriminate.
  destruct (String.compare b c) eqn:E2; try discriminate.
  rewrite (string_compare_lt_trans _ _ _ E1 E2). reflexivity.
Qed.


Lemma StronglySorted_strict (l : list string) :
  StronglySorted str_le l -> NoDup l -> StronglySorted str_lt l.
Proof.
  induction 1 as [|x l Hl IH Hx]; intros Hn; constructor.
  - apply IH. apply NoDup_cons in Hn. tauto.
  - apply NoDup_cons in Hn. destruct Hn as [Hin _].
    rewrite Forall_forall in *. intros y Hy. apply str_lt_le. split; [auto|].
    intros ->. contradiction.
Qed.


Lemma StronglySorted_filter {A} (R : relation A) (P : A -> Prop) `{!forall x, Decision (P x)}
    (l : list A) :
  StronglySorted R l -> StronglySorted R (filter P l).
Proof.
  induction 1 as [|x l Hl IH Hx]; [constructor|].
  rewrite filter_cons. destruct (decide (P x)); [|assumption].
  constructor; [assumption|]. rewrite Forall_forall in *. intros y Hy.
  apply list_elem_of_filter in Hy. destruct Hy as [_ Hy]. auto.
Qed.

Lemma StronglySorted_take {A} (R : relation A) (k : nat) (l : list A) :
  StronglySorted R l -> StronglySorted R (take k l).
Proof.
  intros H. revert k. induction H as [|x l Hl IH Hx]; intros [|k]; simpl; try constructor.
  - apply IH.
  - apply Forall_take. assumption.
Qed.

(** [sorted] of a set: its elements, strictly increasing. *)
Lemma sorted_elements_strict (S : gset string) : StronglySorted str_lt (sorted (elements S)).
Proof.
  apply StronglySorted_strict.
  - apply StronglySorted_merge_sort; apply _.
  - unfold sorted. rewrite merge_sort_Permutation. apply NoDup_elements.
Qed.

Lemma elem_of_sorted_elements (S : gset string) (x : string) :
  x ∈ sorted (elements S) <-> x ∈ S.
Proof. unfold sorted. rewrite merge_sort_Permutation. apply elem_of_elements. Qed.


(** ** The search for defined packages *)

Section SearchProperties.

Context {ext : External}.
Variable require_target : M Proc unit.
Variable get_analyzed_context : M Proc unit.
Variable re_match : string -> string -> result bool.

Lemma matches_true pat pkg : matches re_match pat pkg = true <-> re_match pat pkg = Ok true.
Proof.
  unfold matches. destruct (re_match pat pkg) as [[|]|e]; split; congruence.
Qed.

Lemma list_loop_step pat x l p :
  for_each (x :: l) (list_body re_match pat) p
  = match re_match pat x with
    | Ok true => for_each l (list_body re_match pat) (ui_info x p).2
    | Ok false => for_each l (list_body re_match pat) p
    | Raise e => (Raise e, p)
    end.
Proof.
  simpl. unfold bind at 1. unfold list_body at 1. unfold mbind, M_bind, bind, lift.
  destruct (re_match pat x) as [[|]|e]; reflexivity.
Qed.

(** The second loop writes the matching names of a prefix of its list, of
    the whole list when it ends normally. *)
Lemma list_loop_run pat (l : list string) (p : Proc) :
  let r := for_each l (list_body re_match pat) p in
  exists k, console (world r.2)
            = console (world p) ++ filter (fun pkg => matches re_match pat pkg = true) (take k l) /\
            (r.1 = Ok tt -> take k l = l).
Proof.
  cbv zeta. revert p. induction l as [|x l IH]; intros p.
  - exists 0. simpl. rewrite app_nil_r. split; reflexivity.
  - rewrite list_loop_step.
    destruct (re_match pat x) as [[|]|e] eqn:E.
    + destruct (IH (ui_info x p).2) as (k & Hc & Hk). exists (S k). simpl take.
      rewrite filter_cons_True by (unfold matches; rewrite E; reflexivity).
      rewrite Hc. simpl. rewrite <- app_assoc. split; [reflexivity|].
      intros H. rewrite Hk by assumption. reflexivity.
    + destruct (IH p) as (k & Hc & Hk). exists (S k). simpl take.
      rewrite filter_cons_False by (unfold matches; rewrite E; discriminate).
      split; [exact Hc|].
      intros H. rewrite Hk by assumption. reflexivity.
    + exists 0. simpl. rewrite app_nil_r. split; [reflexivity | discriminate].
Qed.

(** The first loop leaves the process alone and collects the directories. *)
Lemma collect_packages_run rs (acc : gset string) (p : Proc) :
  exists r, collect_packages rs acc p = (r, p) /\
    forall S, r = Ok S ->
      forall pkg, pkg ∈ S <->
        pkg ∈ acc \/
        exists x fn, x ∈ rs /\ source_name_at (wd (self p)) (cwd (world p)) x = Ok fn /\
                     Str.endswith ".smali" fn = true /\ pkg = Path.dirname fn.
Proof.
  revert acc. induction rs as [|x rs IH]; intros acc.
  - exists (Ok acc). split; [reflexivity|]. intros S [= <-] pkg. split; [auto|].
    intros [H|(y & fn & Hy & _)]; [assumption|]. inversion Hy.
  - simpl collect_packages. unfold mbind at 1. unfold M_bind, bind.
    unfold source_name_of_disassembled_class at 1.
    unfold mbind, M_bind, bind, gets, lift.
    destruct (source_name_at (wd (self p)) (cwd (world p)) x) as [fn|e] eqn:E.
    + match goal with |- context [collect_packages rs ?a p] =>
        destruct (IH a) as (r & Hr & HS) end.
      exists r. split; [exact Hr|]. intros S HSr pkg. rewrite (HS S HSr pkg). split.
      * intros [H|(y & fn' & Hy & Hfn & He & ->)].
        -- destruct (Str.endswith ".smali" fn) eqn:Ee; [|auto].
           apply elem_of_union in H as [H|H]; [auto|].
           apply elem_of_singleton in H. right. exists x, fn.
           split; [left|]. auto.
        -- right. exists y, fn'. split; [right; assumption|]. auto.
      * intros [H|(y & fn' & Hy & Hfn & He & ->)].
        -- left. destruct (Str.endswith ".smali" fn); [|assumption].
           apply elem_of_union. auto.
        -- apply elem_of_cons in Hy as [->|Hy].
           ++ left. rewrite E in Hfn. injection Hfn as <-. rewrite He.
              apply elem_of_union. right. apply elem_of_singleton. reflexivity.
           ++ right. exists y, fn'. auto.
    + exists (Raise e). split; [reflexivity | discriminate].
Qed.

(** What a listing writes: nothing, or the matching names of a prefix of
    the sorted packages. *)
Lemma search_listing_run pat p :
  (console (world (search_listing re_match pat p).2) = console (world p) /\
   (search_listing re_match pat p).1 <> Ok tt) \/
  exists rs (S : gset string) k,
    (disassembled_classes p).1 = Ok (VList rs) /\
    (forall pkg, pkg ∈ S <->
       exists x fn, x ∈ rs /\ source_name_at (wd (self p)) (cwd (world p)) x = Ok fn /\
                    Str.endswith ".smali" fn = true /\ pkg = Path.dirname fn) /\
    console (world (search_listing re_match pat p).2)
    = console (world p) ++ filter (fun pkg => matches re_match pat pkg = true)
                                  (take k (sorted (elements S))) /\
    ((search_listing re_match pat p).1 = Ok tt -> take k (sorted (elements S)) = sorted (elements S)).
Proof.
  pose proof (quiet_disassembled_classes_rec recursion_limit p) as (Hc & Hwd & Hcwd).
  fold disassembled_classes in Hc, Hwd, Hcwd.
  destruct (disassembled_classes p) as [[[rs|s]|e] p1] eqn:Ed; simpl in Hc, Hwd, Hcwd.
  - destruct (collect_packages_run rs ∅ p1) as (r & Hr & HS).
    destruct r as [S|e].
    + assert (E : search_listing re_match pat p = list_packages re_match pat S p1).
      { unfold search_listing. rewrite (bind_ok _ _ _ _ _ Ed), (bind_ok _ _ _ _ _ Hr).
        reflexivity. }
      rewrite E. right. exists rs, S.
      destruct (list_loop_run pat (sorted (elements S)) p1) as (k & Hk & Hall).
      change (for_each (sorted (elements S)) (list_body re_match pat) p1)
        with (list_packages re_match pat S p1) in Hk, Hall.
      exists k. split; [reflexivity|]. split.
      * intros pkg. rewrite (HS S eq_refl pkg), Hwd, Hcwd. split.
        -- intros [H|H]; [|exact H]. apply not_elem_of_empty in H. contradiction.
        -- auto.
      * rewrite <- Hc. split; [exact Hk | exact Hall].
    + assert (E : search_listing re_match pat p = (Raise e, p1)).
      { unfold search_listing. rewrite (bind_ok _ _ _ _ _ Ed), (bind_raise _ _ _ _ _ Hr).
        reflexivity. }
      rewrite E. left. split; [exact Hc | discriminate].
  - assert (E : search_listing re_match pat p
                = (Raise (TypeError "'Store' object is not iterable"), p1)).
    { unfold search_listing. rewrite (bind_ok _ _ _ _ _ Ed). reflexivity. }
    rewrite E. left. split; [exact Hc | discriminate].
  - assert (E : search_listing re_match pat p = (Raise e, p1)).
    { unfold search_listing. rewrite (bind_raise _ _ _ _ _ Ed). reflexivity. }
    rewrite E. left. split; [exact Hc | discriminate].
Qed.

(** The lines of a listing. *)
Lemma listed_lines (pat : string) (p : Proc) :
  StronglySorted str_lt (listed re_match pat p) /\
  console (world (search_listing re_match pat p).2)
  = console (world p) ++ listed re_match pat p /\
  (forall pkg, pkg ∈ listed re_match pat p ->
               re_match pat pkg = Ok true /\ is_package p pkg) /\
  ((search_listing re_match pat p).1 = Ok tt ->
   forall pkg, is_package p pkg -> re_match pat pkg = Ok true ->
               pkg ∈ listed re_match pat p).
Proof.
  unfold listed.
  destruct (search_listing_run pat p) as [[Hc Hr]|(rs & S & k & Hrs & HS & Hc & Hall)].
  - rewrite Hc, drop_all. split; [constructor|]. split; [rewrite app_nil_r; reflexivity|].
    split; [intros pkg H; inversion H | intros H; contradiction].
  - rewrite Hc, drop_app_length. split; [|split; [reflexivity|split]].
    + apply StronglySorted_filter, StronglySorted_take, sorted_elements_strict.
    + intros pkg H. apply list_elem_of_filter in H as [Hm H].
      split; [apply matches_true; exact Hm|].
      assert (Hin : pkg ∈ sorted (elements S)).
      { apply elem_of_take in H as (i & Hi & _). eapply list_elem_of_lookup_2. exact Hi. }
      apply elem_of_sorted_elements, HS in Hin.
      destruct Hin as (x & fn & Hx & Hfn & He & Hp).
      exists rs, x, fn. auto.
    + intros Hok pkg (rs' & x & fn & Hrs' & Hx & Hfn & He & Hp) Hm.
      rewrite (Hall Hok). apply list_elem_of_filter. split; [apply matches_true; exact Hm|].
      apply elem_of_sorted_elements, HS.
      rewrite Hrs in Hrs'. injection Hrs' as <-. exists x, fn. auto.
Qed.





(** C10, amended: under a pattern that does not match the empty string -
    the default pattern [.] is one - no line of the listing is the empty
    name of the root package.  Under a pattern that matches the empty
    string, a class file directly below a disassembly root has its root
    package listed, as an empty line, when the command ends normally. *)
Theorem root_package_not_listed (pat : string) (p : Proc) :
  (re_match pat "" <> Ok true ->
   Forall (fun line => line <> "") (listed re_match pat p)) /\
  (is_package p "" -> re_match pat "" = Ok true ->
   (search_listing re_match pat p).1 = Ok tt ->
   "" ∈ listed re_match pat p).
Proof.
  destruct (listed_lines pat p) as (_ & _ & Hm & Hall). split.
  - intros H. apply Forall_forall. intros line Hin ->.
    destruct (Hm "" Hin) as [Hmatch _]. contradiction.
  - intros Hp Hmatch Hok. apply Hall; assumption.
Qed.

End SearchProperties.

(** With the default pattern the root package of [Main.smali] is not listed. *)
Example search_default_pattern :
  console (world (_search_defined_package (mret tt) (mret tt) Re.py_match ["/dp"]
                    Demo.analysed).2)
  = ["searching packages defining class: ."; "com/app"].
Proof. vm_compute. reflexivity. Qed.


Example search_lists_matching_packages :
  listed Re.py_match "." Demo.analysed = ["com/app"] /\
  listed Re.py_match "com" Demo.analysed = ["com/app"] /\
  listed Re.py_match "org" Demo.analysed = [].
Proof. vm_compute. repeat split; reflexivity. Qed.

Lemma root_package_not_listed_witness :
  Forall (fun line => line <> "") (listed Re.py_match "." Demo.analysed) /\
  "" ∈ listed Re.py_match ".*" Demo.analysed.
Proof.
  split.
  - apply (proj1 (root_package_not_listed Re.py_match "." Demo.analysed)).
    vm_compute. discriminate.
  - apply (proj2 (root_package_not_listed Re.py_match ".*" Demo.analysed)).
    + exists [Demo.cache_dir +:+ "/smali/Main.smali";
              Demo.cache_dir +:+ "/smali/com/app/Home.smali"],
        (Demo.cache_dir +:+ "/smali/Main.smali"), "Main.smali".
      split; [vm_compute; reflexivity|].
      split; [apply list_elem_of_here|].
      repeat split; vm_compute; reflexivity.
    + vm_compute. reflexivity.
    + vm_compute. reflexivity.
Defined.

(** C10 as stated fails: a pattern that matches the empty string lists the
    root package, as an empty line. *)
Lemma root_package_listed_counterexample :
  Str.endswith ".smali" "Main.smali" = true /\
  Path.dirname "Main.smali" = "" /\
  source_name_at (wd (self Demo.analysed)) (cwd (world Demo.analysed))
    (Demo.cache_dir +:+ "/smali/Main.smali") = Ok "Main.smali" /\
  listed Re.py_match ".*" Demo.analysed = [""; "com/app"].
Proof. vm_compute. repeat split; reflexivity. Qed.

(** ** The config modifier *)

Section ConfigProperties.

Variable value : Type.
Variable of_str : string -> value.
Variable helper : Type.
Variable get_config : string -> helper -> result value.
Variable set_config : string -> value -> helper -> result unit * helper.

(** What is set is what is read afterwards. *)
Hypothesis get_after_set :
  forall k v h h', set_config k v h = (Ok tt, h') -> get_config k h' = Ok v.

#[local] Abbreviation Cmd := (ConfigCommand value helper).
#[local] Abbreviation mod_ := (_mod of_str get_config set_config).

Lemma split_binding (k v : string) :
  Str.mem "=" k = false -> Str.mem "=" v = false ->
  Str.split "=" (k +:+ "=" +:+ v) = [k; v] /\ Str.mem "=" (k +:+ "=" +:+ v) = true.
Proof.
  intros Hk Hv. split.
  - change ("=" +:+ v) with (String "=" v).
    rewrite split_app, !split_without by assumption. reflexivity.
  - change ("=" +:+ v) with (String "=" v).
    rewrite mem_app, mem_cons, Ascii.eqb_refl, orb_true_r. reflexivity.
Qed.

Lemma mod_begin (c : Cmd) (k v : string) (ov : value) (h1 : helper) :
  _stash c !! k = None ->
  Str.mem "=" k = false -> Str.mem "=" v = false ->
  get_config k (_helper c) = Ok ov ->
  set_config k (of_str v) (_helper c) = (Ok tt, h1) ->
  mod_ "begin" (k +:+ "=" +:+ v) c
  = (Ok tt, set_stash (<[k := ov]> (_stash c)) (set_helper h1 c)).
Proof.
  intros Hs Hk Hv Hg Hset. destruct (split_binding k v Hk Hv) as [Esplit Emem].
  unfold _mod. rewrite Emem, Esplit. simpl negb. cbv iota.
  unfold mbind at 1. unfold M_bind, bind, ret, try_except.
  change (Str.eqb "begin" "begin") with true. cbv iota.
  unfold mbind, M_bind, bind, gets.
  destruct (decide (is_Some (_stash c !! k))) as [[x Hx]|_]; [congruence|].
  unfold ret, helper_get. rewrite Hg. unfold helper_set. simpl _helper. rewrite Hset.
  reflexivity.
Qed.

Lemma mod_end (c : Cmd) (k v : string) (ov : value) :
  _stash c !! k = Some ov ->
  Str.mem "=" k = false -> Str.mem "=" v = false ->
  mod_ "end" (k +:+ "=" +:+ v) c
  = match set_config k ov (_helper c) with
    | (Ok _, h) => (Ok tt, set_stash (delete k (_stash c)) (set_helper h c))
    | (Raise e, h) =>
        if is_InvalidConfigKeyError e
        then ui_fatal ("unknown key: " +:+ k)
               (set_stash (delete k (_stash c)) (set_helper h c))
        else (Raise e, set_stash (delete k (_stash c)) (set_helper h c))
    end.
Proof.
  intros Hs Hk Hv. destruct (split_binding k v Hk Hv) as [Esplit Emem].
  unfold _mod. rewrite Emem, Esplit. simpl negb. cbv iota.
  unfold mbind at 1. unfold M_bind, bind, ret, try_except.
  change (Str.eqb "end" "begin") with false. change (Str.eqb "end" "end") with true.
  cbv iota. unfold mbind, M_bind, bind, gets. rewrite Hs.
  unfold try_finally, helper_set, stash_del.
  destruct (set_config k ov (_helper c)) as [[[]|e] h]; simpl; rewrite Hs; reflexivity.
Qed.

(** C9: for a key [k] not bound in the stash, [begin] with [k=v] stores the
    current value [ov] of [k] in the stash and sets [k] to [v].  A later
    [end] for [k], in any state in which the stash still holds [ov] for
    [k], calls the setter with [ov] - so that [k] reads [ov] again when
    the setter returns - and removes [k] from the stash whether the setter
    returns or raises. *)
Theorem mod_begin_end (c : Cmd) (k v : string) (ov : value) (h1 : helper) :
  _stash c !! k = None ->
  Str.mem "=" k = false -> Str.mem "=" v = false ->
  get_config k (_helper c) = Ok ov ->
  set_config k (of_str v) (_helper c) = (Ok tt, h1) ->
  let val := k +:+ "=" +:+ v in
  let c1 := (mod_ "begin" val c).2 in
  (mod_ "begin" val c).1 = Ok tt /\
  _stash c1 = <[k := ov]> (_stash c) /\
  _helper c1 = h1 /\
  get_config k (_helper c1) = Ok (of_str v) /\
  forall c2 : Cmd,
    _stash c2 !! k = Some ov ->
    let restored := set_config k ov (_helper c2) in
    let c3 := (mod_ "end" val c2).2 in
    _stash c3 = delete k (_stash c2) /\
    _helper c3 = restored.2 /\
    (restored.1 = Ok tt ->
     (mod_ "end" val c2).1 = Ok tt /\ get_config k (_helper c3) = Ok ov) /\
    (forall e, restored.1 = Raise e ->
               (mod_ "end" val c2).1
               = Raise (if is_InvalidConfigKeyError e then FatalError else e)).
Proof.
  intros Hs Hk Hv Hg Hset val c1. subst c1 val.
  rewrite (mod_begin c k v ov h1 Hs Hk Hv Hg Hset).
  cbn [fst snd _stash _helper set_stash set_helper].
  split; [reflexivity|]. split; [reflexivity|]. split; [reflexivity|].
  split; [eapply get_after_set; eassumption|].
  intros c2 Hs2. rewrite (mod_end c2 k v ov Hs2 Hk Hv).
  destruct (set_config k ov (_helper c2)) as [[[]|e] h] eqn:E; simpl.
  - split; [reflexivity|]. split; [reflexivity|]. split.
    + intros _. split; [reflexivity|]. eapply get_after_set. eassumption.
    + intros e [=].
  - destruct (is_InvalidConfigKeyError e) eqn:Ee; simpl.
    + split; [reflexivity|]. split; [reflexivity|]. split; [discriminate|].
      intros e' [= <-]. rewrite Ee. reflexivity.
    + split; [reflexivity|]. split; [reflexivity|]. split; [discriminate|].
      intros e' [= <-]. rewrite Ee. reflexivity.
Qed.

End ConfigProperties.

Lemma demo_get_after_set (k v : string) (bag bag' : gmap string string) :
  DemoConfig.set k v bag = (Ok tt, bag') -> DemoConfig.get k bag' = Ok v.
Proof.
  unfold DemoConfig.set, DemoConfig.get. destruct (bag !! k); [|discriminate].
  intros [= <-]. rewrite lookup_insert_eq. reflexivity.
Qed.

Lemma mod_begin_end_witness :
  let c1 := (DemoConfig.modifier "begin" "debug=1" DemoConfig.command).2 in
  (DemoConfig.modifier "begin" "debug=1" DemoConfig.command).1 = Ok tt /\
  _stash c1 = <["debug" := "0"]> (_stash DemoConfig.command) /\
  _helper c1 = {["debug" := "1"]} /\
  DemoConfig.get "debug" (_helper c1) = Ok "1" /\
  forall c2 : ConfigCommand string (gmap string string),
    _stash c2 !! "debug" = Some "0" ->
    let restored := DemoConfig.set "debug" "0" (_helper c2) in
    let c3 := (DemoConfig.modifier "end" "debug=1" c2).2 in
    _stash c3 = delete "debug" (_stash c2) /\
    _helper c3 = restored.2 /\
    (restored.1 = Ok tt ->
     (DemoConfig.modifier "end" "debug=1" c2).1 = Ok tt /\
     DemoConfig.get "debug" (_helper c3) = Ok "0") /\
    (forall e, restored.1 = Raise e ->
               (DemoConfig.modifier "end" "debug=1" c2).1
               = Raise (if is_InvalidConfigKeyError e then FatalError else e)).
Proof.
  apply (mod_begin_end string id (gmap string string) DemoConfig.get DemoConfig.set
           demo_get_after_set DemoConfig.command "debug" "1" "0" {["debug" := "1"]});
    vm_compute; reflexivity.
Defined.

(** The begin and end events on the bag. *)
Example mod_round_trip :
  let c1 := (DemoConfig.modifier "begin" "debug=1" DemoConfig.command).2 in
  let c2 := (DemoConfig.modifier "end" "debug=1" c1).2 in
  map_to_list (_helper c1) = [("debug", "1")] /\ map_to_list (_stash c1) = [("debug", "0")] /\
  map_to_list (_helper c2) = [("debug", "0")] /\ map_to_list (_stash c2) = [].
Proof. vm_compute. repeat split; reflexivity. Qed.

(** An end event whose setter raises: the key leaves the stash all the same. *)
Example mod_end_setter_raises :
  let c := {| _helper := (∅ : gmap string string); _stash := {["gone" := "x"]};
              ui_lines := [] |} in
  let r := DemoConfig.modifier "end" "gone=1" c in
  r.1 = Raise FatalError /\ map_to_list (_stash r.2) = [] /\
  ui_lines r.2 = ["unknown key: gone"].
Proof. vm_compute. repeat split; reflexivity. Qed.

(** ** Paths and their components *)

Lemma join_cons2 (sep x y : string) (l : list string) :
  Str.join sep (x :: y :: l) = x +:+ sep +:+ Str.join sep (y :: l).
Proof. reflexivity. Qed.

Lemma split_pieces_without (sep : ascii) (s : string) :
  Forall (fun x => Str.mem sep x = false) (Str.split sep s).
Proof.
  induction s as [|c s IH]; [repeat constructor|].
  destruct (Ascii.eqb_spec c sep) as [->|Hc].
  - rewrite split_cons_sep. constructor; [reflexivity | exact IH].
  - destruct (split_cons_other sep c s Hc) as (w & ws & E & ->).
    rewrite E in IH. inversion IH as [|? ? Hw Hws]; subst. constructor; [|assumption].
    rewrite mem_cons, Hw, orb_false_r. apply Ascii.eqb_neq. congruence.
Qed.

(** Splitting what was joined gives the pieces back. *)
Lemma split_join (l : list string) :
  l <> [] -> Forall (fun x => Str.mem Path.sep x = false) l ->
  Str.split Path.sep (Str.join "/" l) = l.
Proof.
  induction l as [|x [|y l] IH]; intros Hne Hl; [contradiction| |].
  - simpl. apply split_without. inversion Hl; assumption.
  - rewrite join_cons2. change ("/" +:+ Str.join "/" (y :: l)) with (String Path.sep (Str.join "/" (y :: l))).
    inversion Hl as [|? ? Hx Hl']; subst.
    rewrite split_app, split_without, IH by (assumption || discriminate). reflexivity.
Qed.

Lemma join_inj (l1 l2 : list string) :
  l1 <> [] -> l2 <> [] ->
  Forall (fun x => Str.mem Path.sep x = false) l1 ->
  Forall (fun x => Str.mem Path.sep x = false) l2 ->
  Str.join "/" l1 = Str.join "/" l2 -> l1 = l2.
Proof.
  intros N1 N2 H1 H2 E. rewrite <- (split_join l1), <- (split_join l2), E by assumption.
  reflexivity.
Qed.

(** *** The component loop of [normpath] *)

Lemma norm_comps_app (rooted : bool) (acc l1 l2 : list string) :
  Path.norm_comps rooted acc (l1 ++ l2)
  = Path.norm_comps rooted (rev (Path.norm_comps rooted acc l1)) l2.
Proof.
  revert acc. induction l1 as [|c l1 IH]; intros acc.
  - simpl. rewrite rev_involutive. reflexivity.
  - simpl. destruct (Str.eqb c "" || Str.eqb c "."); [apply IH|].
    destruct (negb (Str.eqb c "..")); [apply IH|].
    destruct acc as [|d acc]; [apply IH|].
    destruct (Str.eqb d ".."); apply IH.
Qed.

Lemma plain_name_step (rooted : bool) (acc : list string) (c : string) (l : list string) :
  plain_name c ->
  Path.norm_comps rooted acc (c :: l) = Path.norm_comps rooted (c :: acc) l.
Proof.
  intros (H1 & H2 & H3 & _). simpl.
  apply str_eqb_neq in H1, H2, H3. rewrite H1, H2, H3. reflexivity.
Qed.

Lemma norm_comps_plain (rooted : bool) (acc l : list string) :
  Forall plain_name l -> Path.norm_comps rooted acc l = rev acc ++ l.
Proof.
  intros H. revert acc. induction H as [|c l Hc Hl IH]; intros acc.
  - simpl. rewrite app_nil_r. reflexivity.
  - rewrite plain_name_step by assumption. rewrite IH. simpl.
    rewrite <- app_assoc. reflexivity.
Qed.


(** Under a root the loop keeps plain names only. *)
Lemma norm_comps_rooted_plain (acc l : list string) :
  Forall plain_name acc ->
  Forall (fun x => Str.mem Path.sep x = false) l ->
  Forall plain_name (Path.norm_comps true acc l).
Proof.
  intros Hacc Hl. revert acc Hacc. induction Hl as [|c l Hc Hl IH]; intros acc Hacc.
  - simpl. apply Forall_rev. assumption.
  - simpl. destruct (Str.eqb c "") eqn:E1; [apply IH; assumption|].
    destruct (Str.eqb c ".") eqn:E2; [apply IH; assumption|]. simpl.
    destruct (Str.eqb c "..") eqn:E3; simpl.
    + destruct acc as [|d acc]; [apply IH; constructor|].
      inversion Hacc as [|? ? Hd Hacc']; subst.
      destruct (Str.eqb d "..") eqn:E4.
      * apply str_eqb_eq in E4. destruct Hd as (_ & _ & Hd & _). contradiction.
      * apply IH. assumption.
    + apply IH. constructor; [|assumption].
      apply str_eqb_neq in E1, E2, E3. repeat split; assumption.
Qed.

(** *** The components of an absolute path *)

Lemma filter_nonempty_plain (l : list string) :
  Forall plain_name l -> filter (fun x => negb (Str.eqb x "") = true) l = l.
Proof.
  induction 1 as [|x l Hx Hl IH]; [reflexivity|].
  rewrite filter_cons_True, IH; [reflexivity|].
  destruct Hx as (Hx & _). apply str_eqb_neq in Hx. rewrite Hx. reflexivity.
Qed.

Lemma plain_names_without_sep (l : list string) :
  Forall plain_name l -> Forall (fun x => Str.mem Path.sep x = false) l.
Proof. intros H. eapply Forall_impl; [exact H|]. intros x (_ & _ & _ & Hx). exact Hx. Qed.

Lemma split_joined_names (l : list string) :
  Forall plain_name l ->
  filter (fun x => negb (Str.eqb x "") = true) (Str.split Path.sep (Str.join "/" l)) = l.
Proof.
  intros H. destruct l as [|x l]; [reflexivity|].
  rewrite split_join; [apply filter_nonempty_plain; assumption | discriminate |].
  apply plain_names_without_sep. assumption.
Qed.

Lemma parts_abs (cwd s : string) :
  Path.isabs s = true ->
  Path.parts cwd s = Path.norm_comps true [] (Str.split Path.sep s).
Proof.
  intros Habs. unfold Path.parts, Path.abspath. rewrite Habs.
  unfold Path.isabs in Habs. unfold Path.normpath.
  destruct (Str.eqb s "") eqn:Es.
  { apply str_eqb_eq in Es. subst. discriminate. }
  rewrite Habs. simpl negb. cbv iota.
  set (L := Path.norm_comps true [] (Str.split Path.sep s)).
  assert (HL : Forall plain_name L).
  { apply norm_comps_rooted_plain; [constructor | apply split_pieces_without]. }
  destruct (Str.startswith "//" s && negb (Str.startswith "///" s)).
  - change (negb (Str.eqb "//" "")) with true. fold L.
    change ("//" +:+ Str.join "/" L) with (String Path.sep (String Path.sep (Str.join "/" L))).
    change (Str.eqb (String Path.sep (String Path.sep (Str.join "/" L))) "") with false.
    cbv iota. rewrite !split_cons_sep.
    rewrite filter_cons_False by (simpl; discriminate).
    rewrite filter_cons_False by (simpl; discriminate).
    apply split_joined_names. assumption.
  - change (negb (Str.eqb "/" "")) with true. fold L.
    change ("/" +:+ Str.join "/" L) with (String Path.sep (Str.join "/" L)).
    change (Str.eqb (String Path.sep (Str.join "/" L)) "") with false.
    cbv iota. rewrite !split_cons_sep.
    rewrite filter_cons_False by (simpl; discriminate).
    apply split_joined_names. assumption.
Qed.

Lemma parts_abs_plain (cwd s : string) :
  Path.isabs s = true -> Forall plain_name (Path.parts cwd s).
Proof.
  intros H. rewrite parts_abs by assumption.
  apply norm_comps_rooted_plain; [constructor | apply split_pieces_without].
Qed.

(** *** Joining a name to a path *)

Lemma plain_name_relative (x : string) : plain_name x -> Str.startswith "/" x = false.
Proof.
  intros (Hne & _ & _ & Hsep). destruct x as [|c x]; [contradiction|].
  rewrite mem_cons in Hsep. apply orb_false_elim in Hsep as [Hc _].
  apply startswith_sep_cons. intros ->. discriminate.
Qed.

Lemma endswith_sep_inv (s : string) :
  Str.endswith "/" s = true -> exists s', s = s' +:+ "/".
Proof.
  induction s as [|c s IH]; [discriminate|].
  rewrite endswith_cons. intros H. apply orb_prop in H as [H|H].
  - apply String.eqb_eq in H. exists "". rewrite H. reflexivity.
  - destruct (IH H) as (s' & ->). exists (String c s'). reflexivity.
Qed.

Lemma split_snoc_sep (s : string) :
  Str.split Path.sep (s +:+ "/") = Str.split Path.sep s ++ [""].
Proof. change "/" with (String Path.sep ""). rewrite split_app. reflexivity. Qed.

Lemma join2_name (cwd d x : string) :
  Path.isabs d = true -> plain_name x ->
  Path.isabs (Path.join2 d x) = true /\
  Path.parts cwd (Path.join2 d x) = Path.parts cwd d ++ [x].
Proof.
  intros Habs Hx.
  assert (Hrel := plain_name_relative x Hx).
  assert (Hsplit : Str.split Path.sep x = [x]).
  { apply split_without. destruct Hx as (_ & _ & _ & H). exact H. }
  unfold Path.join2. rewrite Hrel.
  destruct (Str.eqb d "") eqn:Ed.
  { apply str_eqb_eq in Ed. subst. discriminate. }
  simpl orb. destruct (Str.endswith "/" d) eqn:Ee.
  - split; [apply startswith_app; exact Habs|].
    destruct (endswith_sep_inv d Ee) as (d' & ->).
    rewrite (parts_abs cwd (d' +:+ "/") Habs).
    rewrite parts_abs by (apply startswith_app; exact Habs).
    rewrite append_assoc. change ("/" +:+ x) with (String Path.sep x).
    change "/" with (String Path.sep "").
    rewrite !split_app, Hsplit. change (Str.split Path.sep "") with [""].
    rewrite !norm_comps_app.
    change (Path.norm_comps true (rev (Path.norm_comps true [] (Str.split Path.sep d'))) [""])
      with (rev (rev (Path.norm_comps true [] (Str.split Path.sep d')))).
    rewrite !rev_involutive.
    rewrite plain_name_step by assumption. simpl. rewrite rev_involutive. reflexivity.
  - split; [apply startswith_app; exact Habs|].
    rewrite (parts_abs cwd d Habs).
    rewrite parts_abs by (apply startswith_app; exact Habs).
    change ("/" +:+ x) with (String Path.sep x).
    rewrite split_app, Hsplit, norm_comps_app.
    rewrite plain_name_step by assumption. simpl. rewrite rev_involutive. reflexivity.
Qed.

Lemma join_names (cwd d : string) (l : list string) :
  Path.isabs d = true -> Forall plain_name l ->
  Path.isabs (Path.join d l) = true /\
  Path.parts cwd (Path.join d l) = Path.parts cwd d ++ l.
Proof.
  intros Habs Hl. revert d Habs. induction Hl as [|x l Hx Hl IH]; intros d Habs.
  - simpl. rewrite app_nil_r. auto.
  - unfold Path.join. simpl fold_left. fold (Path.join (Path.join2 d x) l).
    destruct (join2_name cwd d x Habs Hx) as [Ha Hp].
    destruct (IH _ Ha) as [Ha' Hp']. split; [exact Ha'|].
    rewrite Hp', Hp, <- app_assoc. reflexivity.
Qed.

(** *** [os.path.join] on names is [str.join] *)

Lemma endswith_without (x : string) : Str.mem Path.sep x = false -> Str.endswith "/" x = false.
Proof.
  induction x as [|c x IH]; [reflexivity|].
  rewrite mem_cons, endswith_cons. intros H. apply orb_false_elim in H as [Hc Hx].
  rewrite (IH Hx), orb_false_r. apply String.eqb_neq. intros [= -> _]. discriminate.
Qed.

Lemma join_from (P : string) (l : list string) :
  P <> "" -> Str.endswith "/" P = false -> Forall plain_name l ->
  Path.join P l = Str.join "/" (P :: l).
Proof.
  intros HP He Hl. revert P HP He. induction Hl as [|x l Hx Hl IH]; intros P HP He.
  - reflexivity.
  - unfold Path.join. simpl fold_left. fold (Path.join (Path.join2 P x) l).
    rewrite join2_plain by (auto using plain_name_relative).
    rewrite IH.
    + destruct l as [|y l]; [reflexivity|].
      rewrite !join_cons2, !append_assoc. reflexivity.
    + intros E. apply append_eq_nil in E. destruct E; contradiction.
    + destruct Hx as (Hne & _ & _ & Hsep).
      rewrite endswith_app.
      * change ("/" +:+ x) with (String Path.sep x). rewrite endswith_cons.
        rewrite (endswith_without x Hsep), orb_false_r.
        apply String.eqb_neq. intros [= E]. contradiction.
      * discriminate.
      * simpl. lia.
Qed.

Lemma join_plain_names (a : string) (l : list string) :
  Forall plain_name (a :: l) -> Path.join a l = Str.join "/" (a :: l).
Proof.
  intros H. inversion H as [|? ? Ha Hl]; subst.
  apply join_from; [| |assumption].
  - destruct Ha as (Hne & _). exact Hne.
  - apply endswith_without. destruct Ha as (_ & _ & _ & Hs). exact Hs.
Qed.

(** *** The path of a file relative to a directory above it *)

Lemma common_len_app (D X : list string) : Path.common_len D (D ++ X) = length D.
Proof.
  induction D as [|x D IH]; [reflexivity|].
  simpl. unfold Str.eqb. rewrite String.eqb_refl, IH. reflexivity.
Qed.

Lemma relpath_below (cwd fn start : string) (X : list string) :
  fn <> "" -> X <> [] -> Forall plain_name X ->
  Path.parts cwd fn = Path.parts cwd start ++ X ->
  Path.relpath cwd fn start = Ok (Str.join "/" X).
Proof.
  intros Hfn HX Hplain Hparts. unfold Path.relpath.
  apply str_eqb_neq in Hfn. rewrite Hfn, Hparts, common_len_app, Nat.sub_diag.
  rewrite drop_app_length. simpl repeat. simpl app.
  destruct X as [|a l]; [contradiction|].
  rewrite join_plain_names by assumption. reflexivity.
Qed.

(** The source name of a class file: its path below the disassembly root. *)
Lemma source_name_below (cwd d fn root : string) (segs : list string) :
  fn <> "" -> segs <> [] -> Forall plain_name (root :: segs) ->
  Path.parts cwd fn = Path.parts cwd d ++ root :: segs ->
  source_name_at (Some d) cwd fn = Ok (Str.join "/" segs).
Proof.
  intros Hfn Hsegs Hplain Hparts. unfold source_name_at. simpl default.
  rewrite (relpath_below cwd fn d (root :: segs)) by (assumption || discriminate).
  rewrite split_join by (discriminate || apply plain_names_without_sep; assumption).
  simpl tail. inversion Hplain as [|? ? _ Hs]; subst.
  destruct segs as [|s segs]; [contradiction|].
  unfold Path.join_star. rewrite join_plain_names by assumption. reflexivity.
Qed.

(** *** Removing the extension *)

Lemma prefix_cons (a b : ascii) (p s : string) :
  String.prefix (String a p) (String b s)
  = if ascii_dec a b then String.prefix p s else false.
Proof. reflexivity. Qed.

Lemma prefix_nil (s : string) : String.prefix "" s = true.
Proof. destruct s; reflexivity. Qed.

(** An occurrence of the extension cannot start inside a stem and end
    inside the extension that follows it. *)
Lemma no_straddle (s : string) :
  s <> "" -> String.prefix ".smali" s = false ->
  String.prefix ".smali" (s +:+ ".smali") = false.
Proof.
  intros Hne H.
  destruct s as [|c1 s]; [contradiction|]. clear Hne.
  change (String c1 s +:+ ".smali") with (String c1 (s +:+ ".smali")).
  rewrite prefix_cons in *. destruct (ascii_dec "." c1); [subst c1|reflexivity].
  destruct s as [|c2 s]; [reflexivity|].
  change (String c2 s +:+ ".smali") with (String c2 (s +:+ ".smali")).
  rewrite prefix_cons in *. destruct (ascii_dec "s" c2); [subst c2|reflexivity].
  destruct s as [|c3 s]; [reflexivity|].
  change (String c3 s +:+ ".smali") with (String c3 (s +:+ ".smali")).
  rewrite prefix_cons in *. destruct (ascii_dec "m" c3); [subst c3|reflexivity].
  destruct s as [|c4 s]; [reflexivity|].
  change (String c4 s +:+ ".smali") with (String c4 (s +:+ ".smali")).
  rewrite prefix_cons in *. destruct (ascii_dec "a" c4); [subst c4|reflexivity].
  destruct s as [|c5 s]; [reflexivity|].
  change (String c5 s +:+ ".smali") with (String c5 (s +:+ ".smali")).
  rewrite prefix_cons in *. destruct (ascii_dec "l" c5); [subst c5|reflexivity].
  destruct s as [|c6 s]; [reflexivity|].
  change (String c6 s +:+ ".smali") with (String c6 (s +:+ ".smali")).
  rewrite prefix_cons in *. destruct (ascii_dec "i" c6); [subst c6|reflexivity].
  rewrite prefix_nil in H. discriminate.
Qed.

Lemma contains_cons (p : string) (c : ascii) (s : string) :
  Str.contains p (String c s) = String.prefix p (String c s) || Str.contains p s.
Proof. reflexivity. Qed.

Lemma remove_from_cons (old : string) (c : ascii) (s : string) :
  Str.remove_from old 0 (String c s)
  = if String.prefix old (String c s)
    then Str.remove_from old (Nat.pred (String.length old)) s
    else String c (Str.remove_from old 0 s).
Proof. reflexivity. Qed.

(** Where [.smali] occurs only as the extension, [replace] drops just it. *)
Lemma remove_extension (stem : string) :
  Str.contains ".smali" stem = false ->
  Str.remove ".smali" (stem +:+ ".smali") = stem.
Proof.
  unfold Str.remove. induction stem as [|c stem IH]; intros H; [reflexivity|].
  rewrite contains_cons in H. apply orb_false_elim in H as [Hp Hc].
  change (String c stem +:+ ".smali") with (String c (stem +:+ ".smali")).
  rewrite remove_from_cons.
  change (String c (stem +:+ ".smali")) with (String c stem +:+ ".smali").
  rewrite no_straddle by (assumption || discriminate).
  rewrite IH by assumption. reflexivity.
Qed.

(** ** Where the enumerations and the type names differ from what is claimed *)


(** C3 as stated fails: two distinct class files of one package, one in
    each disassembly root, have the same type name. *)
Lemma dalvik_type_collision_counterexample :
  (disassembled_classes Demo.multidex).1
  = Ok (VList ["/w/smali/a/B.smali"; "/w/smali_classes2/a/B.smali"]) /\
  "/w/smali/a/B.smali" <> "/w/smali_classes2/a/B.smali" /\
  (dalvik_type_of_disassembled_class "/w/smali/a/B.smali" Demo.multidex).1 = Ok "La/B;" /\
  (dalvik_type_of_disassembled_class "/w/smali_classes2/a/B.smali" Demo.multidex).1
  = Ok "La/B;".
Proof. vm_compute. repeat split; try reflexivity. discriminate. Qed.

(** ** Type names of class files *)

Lemma append_inj_last (a b : string) (c : ascii) :
  a +:+ String c "" = b +:+ String c "" -> a = b.
Proof.
  revert b. induction a as [|x a IH]; intros [|y b] H; simpl in H.
  - reflexivity.
  - injection H as _ H. symmetry in H. apply append_eq_nil in H. destruct H; discriminate.
  - injection H as _ H. apply append_eq_nil in H. destruct H; discriminate.
  - injection H as -> H. f_equal. apply IH. exact H.
Qed.

Section DalvikTypeProperties.

Context {ext : External}.

Lemma source_name_run fn p :
  source_name_of_disassembled_class fn p
  = (source_name_at (wd (self p)) (cwd (world p)) fn, p).
Proof. reflexivity. Qed.

Lemma dalvik_type_of_class (p : Proc) (d root fn : string) (segs : list string) (stem : string) :
  wd (self p) = Some d ->
  class_file_at (cwd (world p)) d fn root segs stem ->
  dalvik_type_of_disassembled_class fn p = (Ok ("L" +:+ stem +:+ ";"), p).
Proof.
  intros Hwd (Hfn & Hparts & Hplain & Hjoin & Hstem).
  assert (Hsegs : segs <> []).
  { intros ->. simpl in Hjoin. symmetry in Hjoin. apply append_eq_nil in Hjoin.
    destruct Hjoin; discriminate. }
  unfold dalvik_type_of_disassembled_class, mbind, M_bind, bind.
  rewrite source_name_run, Hwd.
  rewrite (source_name_below _ d fn root segs) by assumption.
  rewrite Hjoin, remove_extension by assumption. reflexivity.
Qed.

(** C3, amended: for a class file below a disassembly root whose relative
    path holds [.smali] only as its extension, the type name is the path
    transform: the root segment is dropped, the remaining segments are
    joined by [/], the extension is removed and the result is wrapped
    as [L...;].  Among the class files of one disassembly root the
    mapping is injective: equal type names mean equal segments, hence the
    same file.  (The root takes no part in the name: files of different
    roots with the same segments share their type name.) *)
Theorem dalvik_type_within_root (p : Proc) (d root fn1 fn2 : string)
    (segs1 segs2 : list string) (stem1 stem2 : string) :
  wd (self p) = Some d ->
  class_file_at (cwd (world p)) d fn1 root segs1 stem1 ->
  class_file_at (cwd (world p)) d fn2 root segs2 stem2 ->
  dalvik_type_of_disassembled_class fn1 p = (Ok ("L" +:+ stem1 +:+ ";"), p) /\
  dalvik_type_of_disassembled_class fn2 p = (Ok ("L" +:+ stem2 +:+ ";"), p) /\
  ("L" +:+ stem1 +:+ ";" = "L" +:+ stem2 +:+ ";" ->
   segs1 = segs2 /\ Path.parts (cwd (world p)) fn1 = Path.parts (cwd (world p)) fn2).
Proof.
  intros Hwd H1 H2.
  split; [eapply dalvik_type_of_class; eassumption|].
  split; [eapply dalvik_type_of_class; eassumption|].
  intros E. apply append_inj_l in E. apply append_inj_last in E. subst stem2.
  destruct H1 as (_ & Hp1 & Hn1 & Hj1 & _). destruct H2 as (_ & Hp2 & Hn2 & Hj2 & _).
  assert (Hne : forall segs, Str.join "/" segs = stem1 +:+ ".smali" -> segs <> []).
  { intros segs Hj ->. simpl in Hj. symmetry in Hj. apply append_eq_nil in Hj.
    destruct Hj; discriminate. }
  assert (segs1 = segs2).
  { apply join_inj; auto.
    - apply plain_names_without_sep. inversion Hn1; assumption.
    - apply plain_names_without_sep. inversion Hn2; assumption.
    - congruence. }
  subst segs2. split; [reflexivity | congruence].
Qed.

End DalvikTypeProperties.

Lemma dalvik_type_within_root_witness :
  dalvik_type_of_disassembled_class "/w/smali/a/B.smali" Demo.multidex
  = (Ok ("L" +:+ "a/B" +:+ ";"), Demo.multidex) /\
  dalvik_type_of_disassembled_class "/w/smali/a/b/Main.smali" Demo.multidex
  = (Ok ("L" +:+ "a/b/Main" +:+ ";"), Demo.multidex) /\
  ("L" +:+ "a/B" +:+ ";" = "L" +:+ "a/b/Main" +:+ ";" ->
   ["a"; "B.smali"] = ["a"; "b"; "Main.smali"] /\
   Path.parts (cwd (world Demo.multidex)) "/w/smali/a/B.smali"
   = Path.parts (cwd (world Demo.multidex)) "/w/smali/a/b/Main.smali").
Proof.
  apply (dalvik_type_within_root Demo.multidex "/w" "smali").
  - reflexivity.
  - repeat split; try discriminate; try reflexivity.
    repeat constructor; discriminate.
  - repeat split; try discriminate; try reflexivity.
    repeat constructor; discriminate.
Defined.

(** ** The directory that [glob] lists *)












(** ** Trees without class or resource files *)

Lemma node_rect_entries (P : FS.node -> Prop) :
  (forall data, P (FS.File data)) ->
  (forall es, Forall (fun e => P e.2) es -> P (FS.Dir es)) ->
  forall n, P n.
Proof.
  intros Hfile Hdir.
  fix IH 1. intros [data|es]; [apply Hfile|].
  apply Hdir. induction es as [|[name x] es IHes]; constructor; [apply IH | exact IHes].
Qed.


Lemma walk_dir (top : string) (es : list (string * FS.node)) :
  FS.walk top (FS.Dir es)
  = (top, FS.subdirs es, FS.nondirs es)
      :: flat_map (fun e => if FS.is_dir e.2 then FS.walk (Path.join2 top e.1) e.2 else []) es.
Proof.
  simpl. f_equal. induction es as [|[name x] es IH]; [reflexivity|].
  simpl. rewrite IH. reflexivity.
Qed.




Lemma find_elem (name : string) (es : list (string * FS.node)) (x : FS.node) :
  FS.find name es = Some x -> (name, x) ∈ es.
Proof.
  induction es as [|[n y] es IH]; [discriminate|].
  simpl. destruct (Str.eqb n name) eqn:E.
  - apply str_eqb_eq in E. subst. intros [= ->]. left.
  - intros H. right. apply IH. exact H.
Qed.


Lemma resolve_app (l1 l2 : list string) (n : FS.node) :
  FS.resolve (l1 ++ l2) n
  = match FS.resolve l1 n with
    | Some x => FS.resolve l2 x
    | None => None
    end.
Proof.
  revert n. induction l1 as [|c l1 IH]; intros n; [reflexivity|].
  simpl. destruct n as [data|es]; [reflexivity|].
  destruct (FS.find c es); [apply IH | reflexivity].
Qed.

Section EmptyEnumerations.

Context {ext : External}.















End EmptyEnumerations.


(** A root that exists and is empty: the home directory of the demo. *)
Example enumerations_of_existing_empty_root :
  let p := {| self := set_wd (Some "/home/user") Context_init; world := Demo.world0 |} in
  resolve_path (world p) "/home/user" = Some (FS.Dir []) /\
  (disassembled_classes p).1 = Ok (VList []) /\
  (disassembled_resources p).1 = Ok (VList []).
Proof. vm_compute. repeat split; reflexivity. Qed.

(** ** Methods called out of order, and failed fingerprints *)

Section OrderProperties.

Context {ext : External}.

Definition no_wd_error : exn :=
  TypeError "expected str, bytes or os.PathLike object, not NoneType".

Lemma need_wd_none (p : Proc) : wd (self p) = None -> need_wd p = (Raise no_wd_error, p).
Proof. intros H. unfold need_wd, mbind, M_bind, bind, gets. rewrite H. reflexivity. Qed.

(** A miss on a context without a working directory: the empty entry is
    created, the fill fails at once, the entry stays. *)
Lemma memo_rec_no_wd key fill depth (p : Proc) :
  (forall q, wd (self q) = None -> fill q = (Raise no_wd_error, q)) ->
  wd (self p) = None ->
  state (self p) !! key = None ->
  memo_rec key fill (S depth) p
  = (Raise no_wd_error,
     with_self (fun c => set_state (<[key := VList []]> (state c)) c) p).
Proof.
  intros Hfill Hwd Hmiss.
  change (memo_rec key fill (S depth) p) with
    (try_except (state_get key) is_KeyError
       (state_set key (VList []);; fill;; memo_rec key fill depth) p).
  unfold try_except, state_get. rewrite Hmiss. simpl is_KeyError. cbv iota.
  unfold mbind at 1. unfold M_bind, bind, state_set, modify.
  apply bind_raise. apply Hfill. exact Hwd.
Qed.

Lemma memo_rec_early key fill (p : Proc) :
  (forall q, wd (self q) = None -> fill q = (Raise no_wd_error, q)) ->
  wd (self p) = None ->
  state (self p) !! key = None ->
  memo_rec key fill recursion_limit p
  = (Raise no_wd_error,
     with_self (fun c => set_state (<[key := VList []]> (state c)) c) p).
Proof. change recursion_limit with (S 999). apply memo_rec_no_wd. Qed.

Lemma classes_fill_no_wd q : wd (self q) = None -> classes_fill q = (Raise no_wd_error, q).
Proof. intros H. apply bind_raise, need_wd_none, H. Qed.

Lemma resources_fill_no_wd q : wd (self q) = None -> resources_fill q = (Raise no_wd_error, q).
Proof. intros H. apply bind_raise, need_wd_none, H. Qed.

Lemma strings_fill_no_wd q : wd (self q) = None -> strings_fill q = (Raise no_wd_error, q).
Proof. intros H. apply bind_raise, need_wd_none, H. Qed.

Lemma memo_rec_poisoned key fill (p : Proc) (w : World) (d : option string) :
  let q := with_self (fun c => set_state (<[key := VList []]> (state c)) c) p in
  let later := {| self := set_wd d (self q); world := w |} in
  memo_rec key fill recursion_limit later = (Ok (VList []), later).
Proof.
  intros q later. change recursion_limit with (S 999).
  apply memo_rec_hit. simpl. apply lookup_insert_eq.
Qed.

(** X1: on a context that was never analysed, [store] fails its assertion
    and caches nothing.  Each of the three enumerations raises the
    TypeError of [os.path.join(None, ...)] and reads nothing - but the
    empty list it created first stays in the cache, so every later call
    on that context returns the empty list, in any world and also once a
    working directory is set. *)
Theorem methods_before_analysis (p : Proc) :
  wd (self p) = None ->
  state (self p) !! classes_key = None ->
  state (self p) !! resources_key = None ->
  state (self p) !! strings_key = None ->
  store p = (Raise AssertionError, p) /\
  (let first := disassembled_classes p in
   first.1 = Raise no_wd_error /\ world first.2 = world p /\
   forall w d, let later := {| self := set_wd d (self first.2); world := w |} in
               disassembled_classes later = (Ok (VList []), later)) /\
  (let first := disassembled_resources p in
   first.1 = Raise no_wd_error /\ world first.2 = world p /\
   forall w d, let later := {| self := set_wd d (self first.2); world := w |} in
               disassembled_resources later = (Ok (VList []), later)) /\
  (let first := string_resource_files p in
   first.1 = Raise no_wd_error /\ world first.2 = world p /\
   forall w d, let later := {| self := set_wd d (self first.2); world := w |} in
               string_resource_files later = (Ok (VList []), later)).
Proof.
  intros Hwd Hc Hr Hs. split.
  { unfold store. change recursion_limit with (S 999). simpl.
    unfold mbind, M_bind, bind, gets. rewrite Hwd. reflexivity. }
  split; [|split]; cbv zeta.
  - rewrite !(disassembled_classes_memo p).
    rewrite !(memo_rec_early _ _ _ classes_fill_no_wd Hwd Hc). cbn [fst snd].
    split; [reflexivity|]. split; [reflexivity|].
    intros w d. rewrite disassembled_classes_memo. apply memo_rec_poisoned.
  - rewrite !(disassembled_resources_memo p).
    rewrite !(memo_rec_early _ _ _ resources_fill_no_wd Hwd Hr). cbn [fst snd].
    split; [reflexivity|]. split; [reflexivity|].
    intros w d. rewrite disassembled_resources_memo. apply memo_rec_poisoned.
  - rewrite !(string_resource_files_memo p).
    rewrite !(memo_rec_early _ _ _ strings_fill_no_wd Hwd Hs). cbn [fst snd].
    split; [reflexivity|]. split; [reflexivity|].
    intros w d. rewrite string_resource_files_memo. apply memo_rec_poisoned.
Qed.

(** X2: the handle of the Fact Store is created by the first call of
    [store], for the working directory of that call, and kept in the
    state; the call touches nothing else, and every later call returns
    the same handle, whatever the world. *)
Theorem store_opened_once (p : Proc) (d : string) :
  wd (self p) = Some d ->
  state (self p) !! store_key = None ->
  let first := store p in
  first = (Ok (VStore d),
           with_self (fun c => set_state (<[store_key := VStore d]> (state c)) c) p) /\
  forall w, let later := {| self := self first.2; world := w |} in
            store later = (Ok (VStore d), later).
Proof.
  intros Hwd Hmiss first. subst first. unfold store.
  change recursion_limit with (S (S 998)).
  rewrite (store_rec_miss _ _ _ Hwd Hmiss). split; [reflexivity|].
  intros w. apply (store_rec_hit 999 _ d); [exact Hwd|].
  simpl. apply lookup_insert_eq.
Qed.

Lemma disassembled_classes_hit (p : Proc) (v : pyval) :
  state (self p) !! classes_key = Some v -> disassembled_classes p = (Ok v, p).
Proof.
  intros H. rewrite disassembled_classes_memo. change recursion_limit with (S 999).
  apply memo_rec_hit. exact H.
Qed.

Lemma mapM_nil {A B} (f : A -> M Proc B) p : mapM f [] p = (Ok [], p).
Proof. reflexivity. Qed.

(** X3: an enumeration of the classes before [analyze] spoils the
    ingestion.  On a fresh context whose cache directory does not exist
    yet, [analyze] then still creates the directory and runs the
    disassembler, but finds the empty list cached: no directory is
    scanned, no class file is read, and the parser is given the empty
    text, whatever the disassembler wrote. *)
Theorem analyze_after_early_enumeration (w : World) (apk : string) (skip_resources : bool)
    (d : string) (root : FS.node) :
  workdir_in w apk = Ok d ->
  FS.makedirs (Path.parts (cwd w) d) (fs w) = Some root ->
  let early := (disassembled_classes {| self := Context_init; world := w |}).2 in
  let run := analyze apk skip_resources early in
  let cmd := apktool_command apk skip_resources d in
  let parsed := smali_analyze "" (default empty_facts (stores w !! d)) in
  run.1 = match parsed.2 with Some e => Raise e | None => Ok tt end /\
  trace (world run.2) = trace w ++ [Exec cmd; Parse ""] /\
  fs (world run.2) = os_system cmd root /\
  stores (world run.2) = <[d := parsed.1]> (stores w) /\
  wd (self run.2) = Some d.
Proof.
  intros Hd Hmk. cbv zeta.
  set (cmd := apktool_command apk skip_resources d).
  set (parsed := smali_analyze "" (default empty_facts (stores w !! d))).
  rewrite !(disassembled_classes_memo {| self := Context_init; world := w |}).
  rewrite !(memo_rec_early _ _ _ classes_fill_no_wd) by reflexivity.
  cbn [snd].
  match goal with |- context [analyze ?a ?s ?q] => eassert (E : analyze a s q = _) end.
  { rewrite analyze_unanalyzed by reflexivity.
    rewrite workdir_of_in. cbn [world with_self]. rewrite Hd.
    unfold ingest, try_except_else, os_makedirs. cbn [world with_self cwd fs]. rewrite Hmk.
    fold (apktool_command apk skip_resources d). fold cmd.
    unfold os_system_call, emit, modify.
    unfold mbind at 1. unfold M_bind, bind.
    unfold mbind at 1. unfold M_bind, bind.
    unfold store.
    match goal with |- (_ ≫= _) ?q = _ =>
      rewrite (bind_ok _ _ q _ _ (store_rec_miss 998 q d eq_refl eq_refl)) end.
    match goal with |- (_ ≫= _) ?q = _ =>
      rewrite (bind_ok _ _ q _ _ (disassembled_classes_hit q (VList []) eq_refl)) end.
    unfold mbind at 1. unfold M_bind, bind. rewrite mapM_nil.
    unfold smali_analyze_call, emit, modify, mbind, M_bind, bind, gets.
    cbn [world with_world with_self set_trace set_fs stores trace fs].
    change (Str.join newline []) with "". fold parsed.
    reflexivity. }
  rewrite !E. clear E.
  destruct parsed as [content [e|]]; cbn; repeat split; rewrite <- app_assoc; reflexivity.
Qed.

(** X4: when the working directory cannot be chosen - the archive is
    missing, it holds no manifest entry, or [HOME] is not set - [analyze]
    raises that error with the world untouched and the context changed in
    its [apk] field only.  The working directory stays unset: a later
    call is not refused, and behaves as it would have on the context
    before the failure. *)
Theorem analyze_failed_fingerprint (p : Proc) (apk : string) (skip_resources : bool) (e : exn) :
  wd (self p) = None ->
  workdir_in (world p) apk = Raise e ->
  let failed := analyze apk skip_resources p in
  failed = (Raise e, with_self (set_apk (Some apk)) p) /\
  forall apk' skip', analyze apk' skip' failed.2 = analyze apk' skip' p.
Proof.
  intros Hwd He failed. subst failed.
  rewrite analyze_unanalyzed by exact Hwd.
  rewrite workdir_of_in. cbn [world with_self]. rewrite He.
  split; [reflexivity|]. intros apk' skip'. cbn [snd].
  rewrite !analyze_unanalyzed by exact Hwd. reflexivity.
Qed.

End OrderProperties.

Lemma methods_before_analysis_witness :
  store Demo.fresh = (Raise AssertionError, Demo.fresh) /\
  (disassembled_classes Demo.fresh).1 = Raise no_wd_error /\
  disassembled_classes
    {| self := set_wd (Some Demo.cache_dir) (self (disassembled_classes Demo.fresh).2);
       world := Demo.after_first_run |}
  = (Ok (VList []),
     {| self := set_wd (Some Demo.cache_dir) (self (disassembled_classes Demo.fresh).2);
        world := Demo.after_first_run |}).
Proof.
  destruct (methods_before_analysis Demo.fresh) as (H1 & (H2 & _ & H3) & _);
    try reflexivity.
  split; [exact H1|]. split; [exact H2|].
  apply (H3 Demo.after_first_run (Some Demo.cache_dir)).
Defined.

Lemma store_opened_once_witness :
  store {| self := self (store Demo.multidex).2; world := Demo.world0 |}
  = (Ok (VStore "/w"), {| self := self (store Demo.multidex).2; world := Demo.world0 |}).
Proof.
  apply (proj2 (store_opened_once Demo.multidex "/w" eq_refl eq_refl) Demo.world0).
Defined.

Lemma analyze_after_early_enumeration_witness :
  let early := (disassembled_classes Demo.fresh).2 in
  let run := analyze "/tmp/app.apk" false early in
  run.1 = Ok tt /\
  trace (world run.2)
  = [Exec (apktool_command "/tmp/app.apk" false Demo.cache_dir); Parse ""] /\
  (disassembled_classes Demo.analysed).1
  = Ok (VList [Demo.cache_dir +:+ "/smali/Main.smali";
               Demo.cache_dir +:+ "/smali/com/app/Home.smali"]).
Proof.
  destruct (analyze_after_early_enumeration Demo.world0 "/tmp/app.apk" false Demo.cache_dir
              (FS.Dir [("home", FS.Dir [("user", FS.Dir [(".trueseeing2",
                 FS.fresh (skipn 3 (Path.parts "/" Demo.cache_dir)))])])]))
    as (H1 & H2 & _).
  - vm_compute. reflexivity.
  - vm_compute. reflexivity.
  - split; [exact H1|]. split; [exact H2|]. vm_compute. reflexivity.
Defined.

Lemma analyze_failed_fingerprint_witness :
  analyze "/tmp/unsigned.apk" false Demo.fresh
  = (Raise (KeyError "There is no item named 'META-INF/MANIFEST.MF' in the archive"),
     with_self (set_apk (Some "/tmp/unsigned.apk")) Demo.fresh) /\
  analyze "/tmp/app.apk" false (analyze "/tmp/unsigned.apk" false Demo.fresh).2
  = analyze "/tmp/app.apk" false Demo.fresh.
Proof.
  destruct (analyze_failed_fingerprint Demo.fresh "/tmp/unsigned.apk" false
              (KeyError "There is no item named 'META-INF/MANIFEST.MF' in the archive"))
    as [H1 H2].
  - reflexivity.
  - vm_compute. reflexivity.
  - split; [exact H1 | apply H2].
Defined.

(** ** The first analysis of a package *)

Section IngestProperties.

Context {ext : External}.

Definition traced (es : list event) (p : Proc) : Proc :=
  with_world (fun w => set_trace (trace w ++ es) w) p.



Lemma walk_in_traced es p top : walk_in (world (traced es p)) top = walk_in (world p) top.
Proof. reflexivity. Qed.












End IngestProperties.


(** ** Walks of a well-formed tree *)

Lemma plain_nameb_spec (x : string) : plain_nameb x = true <-> plain_name x.
Proof.
  unfold plain_nameb, plain_name.
  rewrite !andb_true_iff, !negb_true_iff, !str_eqb_neq. tauto.
Qed.

Lemma tree_ok_dir (es : list (string * FS.node)) :
  tree_ok (FS.Dir es)
  = forallb plain_nameb (map fst es) && distinct (map fst es)
    && forallb (fun e => tree_ok e.2) es.
Proof.
  simpl. f_equal. induction es as [|[name x] es IH]; [reflexivity|].
  simpl. rewrite IH. reflexivity.
Qed.

Lemma tree_ok_entries (es : list (string * FS.node)) :
  tree_ok (FS.Dir es) = true ->
  Forall (fun e => plain_name e.1) es /\ distinct (map fst es) = true /\
  Forall (fun e => tree_ok e.2 = true) es.
Proof.
  rewrite tree_ok_dir, !andb_true_iff. intros [[Hp Hd] Hs].
  split; [|split; [exact Hd|]].
  - rewrite forallb_forall in Hp. apply Forall_forall. intros e He.
    apply plain_nameb_spec, Hp, in_map, list_elem_of_In, He.
  - rewrite forallb_forall in Hs. apply Forall_forall. intros e He.
    apply Hs, list_elem_of_In, He.
Qed.

Lemma find_distinct (name : string) (x : FS.node) (es : list (string * FS.node)) :
  distinct (map fst es) = true -> (name, x) ∈ es -> FS.find name es = Some x.
Proof.
  induction es as [|[n y] es IH]; intros Hd Hin; [inversion Hin|].
  simpl in Hd. apply andb_true_iff in Hd as [Hn Hd]. apply negb_true_iff in Hn.
  simpl. apply elem_of_cons in Hin as [E|Hin].
  - injection E as <- <-. unfold Str.eqb. rewrite String.eqb_refl. reflexivity.
  - destruct (Str.eqb n name) eqn:E.
    + exfalso. apply str_eqb_eq in E. subst n.
      assert (existsb (Str.eqb name) (map fst es) = true); [|congruence].
      apply existsb_exists. exists name. split.
      * apply in_map_iff. exists (name, x). split; [reflexivity|].
        apply list_elem_of_In. exact Hin.
      * unfold Str.eqb. apply String.eqb_refl.
    + apply IH; assumption.
Qed.

Lemma resolve_tree_ok (l : list string) (n n' : FS.node) :
  tree_ok n = true -> FS.resolve l n = Some n' -> tree_ok n' = true.
Proof.
  revert n. induction l as [|c l IH]; intros n Hok H.
  - injection H as <-. exact Hok.
  - simpl in H. destruct n as [data|es]; [discriminate|].
    destruct (FS.find c es) as [x|] eqn:E; [|discriminate].
    apply IH with x; [|exact H].
    apply tree_ok_entries in Hok as (_ & _ & Hs).
    rewrite Forall_forall in Hs. apply (Hs (c, x)). apply find_elem. exact E.
Qed.

Lemma resolve_snoc_dir (l : list string) (c : string) (n x : FS.node) :
  FS.resolve (l ++ [c]) n = Some x ->
  exists es, FS.resolve l n = Some (FS.Dir es) /\ FS.find c es = Some x.
Proof.
  rewrite resolve_app. destruct (FS.resolve l n) as [[data|es]|]; try discriminate.
  simpl. destruct (FS.find c es) as [y|] eqn:E; [|discriminate].
  intros [= <-]. eauto.
Qed.

Lemma nondirs_file (es : list (string * FS.node)) (f : string) :
  f ∈ FS.nondirs es <-> exists data, (f, FS.File data) ∈ es.
Proof.
  unfold FS.nondirs. split.
  - intros H. apply list_elem_of_fmap in H as ([name x] & -> & H).
    apply list_elem_of_filter in H as [Hd H]. simpl in Hd.
    destruct x as [data|es']; [eauto | discriminate].
  - intros (data & H). apply list_elem_of_fmap. exists (f, FS.File data).
    split; [reflexivity|]. apply list_elem_of_filter. split; [reflexivity | exact H].
Qed.

(** Every triple of a walk is a directory of the tree, named by its path
    below the starting point. *)
Lemma walk_sound (cwd : string) (n : FS.node) :
  tree_ok n = true ->
  forall top t,
    Path.isabs top = true -> t ∈ FS.walk top n ->
    exists segs es,
      Forall plain_name segs /\ Path.isabs t.1.1 = true /\
      Path.parts cwd t.1.1 = Path.parts cwd top ++ segs /\
      FS.resolve segs n = Some (FS.Dir es) /\
      t.1.2 = FS.subdirs es /\ t.2 = FS.nondirs es.
Proof.
  induction n as [data|es IH] using node_rect_entries; intros Hok top t Habs Ht.
  - inversion Ht.
  - rewrite walk_dir in Ht. apply elem_of_cons in Ht as [->|Ht].
    + exists [], es. simpl. rewrite app_nil_r. repeat split; auto.
    + apply list_elem_of_In, in_flat_map in Ht. destruct Ht as (e & He & Ht).
      apply list_elem_of_In in He.
      destruct (FS.is_dir e.2) eqn:Hd; [|inversion Ht].
      apply list_elem_of_In in Ht.
      destruct (tree_ok_entries es Hok) as (Hplain & Hdist & Hsub).
      rewrite Forall_forall in IH, Hplain, Hsub.
      destruct (join2_name cwd top e.1 Habs (Hplain e He)) as [Habs' Hparts'].
      destruct (IH e He (Hsub e He) _ t Habs' Ht) as (segs & es' & Hs & Ha & Hp & Hr & H1 & H2).
      exists (e.1 :: segs), es'. repeat split; auto.
      * rewrite Hp, Hparts', <- app_assoc. reflexivity.
      * simpl. destruct e as [name x]. simpl in *.
        rewrite (find_distinct name x es Hdist He). exact Hr.
Qed.

(** Every directory of the tree has its triple in the walk. *)
Lemma walk_complete (cwd : string) (segs : list string) :
  forall n top es,
    tree_ok n = true -> Path.isabs top = true ->
    FS.resolve segs n = Some (FS.Dir es) ->
    exists root,
      (root, FS.subdirs es, FS.nondirs es) ∈ FS.walk top n /\
      Path.isabs root = true /\ Path.parts cwd root = Path.parts cwd top ++ segs.
Proof.
  induction segs as [|c segs IH]; intros n top es Hok Habs Hr.
  - injection Hr as ->. exists top. rewrite walk_dir, app_nil_r.
    split; [left | auto].
  - simpl in Hr. destruct n as [data|es0]; [discriminate|].
    destruct (FS.find c es0) as [x|] eqn:E; [|discriminate].
    apply find_elem in E.
    destruct (tree_ok_entries es0 Hok) as (Hplain & Hdist & Hsub).
    rewrite Forall_forall in Hplain, Hsub.
    destruct (join2_name cwd top c Habs (Hplain (c, x) E)) as [Habs' Hparts'].
    destruct (IH x (Path.join2 top c) es (Hsub (c, x) E) Habs' Hr) as (root & Hin & Ha & Hp).
    exists root. split; [|split; [exact Ha|]].
    + rewrite walk_dir. right. apply list_elem_of_In, in_flat_map.
      exists (c, x). split; [apply list_elem_of_In; exact E|].
      simpl. destruct x as [data|es']; [inversion Hin|]. apply list_elem_of_In. exact Hin.
    + rewrite Hp, Hparts', <- app_assoc. reflexivity.
Qed.

(** ** What the enumerations return on a well-formed tree *)

(** The files of the triples [ts] whose name passes [P], each joined to its
    directory. *)
Definition listed_files (P : string -> bool) (ts : list (string * list string * list string))
  : list string :=
  concat (map (fun t => map (fun f => Path.join t.1.1 [f]) (filter (fun f => P f = true) t.2)) ts).

Lemma elem_of_listed_files P ts fn :
  fn ∈ listed_files P ts <->
  exists t f, t ∈ ts /\ f ∈ t.2 /\ P f = true /\ fn = Path.join2 t.1.1 f.
Proof.
  unfold listed_files. split.
  - intros H. apply list_elem_of_In, in_concat in H. destruct H as (l & Hl & H).
    apply in_map_iff in Hl. destruct Hl as (t & <- & Ht).
    apply in_map_iff in H. destruct H as (f & <- & Hf).
    apply list_elem_of_In, list_elem_of_filter in Hf. destruct Hf as [HP Hf].
    exists t, f. split; [apply list_elem_of_In; exact Ht | auto].
  - intros (t & f & Ht & Hf & HP & ->). apply list_elem_of_In, in_concat.
    eexists. split.
    + apply in_map_iff. exists t. split; [reflexivity | apply list_elem_of_In; exact Ht].
    + apply in_map_iff. exists f. split; [reflexivity|].
      apply list_elem_of_In, list_elem_of_filter. auto.
Qed.


Lemma walk_files_sound (cwd : string) (n : FS.node) (top : string) P fn :
  tree_ok n = true -> Path.isabs top = true ->
  fn ∈ listed_files P (FS.walk top n) ->
  exists segs f data,
    P f = true /\ Forall plain_name (segs ++ [f]) /\ Path.isabs fn = true /\
    Path.parts cwd fn = Path.parts cwd top ++ segs ++ [f] /\
    FS.resolve (segs ++ [f]) n = Some (FS.File data).
Proof.
  intros Hok Habs H. apply elem_of_listed_files in H as (t & f & Ht & Hf & HP & ->).
  destruct (walk_sound cwd n Hok top t Habs Ht) as (segs & es & Hs & Ha & Hp & Hr & _ & H2).
  rewrite H2 in Hf. apply nondirs_file in Hf as (data & Hf).
  assert (Hes : tree_ok (FS.Dir es) = true) by (eapply resolve_tree_ok; eassumption).
  destruct (tree_ok_entries es Hes) as (Hplain & Hdist & _).
  rewrite Forall_forall in Hplain. specialize (Hplain _ Hf). simpl in Hplain.
  destruct (join2_name cwd t.1.1 f Ha Hplain) as [Ha' Hp'].
  exists segs, f, data. split; [exact HP|]. split; [|split; [exact Ha'|split]].
  - apply Forall_app. split; [exact Hs | constructor; [exact Hplain | constructor]].
  - rewrite Hp', Hp, <- app_assoc. reflexivity.
  - rewrite resolve_app, Hr. simpl. rewrite (find_distinct f _ es Hdist Hf). reflexivity.
Qed.

Lemma walk_files_complete (cwd : string) (n : FS.node) (top : string) (P : string -> bool)
    segs f data :
  tree_ok n = true -> Path.isabs top = true ->
  FS.resolve (segs ++ [f]) n = Some (FS.File data) -> P f = true ->
  exists fn, fn ∈ listed_files P (FS.walk top n) /\
             Path.parts cwd fn = Path.parts cwd top ++ segs ++ [f].
Proof.
  intros Hok Habs Hr HP. apply resolve_snoc_dir in Hr as (es & Hr & Hf).
  apply find_elem in Hf.
  destruct (walk_complete cwd segs n top es Hok Habs Hr) as (root & Hin & Ha & Hp).
  assert (Hes : tree_ok (FS.Dir es) = true) by (eapply resolve_tree_ok; eassumption).
  destruct (tree_ok_entries es Hes) as (Hplain & _ & _).
  rewrite Forall_forall in Hplain. specialize (Hplain _ Hf). simpl in Hplain.
  destruct (join2_name cwd root f Ha Hplain) as [_ Hp'].
  exists (Path.join2 root f). split.
  - apply elem_of_listed_files. exists (root, FS.subdirs es, FS.nondirs es), f.
    split; [exact Hin|]. split; [|auto]. apply nondirs_file. eauto.
  - rewrite Hp', Hp, <- app_assoc. reflexivity.
Qed.

Section Enumerated.

Context {ext : External}.

Lemma walk_in_at (w : World) (d top : string) (pre : list string) (tree : FS.node) :
  resolve_path w d = Some tree ->
  Path.parts (cwd w) top = Path.parts (cwd w) d ++ pre ->
  walk_in w top = match FS.resolve pre tree with
                  | Some n => FS.walk top n
                  | None => []
                  end.
Proof.
  intros Hd Hp. unfold walk_in, resolve_path in *. rewrite Hp, resolve_app, Hd. reflexivity.
Qed.

Lemma resolve_path_at (w : World) (d fn : string) (l : list string) (tree : FS.node) :
  resolve_path w d = Some tree ->
  Path.parts (cwd w) fn = Path.parts (cwd w) d ++ l ->
  resolve_path w fn = FS.resolve l tree.
Proof.
  intros Hd Hp. unfold resolve_path in *. rewrite Hp, resolve_app, Hd. reflexivity.
Qed.

(** The files that pass [P] in a walk that starts at [pre] below the
    working directory. *)
Lemma enumerated_sound (w : World) (d top : string) (pre : list string) (tree : FS.node) P fn :
  resolve_path w d = Some tree -> tree_ok tree = true ->
  Path.isabs top = true -> Path.parts (cwd w) top = Path.parts (cwd w) d ++ pre ->
  fn ∈ listed_files P (walk_in w top) ->
  exists segs f data,
    P f = true /\ Forall plain_name (segs ++ [f]) /\ Path.isabs fn = true /\
    Path.parts (cwd w) fn = Path.parts (cwd w) d ++ pre ++ segs ++ [f] /\
    FS.resolve (pre ++ segs ++ [f]) tree = Some (FS.File data) /\
    resolve_path w fn = Some (FS.File data).
Proof.
  intros Hd Hok Habs Hp H. rewrite (walk_in_at w d top pre tree Hd Hp) in H.
  destruct (FS.resolve pre tree) as [n|] eqn:Hn; [|inversion H].
  assert (Hokn : tree_ok n = true) by (eapply resolve_tree_ok; eassumption).
  destruct (walk_files_sound (cwd w) n top P fn Hokn Habs H)
    as (segs & f & data & HP & Hs & Ha & Hparts & Hr).
  exists segs, f, data.
  assert (Hparts' : Path.parts (cwd w) fn = Path.parts (cwd w) d ++ pre ++ segs ++ [f]).
  { rewrite Hparts, Hp, <- app_assoc. reflexivity. }
  assert (Hr' : FS.resolve (pre ++ segs ++ [f]) tree = Some (FS.File data)).
  { rewrite resolve_app, Hn. exact Hr. }
  repeat split; auto.
  rewrite (resolve_path_at w d fn _ tree Hd Hparts'). exact Hr'.
Qed.

Lemma enumerated_complete (w : World) (d top : string) (pre : list string) (tree : FS.node)
    (P : string -> bool) segs f data :
  resolve_path w d = Some tree -> tree_ok tree = true ->
  Path.isabs top = true -> Path.parts (cwd w) top = Path.parts (cwd w) d ++ pre ->
  FS.resolve (pre ++ segs ++ [f]) tree = Some (FS.File data) -> P f = true ->
  exists fn, fn ∈ listed_files P (walk_in w top) /\
             Path.parts (cwd w) fn = Path.parts (cwd w) d ++ pre ++ segs ++ [f].
Proof.
  intros Hd Hok Habs Hp Hr HP. rewrite (walk_in_at w d top pre tree Hd Hp).
  rewrite resolve_app in Hr.
  destruct (FS.resolve pre tree) as [n|] eqn:Hn; [|discriminate].
  assert (Hokn : tree_ok n = true) by (eapply resolve_tree_ok; eassumption).
  destruct (walk_files_complete (cwd w) n top P segs f data Hokn Habs Hr HP) as (fn & Hin & Hparts).
  exists fn. split; [exact Hin|]. rewrite Hparts, Hp, <- app_assoc. reflexivity.
Qed.

Lemma resource_files_listed (w : World) (d : string) :
  resource_files w d
  = listed_files (Str.endswith ".xml") (walk_in w (Path.join d ["res"])).
Proof.
  unfold resource_files, listed_files. f_equal. apply map_ext.
  intros [[root dirs] files]. reflexivity.
Qed.

Lemma string_files_listed (w : World) (d : string) :
  string_files w d
  = listed_files (Str.contains "strings") (walk_in w (Path.join d ["res"; "values"])).
Proof.
  unfold string_files, listed_files. f_equal. apply map_ext.
  intros [[root dirs] files]. reflexivity.
Qed.


(** *** The roots that [glob] finds *)







End Enumerated.

(** ** The enumerations, exactly *)

Section ExactEnumerations.

Context {ext : External}.

Lemma strings_fill_run p d l :
  wd (self p) = Some d ->
  state (self p) !! strings_key = Some (VList l) ->
  exists p', strings_fill p = (Ok tt, p') /\
             state (self p') !! strings_key = Some (VList (l ++ string_files (world p) d)).
Proof.
  intros Hwd Hl. unfold strings_fill.
  assert (E0 : need_wd p = (Ok d, p)).
  { unfold need_wd, mbind, M_bind, bind, gets. rewrite Hwd. reflexivity. }
  rewrite (bind_ok _ _ _ _ _ E0), (bind_ok _ _ _ _ _ (os_walk_run _ p)).
  match goal with |- exists p', for_each ?ts ?body ?q = _ /\ _ =>
    destruct (for_each_extend strings_key
                (fun t : string * list string * list string =>
                   map (fun f => Path.join t.1.1 [f])
                       (filter (fun f => Str.contains "strings" f = true) t.2)) body ts q l)
      as (p3 & E3 & Hs3 & _) end.
  { intros [[root dirs] files]. reflexivity. }
  { exact Hl. }
  exists p3. split; [exact E3|]. rewrite Hs3. unfold string_files. do 4 f_equal.
  apply map_ext. intros [[root dirs] files]. reflexivity.
Qed.

Lemma string_resource_files_fresh p d :
  wd (self p) = Some d ->
  state (self p) !! strings_key = None ->
  (string_resource_files p).1 = Ok (VList (string_files (world p) d)).
Proof.
  intros Hwd Hmiss. rewrite string_resource_files_memo.
  change recursion_limit with (S (S 998)).
  pose proof (memo_rec_miss strings_key strings_fill 998 p framed_strings_fill Hmiss) as M.
  cbv zeta in M.
  edestruct (strings_fill_run
               (with_self (fun c => set_state (<[strings_key := VList []]> (state c)) c) p) d [])
    as (p' & E & Hs).
  { exact Hwd. }
  { simpl. apply lookup_insert_eq. }
  rewrite E in M. destruct M as (v & Hv & ->). simpl.
  rewrite Hv in Hs. injection Hs as ->. reflexivity.
Qed.

(** A file of the tree below the working directory [d], at the place
    [place], as the path [fn] names it. *)
Definition file_at (w : World) (d : string) (tree : FS.node) (place : list string)
    (fn : string) : Prop :=
  Path.isabs fn = true /\
  Path.parts (cwd w) fn = Path.parts (cwd w) d ++ place /\
  Forall plain_name place /\
  exists data, FS.resolve place tree = Some (FS.File data) /\
               resolve_path w fn = Some (FS.File data).




Lemma values_top (w : World) (d : string) :
  Path.isabs d = true ->
  Path.isabs (Path.join d ["res"; "values"]) = true /\
  Path.parts (cwd w) (Path.join d ["res"; "values"]) = Path.parts (cwd w) d ++ ["res"; "values"].
Proof.
  intros Habs. apply join_names; [exact Habs|].
  repeat constructor; discriminate.
Qed.

Lemma res_top (w : World) (d : string) :
  Path.isabs d = true ->
  Path.isabs (Path.join d ["res"]) = true /\
  Path.parts (cwd w) (Path.join d ["res"]) = Path.parts (cwd w) d ++ ["res"].
Proof.
  intros Habs. apply join_names; [exact Habs|].
  repeat constructor; discriminate.
Qed.

(** X7: likewise [disassembled_resources] returns exactly the files
    [*.xml] at any depth below the directory [res] of the working
    directory, each an existing regular file. *)
Theorem disassembled_resources_exact (p : Proc) (d : string) (tree : FS.node) :
  wd (self p) = Some d ->
  Path.isabs d = true ->
  state (self p) !! resources_key = None ->
  resolve_path (world p) d = Some tree ->
  tree_ok tree = true ->
  exists l,
    (disassembled_resources p).1 = Ok (VList l) /\
    (forall fn, fn ∈ l ->
       exists segs f,
         Str.endswith ".xml" f = true /\
         file_at (world p) d tree ("res" :: segs ++ [f]) fn) /\
    (forall segs f data,
       Str.endswith ".xml" f = true ->
       FS.resolve ("res" :: segs ++ [f]) tree = Some (FS.File data) ->
       exists fn, fn ∈ l /\
         Path.parts (cwd (world p)) fn = Path.parts (cwd (world p)) d ++ "res" :: segs ++ [f]).
Proof.
  intros Hwd Habs Hmiss Hd Hok. exists (resource_files (world p) d).
  split; [apply disassembled_resources_fresh; assumption|].
  destruct (res_top (world p) d Habs) as [Ha Hp].
  rewrite resource_files_listed. split.
  - intros fn H.
    destruct (enumerated_sound _ d _ ["res"] tree _ fn Hd Hok Ha Hp H)
      as (segs & f & data & HP & Hs & Hfa & Hparts & Hres & Hres').
    exists segs, f. split; [exact HP|].
    split; [exact Hfa|]. split; [exact Hparts|]. split; [|eauto].
    constructor; [repeat split; discriminate | exact Hs].
  - intros segs f data HP Hres.
    apply (enumerated_complete _ d _ ["res"] tree _ segs f data); assumption.
Qed.

(** X8: and [string_resource_files] returns exactly the files whose name
    contains [strings], whatever their extension, at any depth below
    [res/values]. *)
Theorem string_resource_files_exact (p : Proc) (d : string) (tree : FS.node) :
  wd (self p) = Some d ->
  Path.isabs d = true ->
  state (self p) !! strings_key = None ->
  resolve_path (world p) d = Some tree ->
  tree_ok tree = true ->
  exists l,
    (string_resource_files p).1 = Ok (VList l) /\
    (forall fn, fn ∈ l ->
       exists segs f,
         Str.contains "strings" f = true /\
         file_at (world p) d tree ("res" :: "values" :: segs ++ [f]) fn) /\
    (forall segs f data,
       Str.contains "strings" f = true ->
       FS.resolve ("res" :: "values" :: segs ++ [f]) tree = Some (FS.File data) ->
       exists fn, fn ∈ l /\
         Path.parts (cwd (world p)) fn
         = Path.parts (cwd (world p)) d ++ "res" :: "values" :: segs ++ [f]).
Proof.
  intros Hwd Habs Hmiss Hd Hok. exists (string_files (world p) d).
  split; [apply string_resource_files_fresh; assumption|].
  destruct (values_top (world p) d Habs) as [Ha Hp].
  rewrite string_files_listed. split.
  - intros fn H.
    destruct (enumerated_sound _ d _ ["res"; "values"] tree _ fn Hd Hok Ha Hp H)
      as (segs & f & data & HP & Hs & Hfa & Hparts & Hres & Hres').
    exists segs, f. split; [exact HP|].
    split; [exact Hfa|]. split; [exact Hparts|]. split; [|eauto].
    constructor; [repeat split; discriminate|].
    constructor; [repeat split; discriminate | exact Hs].
  - intros segs f data HP Hres.
    apply (enumerated_complete _ d _ ["res"; "values"] tree _ segs f data); assumption.
Qed.

End ExactEnumerations.


Lemma disassembled_resources_exact_witness :
  exists l,
    (disassembled_resources Cases.unpacked).1 = Ok (VList l) /\
    (forall fn, fn ∈ l ->
       exists segs f,
         Str.endswith ".xml" f = true /\
         file_at (world Cases.unpacked) Demo.cache_dir Demo.disassembled
           ("res" :: segs ++ [f]) fn) /\
    (forall segs f data,
       Str.endswith ".xml" f = true ->
       FS.resolve ("res" :: segs ++ [f]) Demo.disassembled = Some (FS.File data) ->
       exists fn, fn ∈ l /\
         Path.parts (cwd (world Cases.unpacked)) fn
         = Path.parts (cwd (world Cases.unpacked)) Demo.cache_dir ++ "res" :: segs ++ [f]).
Proof.
  apply (disassembled_resources_exact Cases.unpacked Demo.cache_dir Demo.disassembled);
    vm_compute; reflexivity.
Defined.

Lemma string_resource_files_exact_witness :
  exists l,
    (string_resource_files Cases.unpacked).1 = Ok (VList l) /\
    (forall fn, fn ∈ l ->
       exists segs f,
         Str.contains "strings" f = true /\
         file_at (world Cases.unpacked) Demo.cache_dir Demo.disassembled
           ("res" :: "values" :: segs ++ [f]) fn) /\
    (forall segs f data,
       Str.contains "strings" f = true ->
       FS.resolve ("res" :: "values" :: segs ++ [f]) Demo.disassembled = Some (FS.File data) ->
       exists fn, fn ∈ l /\
         Path.parts (cwd (world Cases.unpacked)) fn
         = Path.parts (cwd (world Cases.unpacked)) Demo.cache_dir ++ "res" :: "values" :: segs ++ [f]).
Proof.
  apply (string_resource_files_exact Cases.unpacked Demo.cache_dir Demo.disassembled);
    vm_compute; reflexivity.
Defined.

(** The three lists of the demo package. *)
Example enumerations_of_the_demo :
  (disassembled_classes Cases.unpacked).1
  = Ok (VList [Demo.cache_dir +:+ "/smali/Main.smali";
               Demo.cache_dir +:+ "/smali/com/app/Home.smali"]) /\
  (disassembled_resources Cases.unpacked).1
  = Ok (VList [Demo.cache_dir +:+ "/res/values/strings.xml"]) /\
  (string_resource_files Cases.unpacked).1
  = Ok (VList [Demo.cache_dir +:+ "/res/values/strings.xml"]).
Proof. vm_compute. repeat split; reflexivity. Qed.

(** ** Names of the enumerated files *)

Lemma endswith_length (p s : string) :
  Str.endswith p s = true -> String.length p <= String.length s.
Proof.
  induction s as [|c s IH].
  - destruct p; [reflexivity | discriminate].
  - rewrite endswith_cons. intros H. apply orb_prop in H as [H|H].
    + apply String.eqb_eq in H. subst. reflexivity.
    + specialize (IH H). simpl. lia.
Qed.

Lemma join_snoc (segs : list string) (f : string) :
  segs <> [] -> Str.join "/" (segs ++ [f]) = (Str.join "/" segs +:+ "/") +:+ f.
Proof.
  induction segs as [|x [|y segs] IH]; intros Hne; [contradiction| |].
  - simpl. rewrite append_assoc. reflexivity.
  - change ((x :: y :: segs) ++ [f]) with (x :: (y :: segs) ++ [f]).
    change ((y :: segs) ++ [f]) with (y :: segs ++ [f]) at 1.
    rewrite join_cons2. change (y :: segs ++ [f]) with ((y :: segs) ++ [f]).
    rewrite IH by discriminate. rewrite join_cons2, !append_assoc. reflexivity.
Qed.

Lemma endswith_join (p : string) (segs : list string) (f : string) :
  f <> "" -> Str.endswith p f = true -> Str.endswith p (Str.join "/" (segs ++ [f])) = true.
Proof.
  intros Hf H. destruct segs as [|x segs]; [exact H|].
  rewrite join_snoc by discriminate.
  rewrite endswith_app; [exact H | exact Hf | apply endswith_length; exact H].
Qed.



Section NameProperties.

Context {ext : External}.

Lemma isabs_nonempty (s : string) : Path.isabs s = true -> s <> "".
Proof. intros H ->. discriminate. Qed.






Lemma relpath_same (cwd fn start : string) :
  fn <> "" -> Path.parts cwd fn = Path.parts cwd start ->
  Path.relpath cwd fn start = Ok ".".
Proof.
  intros Hfn Hparts. unfold Path.relpath. apply str_eqb_neq in Hfn. rewrite Hfn, Hparts.
  pose proof (common_len_app (Path.parts cwd start) []) as C.
  rewrite app_nil_r in C. rewrite C, Nat.sub_diag, drop_all. reflexivity.
Qed.

Lemma resource_name_below (q : Proc) (d fn : string) (segs : list string) :
  wd (self q) = Some d ->
  Path.isabs d = true -> fn <> "" -> Forall plain_name segs ->
  Path.parts (cwd (world q)) fn = Path.parts (cwd (world q)) d ++ "res" :: segs ->
  source_name_of_disassembled_resource fn q
  = (Ok (match segs with [] => "." | _ => Str.join "/" segs end), q).
Proof.
  intros Hwd Habs Hfn Hplain Hparts.
  assert (E0 : need_wd q = (Ok d, q)).
  { unfold need_wd, mbind, M_bind, bind, gets. rewrite Hwd. reflexivity. }
  unfold source_name_of_disassembled_resource. rewrite (bind_ok _ _ _ _ _ E0).
  unfold mbind, M_bind, bind, gets, lift.
  destruct (res_top (world q) d Habs) as [_ Hres].
  destruct segs as [|x segs].
  - rewrite (relpath_same _ fn (Path.join d ["res"]) Hfn); [reflexivity|].
    rewrite Hparts, Hres. reflexivity.
  - rewrite (relpath_below _ fn _ (x :: segs) Hfn); [reflexivity | | |].
    + discriminate.
    + exact Hplain.
    + rewrite Hparts, Hres, <- app_assoc. reflexivity.
Qed.

(** X11: [source_name_of_disassembled_resource].  Without a working
    directory it raises the TypeError of [os.path.join(None, 'res')];
    with one, the empty path is a ValueError, and a path below [res] is
    named by its components below [res], all of them, joined by [/] -
    [.] for [res] itself. *)
Theorem source_name_of_resource (p : Proc) (fn : string) :
  (wd (self p) = None ->
   source_name_of_disassembled_resource fn p = (Raise no_wd_error, p)) /\
  (forall d,
      wd (self p) = Some d ->
      (fn = "" -> source_name_of_disassembled_resource fn p
                  = (Raise (ValueError "no path specified"), p)) /\
      (forall segs,
          Path.isabs d = true -> fn <> "" -> Forall plain_name segs ->
          Path.parts (cwd (world p)) fn = Path.parts (cwd (world p)) d ++ "res" :: segs ->
          source_name_of_disassembled_resource fn p
          = (Ok (match segs with [] => "." | _ => Str.join "/" segs end), p))).
Proof.
  split.
  - intros Hwd. unfold source_name_of_disassembled_resource.
    apply bind_raise, need_wd_none, Hwd.
  - intros d Hwd. split.
    + intros ->.
      assert (E0 : need_wd p = (Ok d, p)).
      { unfold need_wd, mbind, M_bind, bind, gets. rewrite Hwd. reflexivity. }
      unfold source_name_of_disassembled_resource. rewrite (bind_ok _ _ _ _ _ E0).
      reflexivity.
    + intros segs. apply resource_name_below. exact Hwd.
Qed.

(** X12: and it never fails on what [disassembled_resources] returns:
    every resource file returned is named by its path below [res], which
    ends in [.xml]. *)
Theorem names_of_enumerated_resources (p : Proc) (d : string) (tree : FS.node) :
  wd (self p) = Some d ->
  Path.isabs d = true ->
  state (self p) !! resources_key = None ->
  resolve_path (world p) d = Some tree ->
  tree_ok tree = true ->
  exists l,
    (disassembled_resources p).1 = Ok (VList l) /\
    forall fn, fn ∈ l ->
      exists segs f data,
        FS.resolve ("res" :: segs ++ [f]) tree = Some (FS.File data) /\
        let name := Str.join "/" (segs ++ [f]) in
        Str.endswith ".xml" name = true /\
        forall q, wd (self q) = Some d -> cwd (world q) = cwd (world p) ->
          source_name_of_disassembled_resource fn q = (Ok name, q).
Proof.
  intros Hwd Habs Hmiss Hd Hok. exists (resource_files (world p) d).
  split; [apply disassembled_resources_fresh; assumption|].
  intros fn Hfn. rewrite resource_files_listed in Hfn.
  destruct (res_top (world p) d Habs) as [Ha Hp].
  destruct (enumerated_sound _ d _ ["res"] tree _ fn Hd Hok Ha Hp Hfn)
    as (segs & f & data & HP & Hs & Hfa & Hparts & Hres & _).
  exists segs, f, data. split; [exact Hres|]. cbv zeta. split.
  - apply endswith_join; [|exact HP].
    apply Forall_app in Hs as [_ Hf]. inversion Hf as [|? ? (Hne & _) _]. exact Hne.
  - intros q Hq Hc.
    rewrite (resource_name_below q d fn (segs ++ [f]) Hq Habs).
    + destruct segs; reflexivity.
    + apply isabs_nonempty. exact Hfa.
    + exact Hs.
    + rewrite Hc. exact Hparts.
Qed.

End NameProperties.



Lemma source_name_of_resource_witness :
  source_name_of_disassembled_resource (Demo.cache_dir +:+ "/res/values/strings.xml")
    Cases.unpacked
  = (Ok "values/strings.xml", Cases.unpacked).
Proof.
  apply (proj2 (proj2 (source_name_of_resource Cases.unpacked
                         (Demo.cache_dir +:+ "/res/values/strings.xml"))
                  Demo.cache_dir eq_refl) ["values"; "strings.xml"]).
  - vm_compute. reflexivity.
  - vm_compute. discriminate.
  - repeat constructor; discriminate.
  - vm_compute. reflexivity.
Defined.

Lemma names_of_enumerated_resources_witness :
  exists l,
    (disassembled_resources Cases.unpacked).1 = Ok (VList l) /\
    forall fn, fn ∈ l ->
      exists segs f data,
        FS.resolve ("res" :: segs ++ [f]) Demo.disassembled = Some (FS.File data) /\
        let name := Str.join "/" (segs ++ [f]) in
        Str.endswith ".xml" name = true /\
        forall q, wd (self q) = Some Demo.cache_dir ->
                  cwd (world q) = cwd (world Cases.unpacked) ->
          source_name_of_disassembled_resource fn q = (Ok name, q).
Proof.
  apply (names_of_enumerated_resources Cases.unpacked Demo.cache_dir Demo.disassembled);
    vm_compute; reflexivity.
Defined.

(** ** The discipline of the stash, and the command [e] *)

Lemma split_one (sep : ascii) (s b : string) : Str.split sep s = [b] -> s = b.
Proof.
  revert b. induction s as [|c s IH]; intros b H.
  - injection H as <-. reflexivity.
  - destruct (Ascii.eqb_spec c sep) as [->|Hc].
    + rewrite split_cons_sep in H. injection H as _ H.
      exfalso. exact (split_not_nil _ _ H).
    + destruct (split_cons_other sep c s Hc) as (w & ws & E & E').
      rewrite E' in H. injection H as <- ->. rewrite (IH w E). reflexivity.
Qed.

Lemma split_two (sep : ascii) (s a b : string) :
  Str.split sep s = [a; b] ->
  s = a +:+ String sep b /\ Str.mem sep a = false /\ Str.mem sep b = false.
Proof.
  intros H.
  assert (Hparts : Forall (fun x => Str.mem sep x = false) [a; b]).
  { rewrite <- H. apply split_pieces_without. }
  inversion Hparts as [|? ? Ha Hrest]; subst. inversion Hrest as [|? ? Hb _]; subst.
  split; [|auto]. clear Hparts Hrest Ha Hb.
  revert a H. induction s as [|c s IH]; intros a H; [discriminate|].
  destruct (Ascii.eqb_spec c sep) as [->|Hc].
  - rewrite split_cons_sep in H. injection H as <- H.
    rewrite (split_one _ _ _ H). reflexivity.
  - destruct (split_cons_other sep c s Hc) as (w & ws & E & E').
    rewrite E' in H. injection H as <- ->. rewrite (IH w E). reflexivity.
Qed.

Section StashDiscipline.

Variable value : Type.
Variable of_str : string -> value.
Variable str_of : value -> string.
Variable helper : Type.
Variable get_config : string -> helper -> result value.
Variable set_config : string -> value -> helper -> result unit * helper.

#[local] Abbreviation Cmd := (ConfigCommand value helper).
#[local] Abbreviation mod_ := (_mod of_str get_config set_config).
#[local] Abbreviation manip := (_manip of_str str_of get_config set_config).

(** The begin event on a value that splits in two. *)
Lemma mod_begin_run (c : Cmd) (val k v : string) :
  Str.mem "=" val = true -> Str.split "=" val = [k; v] ->
  mod_ "begin" val c
  = if decide (is_Some (_stash c !! k))
    then ui_fatal ("config key is already bound: " +:+ k) c
    else match get_config k (_helper c) with
         | Raise e =>
             if is_InvalidConfigKeyError e then ui_fatal ("unknown key: " +:+ k) c
             else (Raise e, c)
         | Ok ov =>
             match set_config k (of_str v) (_helper c) with
             | (Ok _, h) => (Ok tt, set_stash (<[k := ov]> (_stash c)) (set_helper h c))
             | (Raise e, h) =>
                 if is_InvalidConfigKeyError e
                 then ui_fatal ("unknown key: " +:+ k) (set_helper h c)
                 else (Raise e, set_helper h c)
             end
         end.
Proof.
  intros Emem Esplit. unfold _mod. rewrite Emem, Esplit. simpl negb. cbv iota.
  unfold mbind at 1. unfold M_bind, bind, ret, try_except.
  change (Str.eqb "begin" "begin") with true. cbv iota.
  unfold mbind, M_bind, bind, gets.
  destruct (decide (is_Some (_stash c !! k))) as [Hb|Hb]; [reflexivity|].
  unfold ret, helper_get.
  destruct (get_config k (_helper c)) as [ov|e]; [|reflexivity].
  unfold helper_set. simpl _helper.
  destruct (set_config k (of_str v) (_helper c)) as [[[]|e] h]; reflexivity.
Qed.

(** The end event on a value that splits in two. *)
Lemma mod_end_run (c : Cmd) (val k v : string) :
  Str.mem "=" val = true -> Str.split "=" val = [k; v] ->
  mod_ "end" val c
  = match _stash c !! k with
    | None => (Raise AssertionError, c)
    | Some saved =>
        match set_config k saved (_helper c) with
        | (Ok _, h) => (Ok tt, set_stash (delete k (_stash c)) (set_helper h c))
        | (Raise e, h) =>
            if is_InvalidConfigKeyError e
            then ui_fatal ("unknown key: " +:+ k)
                   (set_stash (delete k (_stash c)) (set_helper h c))
            else (Raise e, set_stash (delete k (_stash c)) (set_helper h c))
        end
    end.
Proof.
  intros Emem Esplit. unfold _mod. rewrite Emem, Esplit. simpl negb. cbv iota.
  unfold mbind at 1. unfold M_bind, bind, ret, try_except.
  change (Str.eqb "end" "begin") with false. change (Str.eqb "end" "end") with true.
  cbv iota. unfold mbind, M_bind, bind, gets.
  destruct (_stash c !! k) as [saved|] eqn:Hs; [|reflexivity].
  unfold try_finally, helper_set, stash_del.
  destruct (set_config k saved (_helper c)) as [[[]|e] h]; simpl; rewrite Hs; reflexivity.
Qed.

(** A value that does not split in two is refused whatever the event,
    with the stash and the config as they were. *)
Lemma mod_cases (ev : string) (c : Cmd) (val : string) :
  (exists e, (mod_ ev val c).1 = Raise e /\
             _stash (mod_ ev val c).2 = _stash c /\
             _helper (mod_ ev val c).2 = _helper c) \/
  (exists k v, Str.mem "=" val = true /\ Str.split "=" val = [k; v]).
Proof.
  destruct (Str.mem "=" val) eqn:Emem.
  - destruct (Str.split "=" val) as [|k [|v [|x l]]] eqn:Esplit;
      try (left; unfold _mod; rewrite Emem, Esplit; simpl; eauto; fail).
    right. eauto.
  - left. unfold _mod. rewrite Emem. simpl. eauto.
Qed.

(** X13: the [begin] event either raises and binds nothing, or returns
    having bound exactly one key: the key of a value [k=v] that was not
    bound, to the value the config had for it, with the config set
    through the setter.  A key that is bound already is refused before
    either accessor is called, so a saved value is never overwritten. *)
Theorem mod_begin_discipline (c : Cmd) (val : string) :
  let r := mod_ "begin" val c in
  match r.1 with
  | Raise _ => _stash r.2 = _stash c
  | Ok _ =>
      exists k v ov,
        val = k +:+ "=" +:+ v /\ _stash c !! k = None /\
        get_config k (_helper c) = Ok ov /\
        _stash r.2 = <[k := ov]> (_stash c) /\
        set_config k (of_str v) (_helper c) = (Ok tt, _helper r.2)
  end /\
  forall k v saved,
    val = k +:+ "=" +:+ v -> Str.mem "=" k = false -> Str.mem "=" v = false ->
    _stash c !! k = Some saved ->
    r.1 = Raise FatalError /\ _helper r.2 = _helper c /\
    ui_lines r.2 = ui_lines c ++ ["config key is already bound: " +:+ k].
Proof.
  cbv zeta. split.
  - destruct (mod_cases "begin" c val) as [(e & E1 & E2 & _) | (k & v & Emem & Esplit)].
    + rewrite E1. exact E2.
    + destruct (split_two _ _ _ _ Esplit) as (Hval & Hk & Hv).
      rewrite (mod_begin_run c val k v Emem Esplit).
      destruct (decide (is_Some (_stash c !! k))) as [Hb|Hb]; [reflexivity|].
      destruct (get_config k (_helper c)) as [ov|e] eqn:Hg.
      * destruct (set_config k (of_str v) (_helper c)) as [[[]|e] h] eqn:Hset.
        -- simpl. exists k, v, ov. repeat split; auto.
           destruct (_stash c !! k) eqn:E; [|reflexivity]. exfalso. apply Hb. eauto.
        -- destruct (is_InvalidConfigKeyError e); reflexivity.
      * destruct (is_InvalidConfigKeyError e); reflexivity.
  - intros k v saved -> Hk Hv Hs.
    destruct (split_binding k v Hk Hv) as [Esplit Emem].
    rewrite (mod_begin_run c _ k v Emem Esplit).
    destruct (decide (is_Some (_stash c !! k))) as [Hb|Hb].
    + simpl. auto.
    + exfalso. apply Hb. eauto.
Qed.

(** X14: the [end] event either raises with the stash and the config as
    they were - the value is malformed, or its key is not bound, which is
    an AssertionError - or it calls the setter once, with the value saved
    for the key, and unbinds the key. *)
Theorem mod_end_discipline (c : Cmd) (val : string) :
  let r := mod_ "end" val c in
  ((_stash r.2 = _stash c /\ _helper r.2 = _helper c /\ exists e, r.1 = Raise e) \/
   (exists k v saved,
       val = k +:+ "=" +:+ v /\ _stash c !! k = Some saved /\
       _stash r.2 = delete k (_stash c) /\
       _helper r.2 = (set_config k saved (_helper c)).2)) /\
  forall k v,
    val = k +:+ "=" +:+ v -> Str.mem "=" k = false -> Str.mem "=" v = false ->
    _stash c !! k = None -> r = (Raise AssertionError, c).
Proof.
  cbv zeta. split.
  - destruct (mod_cases "end" c val) as [(e & E1 & E2 & E3) | (k & v & Emem & Esplit)].
    + left. eauto.
    + destruct (split_two _ _ _ _ Esplit) as (Hval & Hk & Hv).
      rewrite (mod_end_run c val k v Emem Esplit).
      destruct (_stash c !! k) as [saved|] eqn:Hs.
      * right. exists k, v, saved. split; [exact Hval|]. split; [exact Hs|].
        destruct (set_config k saved (_helper c)) as [[[]|e] h]; simpl; [auto|].
        destruct (is_InvalidConfigKeyError e); simpl; auto.
      * left. simpl. eauto.
  - intros k v -> Hk Hv Hs. destruct (split_binding k v Hk Hv) as [Esplit Emem].
    rewrite (mod_end_run c _ k v Emem Esplit), Hs. reflexivity.
Qed.

(** The command [e key=value]. *)
Lemma manip_set_run (c : Cmd) (cmd kv key val : string) :
  Str.mem "=" kv = true -> Str.split "=" kv = [key; val] ->
  manip [cmd; kv] c
  = if Str.eqb val "" then ui_fatal "need a value" c
    else match set_config key (of_str val) (_helper c) with
         | (Ok _, h) => (Ok tt, set_helper h c)
         | (Raise e, h) =>
             if is_InvalidConfigKeyError e
             then ui_fatal ("unknown key: " +:+ key) (set_helper h c)
             else (Raise e, set_helper h c)
         end.
Proof.
  intros Emem Esplit. unfold _manip. rewrite Emem, Esplit. simpl negb. cbv iota.
  unfold mbind at 1. unfold M_bind, bind, ret, try_except.
  unfold mbind, M_bind, bind.
  destruct (Str.eqb val ""); [reflexivity|].
  unfold helper_set.
  destruct (set_config key (of_str val) (_helper c)) as [[[]|e] h]; reflexivity.
Qed.

(** The command [e key]. *)
Lemma manip_get_run (c : Cmd) (cmd key : string) :
  Str.mem "=" key = false ->
  manip [cmd; key] c
  = match get_config key (_helper c) with
    | Ok v => ui_say (key +:+ ": " +:+ str_of v) c
    | Raise e =>
        if is_InvalidConfigKeyError e then ui_fatal ("unknown key: " +:+ key) c
        else (Raise e, c)
    end.
Proof.
  intros Emem. unfold _manip. rewrite Emem. simpl negb. cbv iota.
  unfold mbind at 1. unfold M_bind, bind, ret, try_except.
  unfold mbind, M_bind, bind, helper_get.
  destruct (get_config key (_helper c)) as [v|e]; reflexivity.
Qed.

(** X15: the command [e] never touches the stash; without exactly one
    argument after its name it raises and leaves the config alone; with a
    bare key it leaves the config alone and returns exactly when the
    getter does; and the config is changed only by [e key=value] with a
    value that is not empty, through one call of the setter. *)
Theorem manip_discipline (args : list string) (c : Cmd) :
  let r := manip args c in
  _stash r.2 = _stash c /\
  (length args <> 2 -> _helper r.2 = _helper c /\ exists e, r.1 = Raise e) /\
  (forall cmd key, args = [cmd; key] -> Str.mem "=" key = false ->
                   _helper r.2 = _helper c /\
                   (r.1 = Ok tt <-> exists v, get_config key (_helper c) = Ok v)) /\
  (_helper r.2 <> _helper c ->
   exists cmd key val,
     args = [cmd; key +:+ "=" +:+ val] /\ val <> "" /\
     _helper r.2 = (set_config key (of_str val) (_helper c)).2).
Proof.
  cbv zeta. destruct args as [|cmd [|kv [|x l]]].
  - simpl. repeat split; eauto; try discriminate. intros H. destruct H. reflexivity.
  - simpl. repeat split; eauto; try discriminate. intros H. destruct H. reflexivity.
  - assert (Hget : Str.mem "=" kv = false ->
                   _stash (manip [cmd; kv] c).2 = _stash c /\
                   _helper (manip [cmd; kv] c).2 = _helper c /\
                   ((manip [cmd; kv] c).1 = Ok tt <-> exists v, get_config kv (_helper c) = Ok v)).
    { intros Emem. rewrite (manip_get_run c cmd kv Emem).
      destruct (get_config kv (_helper c)) as [v|e]; simpl.
      - repeat split; eauto.
      - destruct (is_InvalidConfigKeyError e); simpl;
          (repeat split; auto; [discriminate | intros (v & Hv); discriminate]). }
    destruct (Str.mem "=" kv) eqn:Emem.
    + assert (Hset : _stash (manip [cmd; kv] c).2 = _stash c /\
                     (_helper (manip [cmd; kv] c).2 <> _helper c ->
                      exists key val, kv = key +:+ "=" +:+ val /\ val <> "" /\
                        _helper (manip [cmd; kv] c).2
                        = (set_config key (of_str val) (_helper c)).2)).
      { destruct (Str.split "=" kv) as [|key [|val [|x l]]] eqn:Esplit;
          try (unfold _manip; rewrite Emem, Esplit; simpl; split;
               [reflexivity | intros H; destruct H; reflexivity]; fail).
        destruct (split_two _ _ _ _ Esplit) as (Hkv & _ & _).
        rewrite (manip_set_run c cmd kv key val Emem Esplit).
        unfold Str.eqb. destruct (String.eqb_spec val "") as [->|Hval].
        - simpl. split; [reflexivity | intros H; destruct H; reflexivity].
        - destruct (set_config key (of_str val) (_helper c)) as [[[]|e] h] eqn:E;
            [|destruct (is_InvalidConfigKeyError e)];
            simpl; (split; [reflexivity | intros _; exists key, val; rewrite E; auto]). }
      destruct Hset as [Hstash Hhelper].
      split; [exact Hstash|]. split; [intros H; destruct H; reflexivity|].
      split; [intros cmd' key [= <- <-] Hm; congruence|].
      intros H. destruct (Hhelper H) as (key & val & -> & Hval & E).
      exists cmd, key, val. auto.
    + destruct (Hget eq_refl) as (Hstash & Hhelper & Hret).
      split; [exact Hstash|]. split; [intros H; destruct H; reflexivity|].
      split; [intros cmd' key [= <- <-] _; auto|].
      intros H. destruct (H Hhelper).
  - simpl. split; [reflexivity|]. split; [eauto|]. split; [discriminate|].
    intros H. destruct H. reflexivity.
Qed.

(** What is set is what is read afterwards. *)
Hypothesis get_after_set :
  forall k v h h', set_config k v h = (Ok tt, h') -> get_config k h' = Ok v.

(** X16: when the setter accepts [key=value], the command [e key=value]
    returns with the config the setter leaves and nothing said, and the
    command [e key] that follows says the value that was set and changes
    nothing else. *)
Theorem manip_set_then_get (c : Cmd) (cmd cmd' key val : string) (h1 : helper) :
  Str.mem "=" key = false -> Str.mem "=" val = false -> val <> "" ->
  set_config key (of_str val) (_helper c) = (Ok tt, h1) ->
  let r1 := manip [cmd; key +:+ "=" +:+ val] c in
  let r2 := manip [cmd'; key] r1.2 in
  r1 = (Ok tt, set_helper h1 c) /\
  r2 = (Ok tt, {| _helper := h1; _stash := _stash c;
                  ui_lines := ui_lines c ++ [key +:+ ": " +:+ str_of (of_str val)] |}).
Proof.
  intros Hk Hv Hval Hset. cbv zeta.
  destruct (split_binding key val Hk Hv) as [Esplit Emem].
  rewrite (manip_set_run c cmd _ key val Emem Esplit), Hset.
  unfold Str.eqb. destruct (String.eqb_spec val "") as [E|_]; [destruct (Hval E)|].
  split; [reflexivity|]. cbn [snd].
  rewrite (manip_get_run _ cmd' key Hk). cbn [_helper set_helper].
  rewrite (get_after_set _ _ _ _ Hset). reflexivity.
Qed.

End StashDiscipline.

Lemma mod_begin_discipline_witness :
  let c := {| _helper := ({["debug" := "1"]} : gmap string string);
              _stash := {["debug" := "0"]}; ui_lines := [] |} in
  let r := DemoConfig.modifier "begin" "debug=2" c in
  r.1 = Raise FatalError /\ _helper r.2 = _helper c /\
  ui_lines r.2 = ui_lines c ++ ["config key is already bound: debug"].
Proof.
  cbv zeta.
  apply (proj2 (mod_begin_discipline string id (gmap string string) DemoConfig.get DemoConfig.set
                  {| _helper := {["debug" := "1"]}; _stash := {["debug" := "0"]}; ui_lines := [] |}
                  "debug=2") "debug" "2" "0");
    vm_compute; reflexivity.
Defined.

Lemma mod_end_discipline_witness :
  DemoConfig.modifier "end" "debug=1" DemoConfig.command
  = (Raise AssertionError, DemoConfig.command).
Proof.
  apply (proj2 (mod_end_discipline string id (gmap string string) DemoConfig.get DemoConfig.set
                  DemoConfig.command "debug=1") "debug" "1");
    vm_compute; reflexivity.
Defined.

Lemma manip_discipline_witness :
  (let r := DemoManip.manip ["e"; "debug"] DemoConfig.command in
   _helper r.2 = _helper DemoConfig.command /\
   (r.1 = Ok tt <-> exists v, DemoConfig.get "debug" (_helper DemoConfig.command) = Ok v)) /\
  (let r := DemoManip.manip ["e"; "debug=1"] DemoConfig.command in
   exists cmd key val,
     ["e"; "debug=1"] = [cmd; key +:+ "=" +:+ val] /\ val <> "" /\
     _helper r.2 = (DemoConfig.set key (id val) (_helper DemoConfig.command)).2).
Proof.
  cbv zeta. split.
  - apply (proj1 (proj2 (proj2 (manip_discipline string id id (gmap string string)
                                  DemoConfig.get DemoConfig.set
                                  ["e"; "debug"] DemoConfig.command))) "e" "debug");
      reflexivity.
  - apply (proj2 (proj2 (proj2 (manip_discipline string id id (gmap string string)
                                  DemoConfig.get DemoConfig.set
                                  ["e"; "debug=1"] DemoConfig.command)))).
    intros H. apply (f_equal (fun m : gmap string string => m !! "debug")) in H.
    vm_compute in H. discriminate H.
Defined.

Lemma manip_set_then_get_witness :
  let r1 := DemoManip.manip ["e"; "debug=1"] DemoConfig.command in
  let r2 := DemoManip.manip ["e"; "debug"] r1.2 in
  r1 = (Ok tt, set_helper {["debug" := "1"]} DemoConfig.command) /\
  r2 = (Ok tt, {| _helper := {["debug" := "1"]}; _stash := _stash DemoConfig.command;
                  ui_lines := ui_lines DemoConfig.command ++ ["debug" +:+ ": " +:+ id (id "1")] |}).
Proof.
  cbv zeta.
  apply (manip_set_then_get string id id (gmap string string) DemoConfig.get DemoConfig.set
           demo_get_after_set DemoConfig.command "e" "e" "debug" "1" {["debug" := "1"]});
    [reflexivity | reflexivity | discriminate | vm_compute; reflexivity].
Defined.

(** The command [e] on the bag: a value set and read back, an unknown key,
    a value left out and a stray argument. *)
Example manip_on_the_bag :
  let c1 := (DemoManip.manip ["e"; "debug=1"] DemoConfig.command).2 in
  map_to_list (_helper c1) = [("debug", "1")] /\
  ui_lines (DemoManip.manip ["e"; "debug"] c1).2 = ["debug: 1"] /\
  (DemoManip.manip ["e"; "verbose"] c1).1 = Raise FatalError /\
  ui_lines (DemoManip.manip ["e"; "verbose"] c1).2 = ["unknown key: verbose"] /\
  (DemoManip.manip ["e"; "debug="] c1).1 = Raise FatalError /\
  ui_lines (DemoManip.manip ["e"; "debug="] c1).2 = ["need a value"] /\
  (DemoManip.manip ["e"; "a=b=c"] c1).1
  = Raise (ValueError "too many values to unpack (expected 2)") /\
  (DemoManip.manip ["e"; "debug"; "1"] c1).1 = Raise FatalError /\
  (DemoManip.manip ["e"] c1).1 = Raise FatalError.
Proof. vm_compute. repeat split; reflexivity. Qed.
